(** * CCM_RecentlyUsedApps carver: a shallow embedding of
      [carve_for_ccm_recentlyusedapps.py] and the properties of its record
      decoder.

    The Python module scans a binary capture for two literal signatures and
    decodes, after each match, a fixed header, a table of property offsets and
    a blob of CIM Encoded-Strings.  The embedding keeps the shape of the
    source: [NamedStruct] layouts interpreted by one generic reader, a file
    object with a read position, dictionaries as finite maps, [print] as a
    log of diagnostics, exceptions as a sum type. *)

From Stdlib Require Import ZArith NArith List Ascii String Lia.
From Stdlib Require Import Strings.Byte Sorting.Sorted Sorting.Permutation.
From stdpp Require Import gmap strings list fin_maps.

Local Open Scope string_scope.
Local Open Scope list_scope.
Local Open Scope Z_scope.

(** ** Bytes, Python slices, little-endian integers *)

#[global] Instance byte_eq_dec : EqDecision byte := fun x y =>
  match Byte.eqb x y as b return Byte.eqb x y = b -> {x = y} + {x <> y} with
  | true => fun H => left (Byte.byte_dec_bl x y H)
  | false => fun H => right (Byte.eqb_false H)
  end eq_refl.

Module Py.

(** The value of a byte, as Python's [buf[i]] gives it. *)
Definition byte_val (b : byte) : Z := Z.of_N (Byte.to_N b).

(** [l[a:b]] with Python's rules: a negative index counts from the end, and
    both indices are clamped to the sequence. *)
Definition slice_index (len i : Z) : Z :=
  if i <? 0 then Z.max (i + len) 0 else Z.min i len.

Definition slice {A} (l : list A) (a b : Z) : list A :=
  let len := Z.of_nat (length l) in
  let a' := slice_index len a in
  let b' := slice_index len b in
  take (Z.to_nat (b' - a')) (drop (Z.to_nat a') l).

(** Unsigned little-endian integer held by a byte string. *)
Fixpoint le_uint (bs : list byte) : Z :=
  match bs with
  | [] => 0
  | b :: rest => byte_val b + 256 * le_uint rest
  end.

(** Signed (two's complement) reading of a [w]-byte little-endian string. *)
Definition le_int (bs : list byte) : Z :=
  let u := le_uint bs in
  let m := 256 ^ Z.of_nat (length bs) in
  if 2 * u <? m then u else u - m.

End Py.

(** ** [struct.Struct] restricted to the format characters the module uses *)

Inductive fmt : Type :=
| Fmt_Q            (* 'Q'  unsigned 8 bytes *)
| Fmt_I            (* 'I'  unsigned 4 bytes *)
| Fmt_h            (* 'h'  signed 2 bytes *)
| Fmt_x (n : nat). (* 'nx' n pad bytes, no value *)

Definition fmt_size (f : fmt) : nat :=
  match f with
  | Fmt_Q => 8
  | Fmt_I => 4
  | Fmt_h => 2
  | Fmt_x n => n
  end.

(** 'x' in the format string: the field yields no value. *)
Definition fmt_is_pad (f : fmt) : bool :=
  match f with Fmt_x _ => true | _ => false end.

(** With the '<' prefix there is no alignment: the size is the plain sum. *)
Fixpoint calcsize (fs : list fmt) : nat :=
  match fs with
  | [] => 0
  | f :: fs' => fmt_size f + calcsize fs'
  end.

Fixpoint unpack_fields (fs : list fmt) (buf : list byte) : list Z :=
  match fs with
  | [] => []
  | f :: fs' =>
      let here := take (fmt_size f) buf in
      let rest := drop (fmt_size f) buf in
      match f with
      | Fmt_Q | Fmt_I => Py.le_uint here :: unpack_fields fs' rest
      | Fmt_h => Py.le_int here :: unpack_fields fs' rest
      | Fmt_x _ => unpack_fields fs' rest
      end
  end.

(** [Struct.unpack]: [None] stands for [struct.error], raised when the buffer
    is not exactly [size] bytes long. *)
Definition unpack (fs : list fmt) (buf : list byte) : option (list Z) :=
  if Nat.eqb (length buf) (calcsize fs) then Some (unpack_fields fs buf) else None.

(** [class NamedStruct(struct.Struct)]: the pairs (name, format). *)
Module NamedStruct.

Definition t := list (string * fmt).

Definition formats (ns : t) : list fmt := map snd ns.

Definition size (ns : t) : nat := calcsize (formats ns).

(** The fields of the named tuple: [x[0] for x in pairs if 'x' not in x[1]]. *)
Definition field_names (ns : t) : list string :=
  map fst (filter (fun p => negb (fmt_is_pad (snd p))) ns).

(** [parse]: [unpack(buf[offset:self.size + offset])] under the field names. *)
Definition parse (ns : t) (buf : list byte) (offset : Z)
  : option (list (string * Z)) :=
  match unpack (formats ns) (Py.slice buf offset (Z.of_nat (size ns) + offset)) with
  | Some vals => Some (combine (field_names ns) vals)
  | None => None
  end.

(** [parse_as_dict]: the same pairs as a [dict], which keeps the order of
    insertion; an association list in field order. *)
Definition parse_as_dict (ns : t) (buf : list byte) (offset : Z)
  : option (list (string * Z)) :=
  parse ns buf offset.

End NamedStruct.

(** ** Module constants *)

(** [RECENTLY_USED_APPS_TYPES], a dict from match length to a name; [None]
    is a missing key. *)
Definition RECENTLY_USED_APPS_TYPES (match_len : Z) : option string :=
  if match_len =? 128 then Some "Vista"
  else if match_len =? 64 then Some "XP"
  else None.

Definition RUA_RECORD_HEADER : NamedStruct.t :=
  [ ("last_updated", Fmt_Q);
    ("last_joined_sccm", Fmt_Q);
    ("record_size", Fmt_I);
    ("_classname_offset", Fmt_x 4);
    ("_unknown_byte_0x98", Fmt_x 1);
    ("_property_states", Fmt_x 5) ].

Definition RUA_PROPERTY_OFFSETS_VALUES : NamedStruct.t :=
  [ ("folder_path", Fmt_I);
    ("explorer_filename", Fmt_I);
    ("last_username", Fmt_I);
    ("original_filename", Fmt_I);
    ("file_version", Fmt_I);
    ("file_size", Fmt_I);
    ("product_name", Fmt_I);
    ("product_version", Fmt_I);
    ("company_name", Fmt_I);
    ("product_language", Fmt_I);
    ("file_description", Fmt_I);
    ("launch_count", Fmt_I);
    ("last_used_time", Fmt_I);
    ("product_code", Fmt_I);
    ("additional_product_codes", Fmt_I);
    ("msi_display_name", Fmt_I);
    ("msi_publisher", Fmt_I);
    ("msi_version", Fmt_I);
    ("software_properties_hash", Fmt_I);
    ("file_properties_hash", Fmt_I);
    ("_qualifiers_list", Fmt_x 4);
    ("_dynamic_properties", Fmt_x 1);
    ("properties_size", Fmt_h);
    ("_unknown_short_0xF5", Fmt_x 2) ].

Definition RUA_PROPERTY_VALUE_FIELDS : list string :=
  [ "file_size"; "launch_count"; "product_language" ].

Definition RUA_RECORD_STRINGS : list string :=
  [ "additional_product_codes"; "company_name"; "explorer_filename";
    "file_description"; "file_properties_hash"; "file_version"; "folder_path";
    "last_used_time"; "last_username"; "msi_display_name"; "msi_publisher";
    "msi_version"; "original_filename"; "product_code"; "product_name";
    "product_version"; "software_properties_hash" ].

Definition CSV_FIELDNAMES : list string :=
  [ "input_file_path"; "offset"; "record_type"; "full_path"; "file_extension";
    "last_updated"; "last_joined_sccm"; "file_size"; "launch_count";
    "product_language" ] ++ RUA_RECORD_STRINGS.

(** An arbitrary safety limit for the parser. *)
Definition RUA_MAX_RECORD_SIZE : Z := 65536.

(** ** Exceptions and Python values *)

Inductive pykey : Type := KInt (n : Z) | KStr (s : string).

Inductive exn : Type :=
| KeyError (key : pykey)
| OverflowError
| ValueError
| TypeError
| AttributeError
| InvalidOperation.   (* decimal.InvalidOperation *)

Inductive result (A : Type) : Type :=
| Ok (a : A)
| Raise (e : exn).
Arguments Ok {A} a.
Arguments Raise {A} e.

(** A Python [str]: a sequence of Unicode code points. *)
Definition pystr := list N.

Definition str_of_string (s : string) : pystr :=
  map N_of_ascii (list_ascii_of_string s).

Definition chr (b : byte) : N := Byte.to_N b.

(** [s.rstrip(c)] for a one-character [c], on [str] or on [bytes]. *)
Fixpoint rstrip {A} (is_c : A -> bool) (s : list A) : list A :=
  match s with
  | [] => []
  | x :: rest =>
      match rstrip is_c rest with
      | [] => if is_c x then [] else [x]
      | rest' => x :: rest'
      end
  end.

Definition str_endswith (s suffix : pystr) : bool :=
  bool_decide (drop (length s - length suffix)%nat s = suffix).

(** [s.rfind(c)] for a one-character [c]: the highest index, or -1. *)
Fixpoint rfind_from (c : N) (s : pystr) (i : Z) (found : Z) : Z :=
  match s with
  | [] => found
  | x :: rest => rfind_from c rest (i + 1) (if N.eqb x c then i else found)
  end.

Definition str_rfind (s : pystr) (c : N) : Z := rfind_from c s 0 (-1).

(** [s.replace(c, '')] for a one-character [c]. *)
Definition str_remove (c : N) (s : pystr) : pystr :=
  filter (fun x => x <> c) s.

(** ** [datetime] and [timedelta], as far as [epoch + timedelta(microseconds=us)]
       needs them (the proleptic Gregorian calendar of the standard library) *)

Module Datetime.

Record datetime : Type := mk_datetime
  { year : Z; month : Z; day : Z;
    hour : Z; minute : Z; second : Z; microsecond : Z }.

Record timedelta : Type := mk_timedelta
  { days : Z; seconds : Z; microseconds : Z }.

Definition MAXORDINAL : Z := 3652059.   (* date(9999, 12, 31).toordinal() *)
Definition DI400Y : Z := 146097.
Definition DI100Y : Z := 36524.
Definition DI4Y : Z := 1461.

Definition DAYS_IN_MONTH : list Z :=
  [-1; 31; 28; 31; 30; 31; 30; 31; 31; 30; 31; 30; 31].
Definition DAYS_BEFORE_MONTH : list Z :=
  [-1; 0; 31; 59; 90; 120; 151; 181; 212; 243; 273; 304; 334].

Definition is_leap (y : Z) : bool :=
  (y mod 4 =? 0) && (negb (y mod 100 =? 0) || (y mod 400 =? 0)).

Definition days_before_year (y : Z) : Z :=
  let y' := y - 1 in y' * 365 + y' / 4 - y' / 100 + y' / 400.

Definition days_before_month (y m : Z) : Z :=
  nth (Z.to_nat m) DAYS_BEFORE_MONTH 0
  + (if (2 <? m) && is_leap y then 1 else 0).

Definition ymd2ord (y m d : Z) : Z :=
  days_before_year y + days_before_month y m + d.

(** [_ord2ymd]: ordinal (1 is 0001-01-01) to year, month, day. *)
Definition ord2ymd (n : Z) : Z * Z * Z :=
  let n := n - 1 in
  let n400 := n / DI400Y in let n := n mod DI400Y in
  let year := n400 * 400 + 1 in
  let n100 := n / DI100Y in let n := n mod DI100Y in
  let n4 := n / DI4Y in let n := n mod DI4Y in
  let n1 := n / 365 in let n := n mod 365 in
  let year := year + n100 * 100 + n4 * 4 + n1 in
  if (n1 =? 4) || (n100 =? 4) then (year - 1, 12, 31)
  else
    let leapyear := (n1 =? 3) && (negb (n4 =? 24) || (n100 =? 3)) in
    let month := Z.shiftr (n + 50) 5 in
    let preceding :=
      nth (Z.to_nat month) DAYS_BEFORE_MONTH 0
      + (if (2 <? month) && leapyear then 1 else 0) in
    if n <? preceding then
      let month := month - 1 in
      let preceding :=
        preceding - (nth (Z.to_nat month) DAYS_IN_MONTH 0
                     + (if (month =? 2) && leapyear then 1 else 0)) in
      (year, month, n - preceding + 1)
    else (year, month, n - preceding + 1).

Definition toordinal (d : datetime) : Z := ymd2ord (year d) (month d) (day d).

(** The [timedelta] constructor: carries microseconds into seconds and
    seconds into days; more than 999999999 days either way is an
    [OverflowError]. *)
Definition make_timedelta (d s us : Z) : result timedelta :=
  let s := s + us / 1000000 in
  let us := us mod 1000000 in
  let d := d + s / 86400 in
  let s := s mod 86400 in
  if 999999999 <? Z.abs d then Raise OverflowError
  else Ok (mk_timedelta d s us).

(** [datetime.__add__(self, other)]. *)
Definition add (self : datetime) (other : timedelta) : result datetime :=
  match make_timedelta (toordinal self)
          (hour self * 3600 + minute self * 60 + second self)
          (microsecond self) with
  | Raise e => Raise e
  | Ok delta =>
      match make_timedelta (days delta + days other)
              (seconds delta + seconds other)
              (microseconds delta + microseconds other) with
      | Raise e => Raise e
      | Ok delta =>
          let hour := seconds delta / 3600 in
          let rem := seconds delta mod 3600 in
          let minute := rem / 60 in
          let second := rem mod 60 in
          if (0 <? days delta) && (days delta <=? MAXORDINAL) then
            let '(y, m, d) := ord2ymd (days delta) in
            Ok (mk_datetime y m d hour minute second (microseconds delta))
          else Raise OverflowError
      end
  end.

End Datetime.

(** ** Timestamp parsing *)

(** [Decimal(num) / Decimal(den)] followed by [.quantize(1, ROUND_HALF_EVEN)]
    and [int]: the quotient rounded to the nearest integer, ties to even.
    The decimal context (28 significant digits) represents the quotient
    exactly for the operands met here: a 64-bit tick count times [10^6] over
    [10^7] has at most 20 integer digits and one decimal. *)
Definition quantize_half_even (num den : Z) : Z :=
  let q := num / den in
  let r := num mod den in
  if 2 * r <? den then q
  else if den <? 2 * r then q + 1
  else if Z.even q then q else q + 1.

Definition parse_timestamp (ticks resolution : Z) (epoch : Datetime.datetime)
  : result Datetime.datetime :=
  (* python's datetime.datetime supports microsecond precision *)
  let datetime_resolution := 1000000 in
  (* convert ticks since epoch to microseconds since epoch *)
  let us := quantize_half_even (ticks * datetime_resolution) resolution in
  (* convert to datetime *)
  match Datetime.make_timedelta 0 0 us with
  | Raise e => Raise e
  | Ok delta => Datetime.add epoch delta
  end.

Definition parse_windows_timestamp (qword : Z) : result Datetime.datetime :=
  parse_timestamp qword 10000000 (Datetime.mk_datetime 1601 1 1 0 0 0 0).

(** [None] is Python's [None]; the [except] clause catches [OverflowError],
    [TypeError] and [ValueError]. *)
Definition datetime_from_windows_filetime (count : Z) : result (option Datetime.datetime) :=
  if count =? 0 then Ok None
  else
    match parse_windows_timestamp count with
    | Ok d => Ok (Some d)
    | Raise OverflowError | Raise TypeError | Raise ValueError => Ok None
    | Raise e => Raise e
    end.


(** ** Text decoding *)

Definition REPLACEMENT : N := 65533.   (* U+FFFD *)

Definition is_high_surrogate (u : N) : bool := (55296 <=? u)%N && (u <=? 56319)%N.
Definition is_low_surrogate (u : N) : bool := (56320 <=? u)%N && (u <=? 57343)%N.
Definition code_unit (lo hi : byte) : N := (Byte.to_N lo + 256 * Byte.to_N hi)%N.

(** [bytes.decode('utf-16le', errors='replace')]: a surrogate pair gives one
    code point; a low surrogate alone, a high surrogate not followed by a low
    one, a high surrogate cut short by the end of the data and an odd last
    byte are each replaced by U+FFFD. *)
Fixpoint decode_utf16le_replace (buf : list byte) : pystr :=
  match buf with
  | [] => []
  | [_] => [REPLACEMENT]
  | lo :: hi :: rest =>
      let u := code_unit lo hi in
      if is_low_surrogate u then REPLACEMENT :: decode_utf16le_replace rest
      else if is_high_surrogate u then
        match rest with
        | lo2 :: hi2 :: rest' =>
            let u2 := code_unit lo2 hi2 in
            if is_low_surrogate u2
            then (65536 + (u - 55296) * 1024 + (u2 - 56320))%N
                   :: decode_utf16le_replace rest'
            else REPLACEMENT :: decode_utf16le_replace rest
        | _ => [REPLACEMENT]
        end
      else u :: decode_utf16le_replace rest
  end.

(** [buf[i]] on [bytes]: a negative index counts from the end; [None] is
    [IndexError]. *)
Definition getitem (buf : list byte) (i : Z) : option byte :=
  let len := Z.of_nat (length buf) in
  let j := if i <? 0 then i + len else i in
  if (0 <=? j) && (j <? len) then buf !! Z.to_nat j else None.

(** [range(a, b)]. *)
Definition range (a b : Z) : list Z :=
  map (fun k => a + Z.of_nat k) (seq 0 (Z.to_nat (b - a))).

(** ** Values, records, diagnostics *)

Inductive value : Type :=
| VNone
| VInt (n : Z)
| VStr (s : pystr)
| VDatetime (d : Datetime.datetime).

(** A [dict] with [str] keys, such as [record]. *)
Abbreviation pydict := (gmap string value).

(** What the module prints; each message with the values formatted into it. *)
Inductive diag : Type :=
| Could_not_decode_string (buf : list byte) (file_offset : value) (fullpath : value)
| Unexpected_flag (uncompressed_raw : list byte) (file_offset : value) (fullpath : value)
| Could_not_decode_offsets (hash_start : Z) (fullpath : value)
| Could_not_decode_header (hash_start : Z) (fullpath : value)
| Record_size_too_large (record_size max_size hash_start : Z) (fullpath : value).

(** ** The file object and the effects of the module *)

Record fileobj : Type := mk_fileobj
  { content : list byte;     (* the bytes of the open file *)
    position : nat }.        (* the read position *)

Record world : Type := mk_world
  { file : fileobj;
    stdout : list diag }.    (* printed so far, oldest first *)

(** A computation reads the file, prints, and returns or raises. *)
Definition M (A : Type) : Type := world -> result A * world.

#[global] Instance M_ret : MRet M := fun A a w => (Ok a, w).
#[global] Instance M_bind : MBind M := fun A B k c w =>
  match c w with
  | (Ok a, w') => k a w'
  | (Raise e, w') => (Raise e, w')
  end.

Definition raise {A} (e : exn) : M A := fun w => (Raise e, w).

Definition print (d : diag) : M unit := fun w =>
  (Ok tt, mk_world (file w) (stdout w ++ [d])).

(** [fileobj.seek(pos)]. *)
Definition seek (pos : nat) : M unit := fun w =>
  (Ok tt, mk_world (mk_fileobj (content (file w)) pos) (stdout w)).

(** [fileobj.read(n)] on the buffered reader of [open(path, 'rb')]: up to
    [n] bytes from the read position, which moves past them; [-1] reads
    everything up to the end of the file, and a length below [-1] is a
    [ValueError], raised before anything is read. *)
Definition read (n : Z) : M (list byte) := fun w =>
  if n <? -1 then (Raise ValueError, w)
  else
    let f := file w in
    let avail := drop (position f) (content f) in
    let got := if n <? 0 then avail else take (Z.to_nat n) avail in
    (Ok got, mk_world (mk_fileobj (content f) (position f + length got)) (stdout w)).

(** ** CIM Encoded-Strings *)

Definition is_nul_byte (b : byte) : bool := Byte.eqb b x00.
Definition is_nul_char (c : N) : bool := N.eqb c 0.

(** [None] is Python's [None].  The first branch cannot fail: with
    [errors='replace'] the codec never raises.  The second fails when an
    index of [range(offset, range_end)] is out of range. *)
Definition decode_cim_encoded_string (buf : list byte) (offset : Z)
  (uncompressed : bool) (fullpath file_offset : value) : M (option pystr) :=
  if uncompressed then
    mret (Some (rstrip is_nul_char (decode_utf16le_replace buf)))
  else
    let buf := rstrip is_nul_byte buf in
    let range_end := Z.of_nat (length buf) in
    match mapM (getitem buf) (range offset range_end) with
    | Some bs => mret (Some (map chr bs))
    | None =>
        _ ← print (Could_not_decode_string buf file_offset fullpath);
        mret None
    end.

Definition read_cim_encoded_string (buf : list byte) (start end_ : Z)
  (fullpath file_offset : value) : M (option pystr) :=
  (* Record length 2 only happens when you have a flag and null byte,
     no point in processing *)
  if end_ - start =? 2 then mret None
  else if Z.of_nat (length buf) <? start then mret None
  else
    let uncompressed_raw := Py.slice buf start (start + 1) in
    if negb (bool_decide (uncompressed_raw = [x00])
             || bool_decide (uncompressed_raw = [x01])) then
      _ ← print (Unexpected_flag uncompressed_raw file_offset fullpath);
      mret None
    else
      let uncompressed := bool_decide (uncompressed_raw = [x01]) in
      let next_byte := Py.slice buf (start + 1) (start + 2) in
      if bool_decide (next_byte = []) then mret None
      else decode_cim_encoded_string (Py.slice buf (start + 1) end_) 0
             uncompressed fullpath file_offset.

(** ** Dictionaries *)

(** [d.pop(k, None)] on a dict kept as pairs in insertion order. *)
Fixpoint dict_pop (k : string) (d : list (string * Z)) : option Z * list (string * Z) :=
  match d with
  | [] => (None, [])
  | (k', v) :: rest =>
      if String.eqb k k' then (Some v, rest)
      else let '(r, rest') := dict_pop k rest in (r, (k', v) :: rest')
  end.

(** [record.update(pairs)]. *)
Definition record_update (r : pydict) (pairs : list (string * value)) : pydict :=
  foldl (fun r kv => <[kv.1 := kv.2]> r) r pairs.

(** [sorted(offsets.items(), key=lambda kv: kv[1])]: ascending and stable. *)
Fixpoint insert_by_offset (kv : string * Z) (l : list (string * Z)) : list (string * Z) :=
  match l with
  | [] => [kv]
  | kv' :: rest =>
      if kv.2 <=? kv'.2 then kv :: l else kv' :: insert_by_offset kv rest
  end.

Fixpoint sorted_by_offset (l : list (string * Z)) : list (string * Z) :=
  match l with
  | [] => []
  | kv :: rest => insert_by_offset kv (sorted_by_offset rest)
  end.

Definition opt_int (v : option Z) : value :=
  match v with Some n => VInt n | None => VNone end.

Definition opt_str (v : option pystr) : value :=
  match v with Some s => VStr s | None => VNone end.

(** ** Decoding one record *)

(** Returns the offsets ([None] when the table could not be decoded) and the
    record, which the Python function updates in place. *)
Definition get_prop_offsets (record : pydict) (fullpath : value) (hash_start : Z)
  : M (option (list (string * Z)) * pydict) :=
  buf ← read (Z.of_nat (NamedStruct.size RUA_PROPERTY_OFFSETS_VALUES));
  match NamedStruct.parse_as_dict RUA_PROPERTY_OFFSETS_VALUES buf 0 with
  | None =>
      _ ← print (Could_not_decode_offsets hash_start fullpath);
      mret (None, record)
  | Some offsets =>
      (* Grab the value fields *)
      let '(record, offsets) :=
        foldl (fun '(record, offsets) prop_name =>
                 let '(v, offsets) := dict_pop prop_name offsets in
                 (<[prop_name := opt_int v]> record, offsets))
              (record, offsets) RUA_PROPERTY_VALUE_FIELDS in
      mret (Some offsets, record)
  end.

(** [os.path] is [posixpath] or [ntpath], by platform. *)
Inductive os_path : Type := posixpath | ntpath.

Definition BACKSLASH : N := 92.
Definition SLASH : N := 47.
Definition DOT : N := 46.

(** [genericpath._splitext(p, sep, altsep, extsep)]. *)
Definition _splitext (p : pystr) (sep : N) (altsep : option N) (extsep : N)
  : pystr * pystr :=
  let sepIndex := str_rfind p sep in
  let sepIndex :=
    match altsep with
    | Some a => Z.max sepIndex (str_rfind p a)
    | None => sepIndex
    end in
  let dotIndex := str_rfind p extsep in
  if (sepIndex <? dotIndex)
     && existsb (fun c => negb (N.eqb c extsep)) (Py.slice p (sepIndex + 1) dotIndex)
  then (Py.slice p 0 dotIndex, drop (Z.to_nat dotIndex) p)
  else (p, []).

Definition splitext (os : os_path) (p : pystr) : pystr * pystr :=
  match os with
  | posixpath => _splitext p SLASH None DOT
  | ntpath => _splitext p BACKSLASH (Some SLASH) DOT
  end.

Definition is_ascii (c : N) : bool := (c <? 128)%N.

Definition ascii_lower (c : N) : N :=
  if (65 <=? c)%N && (c <=? 90)%N then (c + 32)%N else c.

Section PostProcessing.

(** The platform's [os.path], and [str.lower] on text that is not pure
    ASCII, which follows the Unicode character database. *)
Context (os : os_path) (unicode_lower : pystr -> pystr).

Definition str_lower (s : pystr) : pystr :=
  if forallb is_ascii s then map ascii_lower s else unicode_lower s.

(** [datetime_from_windows_filetime(record[key])].  [process_hit] only
    passes the integers of the header here; [None] and a [datetime] fail
    with a [TypeError], which is caught; for a [str] the failure is
    [decimal.InvalidOperation], which is not. *)
Definition filetime_field (r : pydict) (key : string) : result value :=
  match r !! key with
  | None => Raise (KeyError (KStr key))
  | Some (VInt count) =>
      match datetime_from_windows_filetime count with
      | Ok (Some d) => Ok (VDatetime d)
      | Ok None => Ok VNone
      | Raise e => Raise e
      end
  | Some (VStr _) => Raise InvalidOperation
  | Some _ => Ok VNone
  end.

(** [record.get(key, '') or '']; an object that is neither a [str] nor
    falsy has no [endswith]. *)
Definition get_text (r : pydict) (key : string) : result pystr :=
  match r !! key with
  | None | Some VNone | Some (VInt 0) => Ok []
  | Some (VStr s) => Ok s
  | Some _ => Raise AttributeError
  end.

(** [x or None] for a [str]. *)
Definition or_None (s : pystr) : value :=
  match s with [] => VNone | _ => VStr s end.

Definition parse_fields (record : pydict) : result pydict :=
  match filetime_field record "last_updated" with
  | Raise e => Raise e
  | Ok last_updated =>
  let record := <["last_updated" := last_updated]> record in
  match filetime_field record "last_joined_sccm" with
  | Raise e => Raise e
  | Ok last_joined_sccm =>
  let record := <["last_joined_sccm" := last_joined_sccm]> record in
  match get_text record "folder_path" with
  | Raise e => Raise e
  | Ok folder_path =>
  match get_text record "explorer_filename" with
  | Raise e => Raise e
  | Ok file_name =>
  let record :=
    <["full_path" :=
        or_None (concat [folder_path;
                          if str_endswith folder_path [BACKSLASH] then []
                          else [BACKSLASH];
                          file_name])]> record in
  let record :=
    <["file_extension" :=
        or_None (str_lower (str_remove DOT (splitext os file_name).2))]> record in
  Ok record
  end end end end.

(** The loop over [sorted_offsets]: field [idx] ends where field
    [idx + 1] starts, the last one at [properties_size]. *)
Fixpoint read_fields (properties_data : list byte) (properties_size : Z)
  (fullpath : value) (hash_start : Z)
  (sorted_offsets : list (string * Z)) (record : pydict) : M pydict :=
  match sorted_offsets with
  | [] => mret record
  | (prop_name, field_offset) :: rest =>
      let field_end :=
        match rest with
        | (_, next_offset) :: _ => next_offset
        | [] => properties_size
        end in
      v ← read_cim_encoded_string properties_data field_offset field_end
            fullpath (VInt hash_start);
      read_fields properties_data properties_size fullpath hash_start rest
        (<[prop_name := opt_str v]> record)
  end.

(** A match is the pair of [match.start()] and [match.end()]. *)
Definition process_hit (match_ : nat * nat) (fullpath : value) : M pydict :=
  let hash_start := Z.of_nat match_.1 in
  let hash_end := Z.of_nat match_.2 in
  let match_len := hash_end - hash_start in
  match RECENTLY_USED_APPS_TYPES match_len with
  | None => raise (KeyError (KInt match_len))
  | Some type_name =>
  let record : pydict :=
    <["record_type" := VStr (str_of_string type_name)]>
      (<["offset" := VInt hash_start]>
         (<["input_file_path" := fullpath]> ∅)) in
  _ ← seek match_.2;
  buf ← read (Z.of_nat (NamedStruct.size RUA_RECORD_HEADER));
  match NamedStruct.parse_as_dict RUA_RECORD_HEADER buf 0 with
  | None =>
      _ ← print (Could_not_decode_header hash_start fullpath);
      mret record
  | Some header =>
  let record := record_update record (prod_map id VInt <$> header) in
  match record !! "record_size" with
  | None => raise (KeyError (KStr "record_size"))
  | Some (VInt record_size) =>
  let record := delete "record_size" record in
  _ ← (if RUA_MAX_RECORD_SIZE <? record_size
       then print (Record_size_too_large record_size RUA_MAX_RECORD_SIZE
                     hash_start fullpath)
       else mret tt);
  '(offsets, record) ← get_prop_offsets record fullpath hash_start;
  match offsets with
  | None => mret record
  | Some offsets =>
  match dict_pop "properties_size" offsets with
  | (None, _) => raise (KeyError (KStr "properties_size"))
  | (Some properties_size, offsets) =>
  properties_data ← read (Z.min properties_size RUA_MAX_RECORD_SIZE);
  let sorted_offsets := sorted_by_offset offsets in
  record ← read_fields properties_data properties_size fullpath hash_start
             sorted_offsets record;
  match parse_fields record with
  | Ok record => mret record
  | Raise e => raise e
  end
  end end
  | Some _ => raise TypeError
  end end end.

End PostProcessing.

(** ** The signature scanner *)

(** [s.encode('utf-16le')] for ASCII text: each character, then a zero byte. *)
Definition encode_utf16le (s : string) : list byte :=
  flat_map (fun a => [byte_of_ascii a; x00]) (list_ascii_of_string s).

Definition VISTA_HASH : string :=
  "7C261551B264D35E30A7FA29C75283DAE04BBA71DBE8F5E553F7AD381B406DD8".
Definition XP_HASH : string := "6FA62F462BEF740F820D72D9250D743C".

(** The [pattern] of [parse]: both hashes with a '|' between them, encoded as
    one string. *)
Definition pattern : list byte :=
  encode_utf16le (VISTA_HASH +:+ "|" +:+ XP_HASH).

(** [re] reads a bytes pattern byte by byte.  In [pattern] the one byte that
    is special is '|' (0x7c), the alternation; every other byte, the zero
    bytes included, is a literal.  The alternatives are the byte strings
    between the '|' bytes. *)
Fixpoint regex_alternatives (pat : list byte) : list (list byte) :=
  match pat with
  | [] => [[]]
  | b :: rest =>
      match regex_alternatives rest with
      | [] => [[b]]
      | alt :: alts => if Byte.eqb b x7c then [] :: alt :: alts else (b :: alt) :: alts
      end
  end.

Definition is_prefix (p l : list byte) : bool :=
  bool_decide (take (length p) l = p).

(** The alternative that matches at the head of [data]: the first one in
    pattern order. *)
Definition match_here (alts : list (list byte)) (data : list byte) : option nat :=
  length <$> List.find (fun alt => is_prefix alt data) alts.

(** [re.finditer] for an alternation of non-empty literals: the matches from
    left to right, none overlapping another.  [data] is what remains from
    position [pos]; [skip] counts the bytes still inside the last match. *)
Fixpoint finditer_from (alts : list (list byte)) (pos skip : nat)
  (data : list byte) : list (nat * nat) :=
  match data with
  | [] => []
  | _ :: rest =>
      match skip with
      | S skip' => finditer_from alts (S pos) skip' rest
      | O =>
          match match_here alts data with
          | Some n => (pos, (pos + n)%nat) :: finditer_from alts (S pos) (n - 1) rest
          | None => finditer_from alts (S pos) 0 rest
          end
      end
  end.

Definition finditer (pat data : list byte) : list (nat * nat) :=
  finditer_from (regex_alternatives pat) 0 0 data.

Section Parse.

Context (os : os_path) (unicode_lower : pystr -> pystr).

(** The body of the [for] loop of [parse] over the matches: the records
    yielded, and the exception that ended the generator, if any. *)
Fixpoint process_hits (matches : list (nat * nat)) (fullpath : value)
  (w : world) : list pydict * option exn * world :=
  match matches with
  | [] => ([], None, w)
  | m :: rest =>
      match process_hit os unicode_lower m fullpath w with
      | (Ok record, w') =>
          let '(records, e, w'') := process_hits rest fullpath w' in
          (record :: records, e, w'')
      | (Raise e, w') => ([], Some e, w')
      end
  end.

(** [parse(fileobj, fullpath)], run to exhaustion.  [mmap.mmap] refuses an
    empty file with a [ValueError]. *)
Definition parse (fullpath : value) (w : world)
  : list pydict * option exn * world :=
  let data := content (file w) in
  match data with
  | [] => ([], Some ValueError, w)
  | _ => process_hits (finditer pattern data) fullpath w
  end.

End Parse.

(** A file just opened. *)
Definition open_file (data : list byte) : world :=
  mk_world (mk_fileobj data 0) [].

(** ** A sample capture

    One Vista record laid out as the decoder expects it: signature, header,
    offset table, then the properties blob with the class name and the
    seventeen strings in the order of [RUA_RECORD_STRINGS]. *)

Module Sample.

(** [struct.pack] of one little-endian integer on [n] bytes. *)
Fixpoint le_bytes (n : nat) (v : Z) : list byte :=
  match n with
  | O => []
  | S n' =>
      match Byte.of_N (Z.to_N (v mod 256)) with
      | Some b => b :: le_bytes n' (v / 256)
      | None => []
      end
  end.

Definition ascii_bytes (s : string) : list byte :=
  map byte_of_ascii (list_ascii_of_string s).

(** A compressed Encoded-String: flag 0x00, one byte per character, a zero
    byte. [None] is the empty property: the flag and the terminator. *)
Definition encoded (s : option string) : list byte :=
  match s with
  | Some s => x00 :: ascii_bytes s ++ [x00]
  | None => [x00; x00]
  end.

Definition strings : list (string * option string) :=
  [ ("additional_product_codes", None);
    ("company_name", Some "Adobe Systems Incorporated");
    ("explorer_filename", Some "FlashUtil32_29_0_0_140_Plugin.exe");
    ("file_description", Some "Adobe Flash Player Installer/Uninstaller 29.0 r0");
    ("file_properties_hash", None);
    ("file_version", Some "29,0,0,140");
    ("folder_path", Some "C:\Windows\SysWOW64\Macromed\Flash\");
    ("last_used_time", Some "20180603003600.000000+000");
    ("last_username", Some "ABCDEFGHIJKLMN\geofff");
    ("msi_display_name", None);
    ("msi_publisher", None);
    ("msi_version", None);
    ("original_filename", Some "FlashUtil.exe");
    ("product_code", None);
    ("product_name", Some "Adobe Flash Player Installer/Uninstaller");
    ("product_version", Some "29,0,0,140");
    ("software_properties_hash", None) ].

Definition class_name : list byte := x00 :: ascii_bytes "CCM_RecentlyUsedApps" ++ [x00].

(** Each string with the offset it starts at in the blob. *)
Fixpoint place (at_ : Z) (l : list (string * option string)) : list (string * Z) :=
  match l with
  | [] => []
  | (name, s) :: rest =>
      (name, at_) :: place (at_ + Z.of_nat (length (encoded s))) rest
  end.

Definition offsets : list (string * Z) :=
  place (Z.of_nat (length class_name)) strings.

(** The same offsets in the order of the offset table. *)
Definition offsets_in_table_order : list (string * Z) :=
  omap (fun p => match List.find (fun q => String.eqb q.1 p.1) offsets with
                 | Some q => Some q
                 | None => None
                 end) RUA_PROPERTY_OFFSETS_VALUES.

Definition inline_values : list (string * Z) :=
  [ ("file_size", 1366528); ("launch_count", 64); ("product_language", 1033) ].

Definition blob : list byte :=
  class_name ++ flat_map (fun p => encoded p.2) strings.

Definition lookup_value (name : string) : Z :=
  match List.find (fun p => String.eqb p.1 name) (offsets ++ inline_values) with
  | Some p => p.2
  | None => 0
  end.

Definition table (properties_size : Z) : list byte :=
  flat_map (fun p =>
              match p.2 with
              | Fmt_I => le_bytes 4 (lookup_value p.1)
              | Fmt_h => le_bytes 2 properties_size
              | f => repeat x00 (fmt_size f)
              end) RUA_PROPERTY_OFFSETS_VALUES.

Definition header (last_updated last_joined_sccm record_size : Z) : list byte :=
  le_bytes 8 last_updated ++ le_bytes 8 last_joined_sccm
  ++ le_bytes 4 record_size ++ repeat x00 10.

Definition vista_record : list byte :=
  encode_utf16le VISTA_HASH
  ++ header 131723359061027940 131599838211786410 1024
  ++ table (Z.of_nat (length blob))
  ++ blob.

(** A record of the XP kind as it lies in a file: the byte before the
    signature is zero, the signature is the 64 bytes of [XP_HASH]. *)
Definition xp_record : list byte :=
  x00 :: encode_utf16le XP_HASH
  ++ header 131723359061027940 131599838211786410 1024
  ++ table (Z.of_nat (length blob))
  ++ blob.


End Sample.


(** * Vocabulary of the statements *)

(** ** Timestamps *)

(** The timestamp that lies [us] microseconds after 1601-01-01. *)
Definition datetime_of_microseconds (us : Z) : Datetime.datetime :=
  let secs := us / 1000000 in
  let '(y, m, d) := Datetime.ord2ymd (584389 + secs / 86400) in
  let sod := secs mod 86400 in
  Datetime.mk_datetime y m d
    (sod / 3600) (sod mod 3600 / 60) (sod mod 3600 mod 60) (us mod 1000000).

(** The last microsecond of 9999-12-31, counted from 1601-01-01. *)
Definition MAX_MICROSECONDS : Z := 265046774399999999.

(** ** Encoded-Strings *)

(** The flag byte of a field is acceptable. *)
Definition flag_ok (flag : byte) : bool :=
  bool_decide (flag = x00) || bool_decide (flag = x01).

(** ** File position, printed lines, the offset table *)

(** The bytes not yet read. *)
Definition unread (w : world) : list byte :=
  drop (position (file w)) (content (file w)).

(** The world after [n] more bytes have been read. *)
Definition advance (n : nat) (w : world) : world :=
  mk_world (mk_fileobj (content (file w)) (position (file w) + n)) (stdout w).

(** The world after a line has been printed. *)
Definition printed (d : diag) (w : world) : world :=
  mk_world (file w) (stdout w ++ [d]).

(** The [i]-th 32-bit word of a table, and the 16-bit integer at a byte. *)
Definition u32 (tbl : list byte) (i : nat) : Z :=
  Py.le_uint (take 4 (drop (4 * i) tbl)).
Definition i16 (tbl : list byte) (at_ : nat) : Z :=
  Py.le_int (take 2 (drop at_ tbl)).

(** The seventeen offsets of an 89-byte table, in table order. *)
Definition decoded_offsets (tbl : list byte) : list (string * Z) :=
  [ ("folder_path", u32 tbl 0); ("explorer_filename", u32 tbl 1);
    ("last_username", u32 tbl 2); ("original_filename", u32 tbl 3);
    ("file_version", u32 tbl 4); ("product_name", u32 tbl 6);
    ("product_version", u32 tbl 7); ("company_name", u32 tbl 8);
    ("file_description", u32 tbl 10); ("last_used_time", u32 tbl 12);
    ("product_code", u32 tbl 13); ("additional_product_codes", u32 tbl 14);
    ("msi_display_name", u32 tbl 15); ("msi_publisher", u32 tbl 16);
    ("msi_version", u32 tbl 17); ("software_properties_hash", u32 tbl 18);
    ("file_properties_hash", u32 tbl 19) ].

(** The layout the specification gives for the table: nineteen integers,
    five pad bytes, one pad byte, the size, two pad bytes. *)
Definition offset_table_as_specified : list fmt :=
  repeat Fmt_I 19 ++ [Fmt_x 5; Fmt_x 1; Fmt_h; Fmt_x 2].

(** ** Field ranges *)

(** The byte range the loop of [process_hit] gives to each field: from its
    own offset to the offset of the next field in sorted order, the last one
    to [properties_size]. *)
Fixpoint field_ranges (sorted_offsets : list (string * Z)) (properties_size : Z)
  : list (string * (Z * Z)) :=
  match sorted_offsets with
  | [] => []
  | (prop_name, field_offset) :: rest =>
      (prop_name,
       (field_offset,
        match rest with
        | (_, next_offset) :: _ => next_offset
        | [] => properties_size
        end)) :: field_ranges rest properties_size
  end.

(** Decoding the fields range by range. *)
Fixpoint read_ranges (properties_data : list byte) (fullpath : value)
  (hash_start : Z) (ranges : list (string * (Z * Z))) (record : pydict) : M pydict :=
  match ranges with
  | [] => mret record
  | (prop_name, (field_offset, field_end)) :: rest =>
      v ← read_cim_encoded_string properties_data field_offset field_end
            fullpath (VInt hash_start);
      read_ranges properties_data fullpath hash_start rest
        (<[prop_name := opt_str v]> record)
  end.

Definition offset_le (a b : string * Z) : Prop := a.2 <= b.2.
Definition offset_lt (a b : string * Z) : Prop := a.2 < b.2.

(** Byte [x] lies in the range. *)
Definition in_range (x : Z) (r : string * (Z * Z)) : Prop :=
  r.2.1 <= x < r.2.2.

(** The two ranges share no byte. *)
Definition ranges_disjoint (r r' : string * (Z * Z)) : Prop :=
  forall x, ~ (in_range x r /\ in_range x r').

(** ** Stages of [process_hit] *)

(** The record as [process_hit] first builds it. *)
Definition initial_record (type_name : string) (fullpath : value) (hash_start : Z)
  : pydict :=
  <["record_type" := VStr (str_of_string type_name)]>
    (<["offset" := VInt hash_start]> (<["input_file_path" := fullpath]> ∅)).

(** The record once the header is decoded and [record_size] popped: the two
    tick counts are still the integers of the header. *)
Definition header_record (type_name : string) (hdr : list byte) (fullpath : value)
  (hash_start : Z) : pydict :=
  <["last_joined_sccm" := VInt (Py.le_uint (take 8 (drop 8 hdr)))]>
    (<["last_updated" := VInt (Py.le_uint (take 8 hdr))]>
       (initial_record type_name fullpath hash_start)).

(** [process_hit] from the call of [get_prop_offsets] on. *)
Definition decode_properties (os : os_path) (unicode_lower : pystr -> pystr)
  (record : pydict) (fullpath : value) (hash_start : Z) : M pydict :=
  '(offsets, record) ← get_prop_offsets record fullpath hash_start;
  match offsets with
  | None => mret record
  | Some offsets =>
      match dict_pop "properties_size" offsets with
      | (None, _) => raise (KeyError (KStr "properties_size"))
      | (Some properties_size, offsets) =>
          properties_data ← read (Z.min properties_size RUA_MAX_RECORD_SIZE);
          let sorted_offsets := sorted_by_offset offsets in
          record ← read_fields properties_data properties_size fullpath hash_start
                     sorted_offsets record;
          match parse_fields os unicode_lower record with
          | Ok record => mret record
          | Raise e => raise e
          end
      end
  end.

(** The keys of a record decoded to the end, over those it had when the
    offset table was reached. *)
Definition decoded_keys (before : gset string) : gset string :=
  {["file_extension"]} ∪ ({["full_path"]} ∪ ({["last_joined_sccm"]}
  ∪ ({["last_updated"]}
  ∪ (({["product_language"]} ∪ ({["launch_count"]} ∪ ({["file_size"]} ∪ before)))
     ∪ list_to_set (decoded_offsets []).*1)))).

(** A match whose length names a record type. *)
Definition typed_match (m : nat * nat) : Prop :=
  is_Some (RECENTLY_USED_APPS_TYPES (Z.of_nat m.2 - Z.of_nat m.1)).

(** The [properties_size] of the offset table that follows the header of a
    match. *)
Definition properties_size_at (data : list byte) (m : nat * nat) : Z :=
  i16 (take 89 (drop (m.2 + 30) data)) 85.

(** The blob of the match can be read: when header and offset table are
    there in full, [properties_size] is a length [read] accepts. *)
Definition readable (data : list byte) (m : nat * nat) : Prop :=
  (30 + 89 <= length (drop m.2 data))%nat -> -1 <= properties_size_at data m.

(** ** Writing Encoded-Strings

    The encoder that the decoder inverts, after the format quoted in the
    docstring of [read_cim_encoded_string]: a flag byte, the characters, a
    null terminator. *)

Definition byte_of_N (n : N) : byte :=
  match Byte.of_N n with Some b => b | None => x00 end.

(** Flag 0x00: one byte per character, then a zero byte. *)
Definition encode_compressed (s : pystr) : list byte :=
  x00 :: map byte_of_N s ++ [x00].

(** The UTF-16 code units of a code point. *)
Definition utf16_units (c : N) : list N :=
  if (c <? 65536)%N then [c]
  else [(55296 + (c - 65536) / 1024)%N; (56320 + (c - 65536) mod 1024)%N].

Definition unit_bytes (u : N) : list byte :=
  [byte_of_N (u mod 256); byte_of_N (u / 256)].

Definition encode_utf16le_text (s : pystr) : list byte :=
  flat_map (fun c => flat_map unit_bytes (utf16_units c)) s.

(** Flag 0x01: UTF-16 little-endian, then a zero code unit. *)
Definition encode_uncompressed (s : pystr) : list byte :=
  x01 :: encode_utf16le_text s ++ [x00; x00].

(** A code point that UTF-16 can carry: up to U+10FFFF and not a surrogate. *)
Definition is_scalar (c : N) : bool :=
  (c <? 1114112)%N && negb (is_high_surrogate c) && negb (is_low_surrogate c).

(** Text that the terminator does not cut short: no zero character at its
    end. *)
Definition no_trailing_nul (s : pystr) : Prop := last s <> Some 0%N.

(** ** Writing structs

    [struct.pack] for the same format characters: the layout that
    [unpack_fields] reads. *)

Fixpoint pack (fs : list fmt) (vals : list Z) : list byte :=
  match fs with
  | [] => []
  | Fmt_x n :: fs' => repeat x00 n ++ pack fs' vals
  | f :: fs' =>
      match vals with
      | v :: vals' => Sample.le_bytes (fmt_size f) v ++ pack fs' vals'
      | [] => []
      end
  end.

(** The values a format character can hold. *)
Definition fmt_range (f : fmt) (v : Z) : Prop :=
  match f with
  | Fmt_Q => 0 <= v < 2 ^ 64
  | Fmt_I => 0 <= v < 2 ^ 32
  | Fmt_h => - 2 ^ 15 <= v < 2 ^ 15
  | Fmt_x _ => True
  end.

(** The formats that yield a value. *)
Definition value_formats (fs : list fmt) : list fmt :=
  filter (fun f => negb (fmt_is_pad f)) fs.

(** ** Occurrences of a literal *)

(** The literal [alt] lies in [data] at position [i]. *)
Definition occurs_at (alt data : list byte) (i : nat) : Prop :=
  take (length alt) (drop i data) = alt.

(** ** Records *)

(** What [parse_fields] leaves in place of a 64-bit tick count. *)
Definition filetime_value (count : Z) : value :=
  match datetime_from_windows_filetime count with
  | Ok (Some d) => VDatetime d
  | _ => VNone
  end.

(** The keys [process_hit] writes once the offset table is decoded. *)
Definition written_keys : list string :=
  ["last_updated"; "last_joined_sccm"; "full_path"; "file_extension";
   "file_size"; "launch_count"; "product_language"] ++ (decoded_offsets []).*1.

(** A match of the Vista signature. *)
Definition vista_match (m : nat * nat) : Prop := (m.2 = m.1 + 128)%nat.

(** A match of the XP signature, with the zero byte the pattern puts in
    front of it. *)
Definition xp_match (m : nat * nat) : Prop := (m.2 = m.1 + 65)%nat.

(** The computation ignores what was printed before it and only appends
    to it, and it leaves the bytes of the file as they are. *)
Definition appends_only {A} (c : M A) : Prop :=
  forall f : fileobj,
  exists (r : result A) (f' : fileobj) (more : list diag),
    content f' = content f
    /\ forall out, c (mk_world f out) = (r, mk_world f' (out ++ more)).

(** ** Paths *)

(** The separators [os.path.splitext] looks for. *)
Definition separators (os : os_path) : list N :=
  match os with
  | posixpath => [SLASH]
  | ntpath => [BACKSLASH; SLASH]
  end.

Definition is_upper (c : N) : bool := (65 <=? c)%N && (c <=? 90)%N.

(** ** Calendar dates *)

(** [_days_in_month(year, month)]. *)
Definition days_in_month (y m : Z) : Z :=
  nth (Z.to_nat m) Datetime.DAYS_IN_MONTH 0
  + (if (m =? 2) && Datetime.is_leap y then 1 else 0).

(** The fields are those of a date and a time of day that exist. *)
Definition valid_datetime (d : Datetime.datetime) : bool :=
  (1 <=? Datetime.year d) && (Datetime.year d <=? 9999)
  && (1 <=? Datetime.month d) && (Datetime.month d <=? 12)
  && (1 <=? Datetime.day d)
  && (Datetime.day d <=? days_in_month (Datetime.year d) (Datetime.month d))
  && (0 <=? Datetime.hour d) && (Datetime.hour d <? 24)
  && (0 <=? Datetime.minute d) && (Datetime.minute d <? 60)
  && (0 <=? Datetime.second d) && (Datetime.second d <? 60)
  && (0 <=? Datetime.microsecond d) && (Datetime.microsecond d <? 1000000).

(** [(d - datetime(1601, 1, 1)) // timedelta(microseconds=1)]. *)
Definition microseconds_since_1601 (d : Datetime.datetime) : Z :=
  ((Datetime.toordinal d
    - Datetime.toordinal (Datetime.mk_datetime 1601 1 1 0 0 0 0)) * 86400
   + Datetime.hour d * 3600 + Datetime.minute d * 60 + Datetime.second d) * 1000000
  + Datetime.microsecond d.

(** The end of [_ord2ymd]: month and day from the day of the year, counted
    from zero. *)
Definition month_day (n : Z) (leapyear : bool) : Z * Z :=
  let month := Z.shiftr (n + 50) 5 in
  let preceding :=
    nth (Z.to_nat month) Datetime.DAYS_BEFORE_MONTH 0
    + (if (2 <? month) && leapyear then 1 else 0) in
  if n <? preceding then
    let month := month - 1 in
    let preceding :=
      preceding - (nth (Z.to_nat month) Datetime.DAYS_IN_MONTH 0
                   + (if (month =? 2) && leapyear then 1 else 0)) in
    (month, n - preceding + 1)
  else (month, n - preceding + 1).

(** [month_day] is right for day [n] of a year. *)
Definition month_day_ok (leapyear : bool) (n : Z) : bool :=
  let '(m, d) := month_day n leapyear in
  (1 <=? m) && (m <=? 12) && (1 <=? d)
  && (d <=? nth (Z.to_nat m) Datetime.DAYS_IN_MONTH 0
            + (if (m =? 2) && leapyear then 1 else 0))
  && (nth (Z.to_nat m) Datetime.DAYS_BEFORE_MONTH 0
      + (if (2 <? m) && leapyear then 1 else 0) + d =? n + 1).

(** The first tick count past 9999-12-31 23:59:59.999999. *)
Definition FIRST_TICKS_OUT_OF_RANGE : Z := 2650467743999999995.

(** ** Writing records

    A record as the decoder expects it after the signature: the header, the
    offset table, and the properties blob with the class name and the
    strings one after the other. *)

(** An Encoded-String as the format asks for it: compressed when every
    character is below 256. *)
Definition encode_text (s : pystr) : list byte :=
  if forallb (fun c => (c <? 256)%N) s then encode_compressed s
  else encode_uncompressed s.

(** Text that an Encoded-String carries unharmed. *)
Definition text_ok (s : pystr) : Prop :=
  Forall (fun c => is_scalar c = true) s /\ no_trailing_nul s.

(** Where each string starts when they are laid one after the other from
    [at_] on. *)
Fixpoint place_texts (at_ : Z) (items : list (string * pystr)) : list (string * Z) :=
  match items with
  | [] => []
  | (name, s) :: rest =>
      (name, at_) :: place_texts (at_ + Z.of_nat (length (encode_text s))) rest
  end.

Definition encode_texts (items : list (string * pystr)) : list byte :=
  flat_map (fun item => encode_text item.2) items.

Definition encode_blob (items : list (string * pystr)) : list byte :=
  Sample.class_name ++ encode_texts items.

Definition offset_of (placed : list (string * Z)) (name : string) : Z :=
  match List.find (fun p => String.eqb p.1 name) placed with
  | Some p => p.2
  | None => 0
  end.

(** The values of the offset table, in the order of
    [RUA_PROPERTY_OFFSETS_VALUES]. *)
Definition table_values (off : string -> Z)
  (file_size launch_count product_language properties_size : Z) : list Z :=
  [ off "folder_path"; off "explorer_filename"; off "last_username";
    off "original_filename"; off "file_version"; file_size;
    off "product_name"; off "product_version"; off "company_name";
    product_language; off "file_description"; launch_count;
    off "last_used_time"; off "product_code"; off "additional_product_codes";
    off "msi_display_name"; off "msi_publisher"; off "msi_version";
    off "software_properties_hash"; off "file_properties_hash";
    properties_size ].

Definition encode_table (items : list (string * pystr))
  (file_size launch_count product_language : Z) : list byte :=
  pack (NamedStruct.formats RUA_PROPERTY_OFFSETS_VALUES)
    (table_values
       (offset_of (place_texts (Z.of_nat (length Sample.class_name)) items))
       file_size launch_count product_language
       (Z.of_nat (length (encode_blob items)))).

Definition encode_header (last_updated last_joined_sccm record_size : Z) : list byte :=
  pack (NamedStruct.formats RUA_RECORD_HEADER)
    [last_updated; last_joined_sccm; record_size].

Definition encode_record (last_updated last_joined_sccm record_size : Z)
  (file_size launch_count product_language : Z) (items : list (string * pystr))
  : list byte :=
  encode_header last_updated last_joined_sccm record_size
  ++ encode_table items file_size launch_count product_language
  ++ encode_blob items.

(** * Properties *)

(** ** Timestamps *)

Section Timestamps.

Lemma quantize_half_even_tenth (count : Z) :
  let us := quantize_half_even (count * 1000000) 10000000 in
  Z.abs (10 * us - count) <= 5
  /\ (Z.abs (10 * us - count) = 5 -> Z.even us = true).
Proof.
  cbv zeta. unfold quantize_half_even.
  pose proof (Z.div_mod (count * 1000000) 10000000 ltac:(lia)) as Hdm.
  pose proof (Z.mod_pos_bound (count * 1000000) 10000000 ltac:(lia)) as Hr.
  set (q := count * 1000000 / 10000000) in *.
  set (r := (count * 1000000) mod 10000000) in *.
  destruct (Z.ltb_spec (2 * r) 10000000).
  - split; [lia | intros; exfalso; lia].
  - destruct (Z.ltb_spec 10000000 (2 * r)).
    + split; [lia | intros; exfalso; lia].
    + destruct (Z.even q) eqn:Hq.
      * split; [lia | auto].
      * split; [lia | intros _].
        rewrite Z.even_add, Hq. reflexivity.
Qed.

Lemma parse_timestamp_closed_form (count : Z) :
  0 <= count < 2 ^ 64 ->
  let us := quantize_half_even (count * 1000000) 10000000 in
  parse_windows_timestamp count =
    if MAX_MICROSECONDS <? us then Raise OverflowError
    else Ok (datetime_of_microseconds us).
Proof.
  intros Hc us.
  pose proof (quantize_half_even_tenth count) as [Hus _]. fold us in Hus.
  assert (0 <= us < 2 ^ 61) as Hrange by lia.
  unfold parse_windows_timestamp, parse_timestamp. fold us.
  unfold Datetime.make_timedelta at 1.
  rewrite !Z.add_0_l.
  pose proof (Z.mod_pos_bound us 1000000 ltac:(lia)) as Hm1.
  pose proof (Z.mod_pos_bound (us / 1000000) 86400 ltac:(lia)) as Hm2.
  assert (0 <= us / 1000000 / 86400 <= 30000000) as Hd.
  { split; [apply Z.div_pos; [apply Z.div_pos|]; lia |].
    apply Z.lt_succ_r. apply Z.div_lt_upper_bound; [lia|].
    apply Z.div_lt_upper_bound; lia. }
  destruct (Z.ltb_spec 999999999 (Z.abs (us / 1000000 / 86400))); [lia|].
  unfold Datetime.add.
  change (Datetime.make_timedelta _ _ _)
    with (Ok (Datetime.mk_timedelta 584389 0 0)) at 1.
  cbn [Datetime.days Datetime.seconds Datetime.microseconds].
  unfold Datetime.make_timedelta.
  rewrite !Z.add_0_l.
  rewrite (Z.div_small (us mod 1000000) 1000000) by lia.
  rewrite (Z.mod_small (us mod 1000000) 1000000) by lia.
  rewrite !Z.add_0_r.
  rewrite (Z.div_small (us / 1000000 mod 86400) 86400) by lia.
  rewrite (Z.mod_small (us / 1000000 mod 86400) 86400) by lia.
  rewrite !Z.add_0_r.
  destruct (Z.ltb_spec 999999999 (Z.abs (584389 + us / 1000000 / 86400))); [lia|].
  cbn [Datetime.days Datetime.seconds Datetime.microseconds].
  unfold datetime_of_microseconds, MAX_MICROSECONDS, Datetime.MAXORDINAL.
  assert (us / 1000000 / 86400 <= 3067670 <-> us <= 265046774399999999) as Hmax.
  { rewrite Z.div_div by lia. change (1000000 * 86400) with 86400000000.
    split; intros Hle.
    - pose proof (Z.div_mod us 86400000000 ltac:(lia)).
      pose proof (Z.mod_pos_bound us 86400000000 ltac:(lia)). lia.
    - apply Z.lt_succ_r. apply Z.div_lt_upper_bound; lia. }
  destruct (Z.ltb_spec 265046774399999999 us).
  - destruct (Z.leb_spec (584389 + us / 1000000 / 86400) 3652059); [lia|].
    rewrite andb_false_r. reflexivity.
  - destruct (Z.leb_spec (584389 + us / 1000000 / 86400) 3652059); [|lia].
    destruct (Z.ltb_spec 0 (584389 + us / 1000000 / 86400)); [|lia].
    cbn [andb].
    destruct (Datetime.ord2ymd _) as [[y m] d]. reflexivity.
Qed.

Lemma datetime_from_windows_filetime_total (count : Z) :
  0 <= count < 2 ^ 64 ->
  exists r, datetime_from_windows_filetime count = Ok r.
Proof.
  intros Hc. unfold datetime_from_windows_filetime.
  destruct (count =? 0); [eauto|].
  rewrite parse_timestamp_closed_form by assumption. cbv zeta.
  destruct (_ <? _); eauto.
Qed.

(** The first and the last timestamp the conversion can give. *)
Lemma datetime_of_microseconds_bounds :
  datetime_of_microseconds 0 = Datetime.mk_datetime 1601 1 1 0 0 0 0
  /\ datetime_of_microseconds MAX_MICROSECONDS
     = Datetime.mk_datetime 9999 12 31 23 59 59 999999.
Proof. split; vm_compute; reflexivity. Qed.

End Timestamps.

(** C5: a tick count of 0, or one whose timestamp would fall after
    9999-12-31 23:59:59.999999, decodes to [None]; every other 64-bit tick
    count decodes to the timestamp [us] microseconds after 1601-01-01, where
    [us] is the tick count over ten rounded to the nearest integer, ties to
    the even one.  No exception leaves the function. *)
Theorem C5_filetime_decoding (count : Z) :
  0 <= count < 2 ^ 64 ->
  exists us : Z,
    Z.abs (10 * us - count) <= 5
    /\ (Z.abs (10 * us - count) = 5 -> Z.even us = true)
    /\ datetime_from_windows_filetime count =
         Ok (if (count =? 0) || (MAX_MICROSECONDS <? us) then None
             else Some (datetime_of_microseconds us)).
Proof.
  intros Hc.
  exists (quantize_half_even (count * 1000000) 10000000).
  pose proof (quantize_half_even_tenth count) as [H1 H2].
  split; [exact H1 | split; [exact H2 |]].
  unfold datetime_from_windows_filetime.
  destruct (count =? 0); [reflexivity|].
  rewrite parse_timestamp_closed_form by assumption. cbv zeta.
  destruct (_ <? _); reflexivity.
Qed.

Lemma C5_filetime_decoding_witness :
  exists us : Z,
    Z.abs (10 * us - 131599838211786415) <= 5
    /\ (Z.abs (10 * us - 131599838211786415) = 5 -> Z.even us = true)
    /\ datetime_from_windows_filetime 131599838211786415 =
         Ok (Some (Datetime.mk_datetime 2018 1 9 15 3 41 178642)).
Proof.
  destruct (C5_filetime_decoding 131599838211786415 ltac:(lia)) as (us & H1 & H2 & H3).
  exists us. split; [exact H1 | split; [exact H2 |]].
  vm_compute. reflexivity.
Defined.

(** ** Encoded-Strings *)

Section EncodedStrings.

Lemma slice_one {A} (l : list A) (i : Z) :
  0 <= i ->
  Py.slice l i (i + 1) =
    match l !! Z.to_nat i with Some x => [x] | None => [] end.
Proof.
  intros Hi. unfold Py.slice, Py.slice_index.
  destruct (Z.ltb_spec i 0); [lia|].
  destruct (Z.ltb_spec (i + 1) 0); [lia|].
  destruct (l !! Z.to_nat i) as [x|] eqn:Hx.
  - pose proof (lookup_lt_Some _ _ _ Hx) as Hlt.
    rewrite !Z.min_l by lia.
    replace (Z.to_nat (i + 1 - i)) with 1%nat by lia.
    rewrite (drop_S _ _ _ Hx). reflexivity.
  - apply lookup_ge_None in Hx.
    rewrite !Z.min_r by lia. rewrite Z.sub_diag. reflexivity.
Qed.

Lemma slice_backwards {A} (l : list A) (a b : Z) :
  0 <= a -> 0 <= b -> b <= a -> Py.slice l a b = [].
Proof.
  intros Ha Hb Hba. unfold Py.slice, Py.slice_index.
  destruct (Z.ltb_spec a 0); [lia|].
  destruct (Z.ltb_spec b 0); [lia|].
  replace (Z.to_nat _) with 0%nat by lia. reflexivity.
Qed.

Lemma decode_cim_encoded_string_empty uncompressed fullpath file_offset w :
  decode_cim_encoded_string [] 0 uncompressed fullpath file_offset w
  = (Ok (Some []), w).
Proof. destruct uncompressed; reflexivity. Qed.

Lemma flag_test (flag : byte) :
  bool_decide ([flag] = [x00]) || bool_decide ([flag] = [x01]) = flag_ok flag.
Proof.
  unfold flag_ok. f_equal; apply bool_decide_ext; split; congruence.
Qed.

End EncodedStrings.

(** C3 (as amended): a field whose range is exactly two bytes long, or starts
    at or after the end of the blob, decodes to [None].  A shorter range
    whose end is not negative decodes to [None] only when its flag byte is
    not 0x00 or 0x01, or when no byte follows the flag in the blob; otherwise
    it decodes to the empty string. *)
Theorem C3_short_ranges (buf : list byte) (start end_ : Z)
  (fullpath file_offset : value) (w : world) :
  0 <= start ->
  (end_ - start = 2 \/ Z.of_nat (length buf) <= start ->
   (read_cim_encoded_string buf start end_ fullpath file_offset w).1 = Ok None)
  /\ (0 <= end_ -> end_ - start < 2 ->
      (read_cim_encoded_string buf start end_ fullpath file_offset w).1 =
        Ok (match buf !! Z.to_nat start, buf !! Z.to_nat (start + 1) with
            | Some flag, Some _ => if flag_ok flag then Some [] else None
            | _, _ => None
            end)).
Proof.
  intros Hs. unfold read_cim_encoded_string. split.
  - intros [H2 | Hlen].
    + rewrite (proj2 (Z.eqb_eq _ _) H2). reflexivity.
    + destruct (Z.eqb_spec (end_ - start) 2); [reflexivity|].
      destruct (Z.ltb_spec (Z.of_nat (length buf)) start); [reflexivity|].
      rewrite slice_one by assumption.
      rewrite (proj2 (lookup_ge_None buf (Z.to_nat start))) by lia.
      reflexivity.
  - intros He Hlt.
    destruct (Z.eqb_spec (end_ - start) 2); [lia|].
    destruct (Z.ltb_spec (Z.of_nat (length buf)) start) as [Hbeyond|Hin].
    + rewrite (proj2 (lookup_ge_None buf (Z.to_nat start))) by lia. reflexivity.
    + rewrite slice_one by assumption.
      destruct (buf !! Z.to_nat start) as [flag|]; [|reflexivity].
      rewrite flag_test.
      destruct (flag_ok flag); cbn [negb]; [|destruct (buf !! _); reflexivity].
      replace (start + 2) with (start + 1 + 1) by lia.
      rewrite slice_one by lia.
      destruct (buf !! Z.to_nat (start + 1)); [|reflexivity].
      rewrite bool_decide_eq_false_2 by discriminate.
      rewrite slice_backwards by lia.
      rewrite decode_cim_encoded_string_empty. reflexivity.
Qed.

Lemma C3_short_ranges_witness :
  (read_cim_encoded_string [x00; x41; x00] 0 2 VNone VNone (open_file [])).1 = Ok None
  /\ (read_cim_encoded_string [x00; x41; x00] 0 1 VNone VNone (open_file [])).1
     = Ok (Some []).
Proof.
  split.
  - apply (C3_short_ranges [x00; x41; x00] 0 2 VNone VNone (open_file []));
      [lia | left; reflexivity].
  - apply (C3_short_ranges [x00; x41; x00] 0 1 VNone VNone (open_file []));
      [lia | lia | lia].
Defined.

(** C3 as stated fails: the range [0, 1) of the blob 00 41 00 is shorter
    than two bytes, and the field decodes to the empty string, not [None]. *)
Lemma C3_counterexample :
  let buf := [x00; x41; x00] in
  let start := 0 in
  let end_ := 1 in
  end_ - start < 2
  /\ (read_cim_encoded_string buf start end_ VNone VNone (open_file [])).1
     <> Ok None.
Proof. cbv zeta. split; [lia | vm_compute; discriminate]. Qed.

(** C4 (as amended): a field whose flag byte is neither 0x00 nor 0x01 decodes
    to [None] and raises nothing; the diagnostic with the flag value, the
    record's offset and the file is printed unless the range is exactly two
    bytes long, in which case nothing is printed. *)
Theorem C4_unexpected_flag (buf : list byte) (start end_ : Z) (flag : byte)
  (fullpath file_offset : value) (w : world) :
  0 <= start ->
  buf !! Z.to_nat start = Some flag ->
  flag <> x00 -> flag <> x01 ->
  read_cim_encoded_string buf start end_ fullpath file_offset w =
    (Ok None,
     if end_ - start =? 2 then w
     else mk_world (file w)
            (stdout w ++ [Unexpected_flag [flag] file_offset fullpath])).
Proof.
  intros Hs Hflag H0 H1. unfold read_cim_encoded_string.
  destruct (Z.eqb_spec (end_ - start) 2); [reflexivity|].
  pose proof (lookup_lt_Some _ _ _ Hflag) as Hlt.
  destruct (Z.ltb_spec (Z.of_nat (length buf)) start); [lia|].
  rewrite slice_one, Hflag by assumption.
  rewrite flag_test. unfold flag_ok.
  rewrite !bool_decide_eq_false_2 by assumption.
  reflexivity.
Qed.

Lemma C4_unexpected_flag_witness :
  read_cim_encoded_string [x05; x41; x42; x00] 0 4
    (VStr (str_of_string "OBJECTS.DATA")) (VInt 7) (open_file [])
  = (Ok None,
     mk_world (mk_fileobj [] 0)
       [Unexpected_flag [x05] (VInt 7) (VStr (str_of_string "OBJECTS.DATA"))]).
Proof.
  apply (C4_unexpected_flag [x05; x41; x42; x00] 0 4 x05
           (VStr (str_of_string "OBJECTS.DATA")) (VInt 7) (open_file []));
    [lia | reflexivity | discriminate | discriminate].
Defined.

(** C4 as stated fails: the two-byte range 05 00 has a flag byte that is
    neither 0x00 nor 0x01, and it decodes to [None] with nothing printed. *)
Lemma C4_counterexample :
  let buf := [x05; x00] in
  buf !! 0%nat = Some x05
  /\ read_cim_encoded_string buf 0 2 VNone (VInt 0) (open_file [])
     = (Ok None, open_file [])
  /\ stdout (read_cim_encoded_string buf 0 2 VNone (VInt 0) (open_file [])).2 = [].
Proof. cbv zeta. repeat split. Qed.

(** ** The offset table *)

(** Decides the comparisons of literal keys in the goal. *)
Ltac eval_string_eqb :=
  repeat match goal with
         | |- context [String.eqb ?a ?b] =>
             let r := eval vm_compute in (String.eqb a b) in
             change (String.eqb a b) with r
         end.

Section OffsetTable.

Lemma byte_val_range (b : byte) : 0 <= Py.byte_val b < 256.
Proof.
  unfold Py.byte_val. pose proof (Byte.to_N_bounded b). lia.
Qed.

Lemma le_uint_range (bs : list byte) :
  0 <= Py.le_uint bs < 256 ^ Z.of_nat (length bs).
Proof.
  induction bs as [|b bs IH]; [cbn; lia|].
  cbn [Py.le_uint length]. rewrite Nat2Z.inj_succ, Z.pow_succ_r by lia.
  pose proof (byte_val_range b). lia.
Qed.

Lemma le_int_range (bs : list byte) :
  bs <> [] ->
  - (256 ^ Z.of_nat (length bs)) <= 2 * Py.le_int bs < 256 ^ Z.of_nat (length bs).
Proof.
  intros Hne. unfold Py.le_int. pose proof (le_uint_range bs) as Hu.
  destruct (Z.ltb_spec (2 * Py.le_uint bs) (256 ^ Z.of_nat (length bs))); lia.
Qed.

Lemma slice_prefix {A} (l : list A) (n : nat) :
  Py.slice l 0 (Z.of_nat n + 0) = take n l.
Proof.
  unfold Py.slice, Py.slice_index. rewrite Z.add_0_r.
  destruct (Z.ltb_spec (Z.of_nat n) 0); [lia|].
  cbn [Z.ltb Z.compare]. rewrite (Z.min_l 0) by lia. cbn [Z.to_nat drop].
  rewrite Z.sub_0_r.
  destruct (Nat.le_gt_cases n (length l)).
  - rewrite Z.min_l by lia. rewrite Nat2Z.id. reflexivity.
  - rewrite Z.min_r by lia. rewrite Nat2Z.id.
    rewrite (take_ge l n) by lia. apply take_ge. lia.
Qed.

Lemma read_spec (n : nat) (w : world) :
  read (Z.of_nat n) w =
    (Ok (take n (unread w)), advance (length (take n (unread w))) w).
Proof.
  unfold read, unread, advance.
  destruct (Z.ltb_spec (Z.of_nat n) (-1)); [lia|].
  destruct (Z.ltb_spec (Z.of_nat n) 0); [lia|].
  rewrite Nat2Z.id. reflexivity.
Qed.

Lemma parse_as_dict_short (ns : NamedStruct.t) (buf : list byte) :
  (length buf < NamedStruct.size ns)%nat ->
  NamedStruct.parse_as_dict ns buf 0 = None.
Proof.
  intros Hlt. unfold NamedStruct.parse_as_dict, NamedStruct.parse.
  rewrite slice_prefix. unfold unpack.
  rewrite take_ge by lia. fold (NamedStruct.size ns).
  destruct (Nat.eqb_spec (length buf) (NamedStruct.size ns)); [lia | reflexivity].
Qed.

(** The offsets kept are those of the properties named in
    [RUA_RECORD_STRINGS]. *)
Lemma decoded_offsets_names (tbl : list byte) :
  list_to_set (decoded_offsets tbl).*1 =@{gset string} list_to_set RUA_RECORD_STRINGS.
Proof.
  match goal with
  | |- ?A = ?B => apply (bool_decide_eq_true_1 (A = B))
  end.
  vm_compute. reflexivity.
Qed.

Lemma get_prop_offsets_truncated record fullpath hash_start w :
  (length (unread w) < 89)%nat ->
  get_prop_offsets record fullpath hash_start w =
    (Ok (None, record),
     printed (Could_not_decode_offsets hash_start fullpath)
       (advance (length (unread w)) w)).
Proof.
  intros Hlt. unfold get_prop_offsets.
  change (NamedStruct.size RUA_PROPERTY_OFFSETS_VALUES) with 89%nat.
  unfold mbind, M_bind. rewrite read_spec.
  rewrite take_ge by lia.
  rewrite parse_as_dict_short; [reflexivity|].
  change (NamedStruct.size RUA_PROPERTY_OFFSETS_VALUES) with 89%nat. lia.
Qed.

Lemma get_prop_offsets_full record fullpath hash_start w :
  (89 <= length (unread w))%nat ->
  let tbl := take 89 (unread w) in
  get_prop_offsets record fullpath hash_start w =
    (Ok (Some (decoded_offsets tbl ++ [("properties_size", i16 tbl 85)]),
         <["product_language" := VInt (u32 tbl 9)]>
           (<["launch_count" := VInt (u32 tbl 11)]>
              (<["file_size" := VInt (u32 tbl 5)]> record))),
     advance 89 w).
Proof.
  intros Hle tbl. unfold get_prop_offsets.
  change (NamedStruct.size RUA_PROPERTY_OFFSETS_VALUES) with 89%nat.
  unfold mbind, M_bind. rewrite read_spec. fold tbl.
  assert (length tbl = 89%nat) as Hlen
    by (unfold tbl; rewrite length_take; lia).
  rewrite Hlen.
  unfold NamedStruct.parse_as_dict, NamedStruct.parse.
  change (NamedStruct.size RUA_PROPERTY_OFFSETS_VALUES) with 89%nat.
  rewrite slice_prefix, take_ge by lia.
  unfold unpack. rewrite Hlen.
  change (calcsize (NamedStruct.formats RUA_PROPERTY_OFFSETS_VALUES)) with 89%nat.
  cbn [Nat.eqb].
  let x := eval vm_compute in (NamedStruct.field_names RUA_PROPERTY_OFFSETS_VALUES) in
    change (NamedStruct.field_names RUA_PROPERTY_OFFSETS_VALUES) with x.
  unfold RUA_PROPERTY_OFFSETS_VALUES, NamedStruct.formats.
  cbn [map snd unpack_fields fmt_size combine].
  rewrite !drop_drop.
  unfold RUA_PROPERTY_VALUE_FIELDS.
  repeat (progress (cbn [foldl dict_pop]; eval_string_eqb; cbv beta iota zeta)).
  reflexivity.
Qed.

End OffsetTable.

(** C1 (as amended): the offset table is twenty 4-byte little-endian
    unsigned integers, then four pad bytes, one pad byte, the signed 2-byte
    [properties_size] and two pad bytes: 89 bytes in all.  Seventeen of the
    integers are offsets into the blob; [file_size], [launch_count] and
    [product_language] go straight into the record and leave the offsets. *)
Theorem C1_offset_table (record : pydict) (fullpath : value) (hash_start : Z)
  (w : world) :
  (89 <= length (unread w))%nat ->
  let tbl := take 89 (unread w) in
  NamedStruct.formats RUA_PROPERTY_OFFSETS_VALUES
    = repeat Fmt_I 20 ++ [Fmt_x 4; Fmt_x 1; Fmt_h; Fmt_x 2]
  /\ get_prop_offsets record fullpath hash_start w =
       (Ok (Some (decoded_offsets tbl ++ [("properties_size", i16 tbl (20 * 4 + 4 + 1))]),
            <["product_language" := VInt (u32 tbl 9)]>
              (<["launch_count" := VInt (u32 tbl 11)]>
                 (<["file_size" := VInt (u32 tbl 5)]> record))),
        advance (20 * 4 + 4 + 1 + 2 + 2) w)
  /\ length (decoded_offsets tbl) = 17%nat.
Proof.
  intros Hle tbl. split; [reflexivity | split; [| reflexivity]].
  apply get_prop_offsets_full. exact Hle.
Qed.

Lemma C1_offset_table_witness :
  let w := open_file (Sample.table 317 ++ Sample.blob) in
  exists offsets record,
    get_prop_offsets ∅ VNone 0 w = (Ok (Some offsets, record), advance 89 w)
    /\ length offsets = 18%nat.
Proof.
  intros w.
  assert (89 <= length (unread w))%nat as Hle by (vm_compute; lia).
  destruct (C1_offset_table ∅ VNone 0 w Hle) as (_ & Heq & _).
  eexists _, _. split; [exact Heq | reflexivity].
Defined.

(** C1 as stated fails on a well-formed table: the decoder takes 89 bytes,
    not the 86 of nineteen integers and the stated padding; it keeps
    seventeen offsets, not sixteen; and it finds [properties_size] at byte
    85, where the stated layout would read the pad bytes at 82. *)
Lemma C1_counterexample :
  let w := open_file (Sample.table 317 ++ Sample.blob) in
  exists offsets record w',
    get_prop_offsets ∅ VNone 0 w = (Ok (Some offsets, record), w')
    /\ position (file w') = 89%nat
    /\ calcsize offset_table_as_specified = 86%nat
    /\ length (dict_pop "properties_size" offsets).2 = 17%nat
    /\ (dict_pop "properties_size" offsets).1 = Some 317
    /\ last (unpack_fields offset_table_as_specified (take 86 (unread w))) = Some 0.
Proof.
  intros w.
  assert (89 <= length (unread w))%nat as Hle by (vm_compute; lia).
  eexists _, _, _.
  split; [exact (get_prop_offsets_full ∅ VNone 0 w Hle) |].
  vm_compute. repeat split.
Qed.

(** ** Field ranges *)

Section FieldRanges.

Lemma read_fields_by_ranges properties_data properties_size fullpath hash_start
  sorted_offsets record w :
  read_fields properties_data properties_size fullpath hash_start sorted_offsets record w
  = read_ranges properties_data fullpath hash_start
      (field_ranges sorted_offsets properties_size) record w.
Proof.
  revert record w.
  induction sorted_offsets as [|[name off] rest IH]; intros record w; [reflexivity|].
  cbn [read_fields field_ranges read_ranges].
  unfold mbind, M_bind.
  destruct (read_cim_encoded_string _ _ _ _ _ w) as [[v|e] w']; [|reflexivity].
  rewrite IH. reflexivity.
Qed.

Lemma insert_by_offset_perm kv l : Permutation (insert_by_offset kv l) (kv :: l).
Proof.
  induction l as [|kv' l IH]; [reflexivity|].
  cbn [insert_by_offset]. destruct (_ <=? _); [reflexivity|].
  rewrite IH. apply perm_swap.
Qed.

Lemma sorted_by_offset_perm l : Permutation (sorted_by_offset l) l.
Proof.
  induction l as [|kv l IH]; [reflexivity|].
  cbn [sorted_by_offset]. rewrite insert_by_offset_perm. rewrite IH. reflexivity.
Qed.

Lemma insert_by_offset_sorted kv l :
  StronglySorted offset_le l -> StronglySorted offset_le (insert_by_offset kv l).
Proof.
  induction 1 as [|kv' l Hs IH Hall]; [repeat constructor|].
  cbn [insert_by_offset]. destruct (Z.leb_spec kv.2 kv'.2) as [Hle|Hgt].
  - constructor; [constructor; assumption|].
    constructor; [exact Hle|].
    eapply Forall_impl; [exact Hall|].
    unfold offset_le. intros; cbn beta in *. lia.
  - constructor; [exact IH|].
    rewrite insert_by_offset_perm. constructor; [unfold offset_le; lia | exact Hall].
Qed.

Lemma sorted_by_offset_sorted l : StronglySorted offset_le (sorted_by_offset l).
Proof.
  induction l as [|kv l IH]; [constructor|].
  cbn [sorted_by_offset]. apply insert_by_offset_sorted. exact IH.
Qed.

Lemma field_ranges_starts so ps :
  map (fun r => (r.1, r.2.1)) (field_ranges so ps) = so.
Proof.
  induction so as [|[name off] rest IH]; [reflexivity|].
  cbn [field_ranges map fst snd]. rewrite IH. reflexivity.
Qed.

Lemma field_ranges_chain so ps i r r' :
  StronglySorted offset_le so ->
  field_ranges so ps !! i = Some r ->
  field_ranges so ps !! S i = Some r' ->
  r.2.1 <= r.2.2 /\ r.2.2 = r'.2.1.
Proof.
  intros Hs. revert i. induction Hs as [|[name off] rest Hs IH Hall]; intros i Hi Hi'.
  - discriminate.
  - destruct i as [|i].
    + cbn [field_ranges] in Hi, Hi'. injection Hi as <-.
      destruct rest as [|[name' off'] rest]; [discriminate|].
      cbn [field_ranges] in Hi'. injection Hi' as <-. cbn [fst snd].
      apply Forall_inv in Hall. unfold offset_le in Hall. cbn [snd] in *. lia.
    + cbn [field_ranges] in Hi, Hi'. exact (IH i Hi Hi').
Qed.

Lemma field_ranges_last so ps r :
  last (field_ranges so ps) = Some r -> r.2.2 = ps.
Proof.
  induction so as [|[name off] rest IH]; [discriminate|].
  cbn [field_ranges]. destruct rest as [|[name' off'] rest].
  - cbn. intros [= <-]. reflexivity.
  - intros Hl. apply IH. exact Hl.
Qed.

Lemma field_ranges_above so ps :
  StronglySorted offset_le so ->
  forall kv r, Forall (offset_le kv) so -> r ∈ field_ranges so ps -> kv.2 <= r.2.1.
Proof.
  intros _ kv r Hall Hin.
  apply (list_elem_of_fmap_2 (fun r => (r.1, r.2.1))) in Hin.
  rewrite field_ranges_starts in Hin.
  rewrite Forall_forall in Hall.
  exact (Hall _ Hin).
Qed.

Lemma field_ranges_disjoint so ps :
  StronglySorted offset_le so ->
  ForallOrdPairs ranges_disjoint (field_ranges so ps).
Proof.
  induction 1 as [|[name off] rest Hs IH Hall]; [constructor|].
  cbn [field_ranges]. constructor; [|exact IH].
  rewrite Forall_forall. intros r Hin x [Hx Hx'].
  unfold in_range in *. cbn [fst snd] in Hx.
  destruct rest as [|[name' off'] rest]; [inversion Hin|].
  pose proof (field_ranges_above _ ps Hs (name', off') r) as Habove.
  cbn [snd] in Habove.
  assert (off' <= r.2.1) as Hle.
  { apply Habove; [|exact Hin].
    constructor; [unfold offset_le; lia|].
    inversion Hs; assumption. }
  lia.
Qed.

Lemma field_ranges_cover so ps first x :
  head so = Some first ->
  first.2 <= x < ps ->
  exists r, r ∈ field_ranges so ps /\ in_range x r.
Proof.
  revert first. induction so as [|[name off] rest IH]; intros first Hhd Hx; [discriminate|].
  injection Hhd as <-. cbn [snd] in Hx. cbn [field_ranges].
  destruct rest as [|[name' off'] rest].
  - eexists. split; [apply list_elem_of_here|]. unfold in_range. cbn. lia.
  - destruct (Z.lt_ge_cases x off') as [Hlt|Hge].
    + eexists. split; [apply list_elem_of_here|]. unfold in_range. cbn. lia.
    + destruct (IH (name', off') eq_refl ltac:(cbn; lia)) as (r & Hin & Hr).
      exists r. split; [apply list_elem_of_further; exact Hin | exact Hr].
Qed.

End FieldRanges.

(** C6 (as amended): for every record whose offset table is decoded, the
    seventeen string-field offsets, sorted, never decrease (equal offsets are
    possible); each field's range starts at its own offset and ends where the
    next one starts, the last one ending at [properties_size]; no two ranges
    share a byte, and together they reach every byte from the lowest offset
    up to [properties_size].  These are the ranges the decoding loop uses. *)
Theorem C6_sorted_field_ranges (record : pydict) (fullpath : value)
  (hash_start : Z) (w : world) :
  (89 <= length (unread w))%nat ->
  exists table record' properties_size offsets,
    get_prop_offsets record fullpath hash_start w
      = (Ok (Some table, record'), advance 89 w)
    /\ dict_pop "properties_size" table = (Some properties_size, offsets)
    /\ length (sorted_by_offset offsets) = 17%nat
    /\ Permutation (sorted_by_offset offsets) offsets
    /\ StronglySorted offset_le (sorted_by_offset offsets)
    /\ map (fun r => (r.1, r.2.1))
         (field_ranges (sorted_by_offset offsets) properties_size)
       = sorted_by_offset offsets
    /\ (forall i r r',
          field_ranges (sorted_by_offset offsets) properties_size !! i = Some r ->
          field_ranges (sorted_by_offset offsets) properties_size !! S i = Some r' ->
          r.2.1 <= r.2.2 /\ r.2.2 = r'.2.1)
    /\ (forall r,
          last (field_ranges (sorted_by_offset offsets) properties_size) = Some r ->
          r.2.2 = properties_size)
    /\ ForallOrdPairs ranges_disjoint
         (field_ranges (sorted_by_offset offsets) properties_size)
    /\ (forall first x,
          head (sorted_by_offset offsets) = Some first ->
          first.2 <= x < properties_size ->
          exists r,
            r ∈ field_ranges (sorted_by_offset offsets) properties_size
            /\ in_range x r)
    /\ (forall properties_data rec w0,
          read_fields properties_data properties_size fullpath hash_start
            (sorted_by_offset offsets) rec w0
          = read_ranges properties_data fullpath hash_start
              (field_ranges (sorted_by_offset offsets) properties_size) rec w0).
Proof.
  intros Hle.
  set (tbl := take 89 (unread w)).
  eexists _, _, (i16 tbl 85), (decoded_offsets tbl).
  split; [exact (get_prop_offsets_full record fullpath hash_start w Hle)|].
  split.
  { unfold decoded_offsets.
    repeat (progress (cbn [app dict_pop]; eval_string_eqb; cbv beta iota zeta)).
    reflexivity. }
  pose proof (sorted_by_offset_sorted (decoded_offsets tbl)) as Hs.
  split; [rewrite (Permutation_length (sorted_by_offset_perm _)); reflexivity|].
  split; [apply sorted_by_offset_perm|].
  split; [exact Hs|].
  split; [apply field_ranges_starts|].
  split; [intros i r r'; apply field_ranges_chain; exact Hs|].
  split; [intros r; apply field_ranges_last|].
  split; [apply field_ranges_disjoint; exact Hs|].
  split; [intros first x; apply field_ranges_cover|].
  intros; apply read_fields_by_ranges.
Qed.

Lemma C6_sorted_field_ranges_witness :
  let w := open_file (Sample.table 317 ++ Sample.blob) in
  exists so ranges,
    length so = 17%nat
    /\ StronglySorted offset_le so
    /\ map (fun r => (r.1, r.2.1)) ranges = so
    /\ ForallOrdPairs ranges_disjoint ranges.
Proof.
  intros w.
  assert (89 <= length (unread w))%nat as Hle by (vm_compute; lia).
  destruct (C6_sorted_field_ranges ∅ VNone 0 w Hle)
    as (table & record' & ps & offsets & _ & _ & Hlen & _ & Hs & Hst & _ & _ & Hd & _).
  exists (sorted_by_offset offsets), (field_ranges (sorted_by_offset offsets) ps).
  repeat split; assumption.
Defined.

(** C6 as stated fails: a table of 89 zero bytes decodes to seventeen (not
    sixteen) offsets, all equal to 0, so the sorted offsets do not strictly
    increase. *)
Lemma C6_counterexample :
  let w := open_file (repeat x00 89) in
  exists table record' properties_size offsets,
    get_prop_offsets ∅ VNone 0 w = (Ok (Some table, record'), advance 89 w)
    /\ dict_pop "properties_size" table = (Some properties_size, offsets)
    /\ length (sorted_by_offset offsets) = 17%nat
    /\ ~ StronglySorted offset_lt (sorted_by_offset offsets).
Proof.
  intros w.
  assert (89 <= length (unread w))%nat as Hle by (vm_compute; lia).
  eexists _, _, 0, (map (fun kv => (kv.1, 0)) (decoded_offsets [])).
  split; [exact (get_prop_offsets_full ∅ VNone 0 w Hle)|].
  split; [vm_compute; reflexivity|].
  split; [reflexivity|].
  vm_compute. intros Hs.
  inversion Hs as [|? ? _ Hall]; subst.
  apply Forall_inv in Hall. vm_compute in Hall. discriminate.
Qed.

(** ** Post-processing *)

Section PostProcessingFacts.

Context (os : os_path) (unicode_lower : pystr -> pystr).

Lemma get_text_insert_ne (r : pydict) (k k' : string) (v : value) :
  k <> k' -> get_text (<[k := v]> r) k' = get_text r k'.
Proof. intros Hne. unfold get_text. rewrite lookup_insert_ne by exact Hne. reflexivity. Qed.

(** What [parse_fields] writes, given the four entries it reads. *)
Lemma parse_fields_result (record record' : pydict) :
  parse_fields os unicode_lower record = Ok record' ->
  exists last_updated last_joined_sccm folder_path file_name,
    filetime_field record "last_updated" = Ok last_updated
    /\ filetime_field (<["last_updated" := last_updated]> record) "last_joined_sccm"
       = Ok last_joined_sccm
    /\ get_text record "folder_path" = Ok folder_path
    /\ get_text record "explorer_filename" = Ok file_name
    /\ record' =
         <["file_extension" :=
             or_None (str_lower unicode_lower
                        (str_remove DOT (splitext os file_name).2))]>
           (<["full_path" :=
                or_None (concat [folder_path;
                                 if str_endswith folder_path [BACKSLASH] then []
                                 else [BACKSLASH];
                                 file_name])]>
              (<["last_joined_sccm" := last_joined_sccm]>
                 (<["last_updated" := last_updated]> record))).
Proof.
  unfold parse_fields.
  destruct (filetime_field record "last_updated") as [lu|] eqn:Hlu; [|discriminate].
  destruct (filetime_field _ "last_joined_sccm") as [lj|] eqn:Hlj; [|discriminate].
  rewrite !get_text_insert_ne by discriminate.
  destruct (get_text record "folder_path") as [fp|]; [|discriminate].
  destruct (get_text record "explorer_filename") as [fn|]; [|discriminate].
  intros [= <-]. exists lu, lj, fp, fn. repeat split; [exact Hlj].
Qed.

(** [parse_fields] succeeds on a record whose two tick counts are 64-bit
    integers and whose path parts are text or absent. *)
Lemma parse_fields_total (record : pydict) (a b : Z) (folder_path file_name : pystr) :
  record !! "last_updated" = Some (VInt a) -> 0 <= a < 2 ^ 64 ->
  record !! "last_joined_sccm" = Some (VInt b) -> 0 <= b < 2 ^ 64 ->
  get_text record "folder_path" = Ok folder_path ->
  get_text record "explorer_filename" = Ok file_name ->
  exists last_updated last_joined_sccm,
    parse_fields os unicode_lower record =
      Ok (<["file_extension" :=
              or_None (str_lower unicode_lower
                         (str_remove DOT (splitext os file_name).2))]>
            (<["full_path" :=
                 or_None (concat [folder_path;
                                  if str_endswith folder_path [BACKSLASH] then []
                                  else [BACKSLASH];
                                  file_name])]>
               (<["last_joined_sccm" := last_joined_sccm]>
                  (<["last_updated" := last_updated]> record)))).
Proof.
  intros Ha Hra Hb Hrb Hfolder Hfile. unfold parse_fields.
  destruct (datetime_from_windows_filetime_total a Hra) as [da Hda].
  destruct (datetime_from_windows_filetime_total b Hrb) as [db Hdb].
  assert (exists lu, filetime_field record "last_updated" = Ok lu) as [lu Hlu].
  { unfold filetime_field. rewrite Ha, Hda. destruct da; eauto. }
  rewrite Hlu.
  assert (exists lj, filetime_field (<["last_updated" := lu]> record)
                       "last_joined_sccm" = Ok lj) as [lj Hlj].
  { unfold filetime_field. rewrite lookup_insert_ne, Hb, Hdb by discriminate.
    destruct db; eauto. }
  rewrite Hlj.
  rewrite !get_text_insert_ne, Hfolder, Hfile by discriminate.
  eexists _, _. reflexivity.
Qed.

End PostProcessingFacts.

(** C7: [full_path] is [folder_path], then a backslash unless [folder_path]
    already ends with one, then [explorer_filename] (a missing or null part
    counting as empty), and [None] if that text is empty.  For the folder
    C:\Windows\SysWOW64\Macromed\Flash\ and the file name
    FlashUtil32_29_0_0_140_Plugin.exe it is the two joined without a further
    backslash, and [file_extension] is exe. *)
Theorem C7_full_path (os : os_path) (unicode_lower : pystr -> pystr)
  (record record' : pydict) :
  parse_fields os unicode_lower record = Ok record' ->
  exists folder_path file_name,
    get_text record "folder_path" = Ok folder_path
    /\ get_text record "explorer_filename" = Ok file_name
    /\ record' !! "full_path" =
         Some (or_None (folder_path
                         ++ (if str_endswith folder_path [BACKSLASH] then []
                             else [BACKSLASH])
                         ++ file_name))
    /\ (folder_path = str_of_string "C:\Windows\SysWOW64\Macromed\Flash\" ->
        file_name = str_of_string "FlashUtil32_29_0_0_140_Plugin.exe" ->
        record' !! "full_path" =
          Some (VStr (str_of_string
            "C:\Windows\SysWOW64\Macromed\Flash\FlashUtil32_29_0_0_140_Plugin.exe"))
        /\ record' !! "file_extension" = Some (VStr (str_of_string "exe"))).
Proof.
  intros Hparse.
  destruct (parse_fields_result os unicode_lower record record' Hparse)
    as (lu & lj & folder_path & file_name & _ & _ & Hfolder & Hfile & ->).
  exists folder_path, file_name.
  split; [exact Hfolder | split; [exact Hfile |]].
  rewrite lookup_insert_ne by discriminate. rewrite lookup_insert_eq.
  split.
  - cbn [concat]. rewrite app_nil_r. reflexivity.
  - intros -> ->. split.
    + vm_compute. reflexivity.
    + rewrite lookup_insert_eq. destruct os; vm_compute; reflexivity.
Qed.

Lemma C7_full_path_witness :
  let record : pydict :=
    <["explorer_filename" := VStr (str_of_string "FlashUtil32_29_0_0_140_Plugin.exe")]>
      (<["folder_path" := VStr (str_of_string "C:\Windows\SysWOW64\Macromed\Flash\")]>
         (<["last_joined_sccm" := VInt 131599838211786410]>
            (<["last_updated" := VInt 131723359061027940]> ∅))) in
  exists record',
    parse_fields ntpath (fun s => s) record = Ok record'
    /\ record' !! "full_path" =
         Some (VStr (str_of_string
           "C:\Windows\SysWOW64\Macromed\Flash\FlashUtil32_29_0_0_140_Plugin.exe"))
    /\ record' !! "file_extension" = Some (VStr (str_of_string "exe")).
Proof.
  intros record.
  assert (get_text record "folder_path"
          = Ok (str_of_string "C:\Windows\SysWOW64\Macromed\Flash\")) as Hfolder.
  { unfold get_text, record.
    rewrite lookup_insert_ne, lookup_insert_eq by discriminate. reflexivity. }
  assert (get_text record "explorer_filename"
          = Ok (str_of_string "FlashUtil32_29_0_0_140_Plugin.exe")) as Hfile.
  { unfold get_text, record. rewrite lookup_insert_eq. reflexivity. }
  edestruct (parse_fields_total ntpath (fun s => s) record
               131723359061027940 131599838211786410) as (lu & lj & Hparse);
    [ unfold record; rewrite !lookup_insert_ne by discriminate; apply lookup_insert_eq
    | lia
    | unfold record; rewrite !lookup_insert_ne by discriminate; apply lookup_insert_eq
    | lia | exact Hfolder | exact Hfile | ].
  eexists. split; [exact Hparse|].
  destruct (C7_full_path ntpath (fun s => s) record _ Hparse)
    as (folder_path & file_name & Hfolder' & Hfile' & _ & Hexample).
  apply Hexample; congruence.
Defined.

(** ** Scanning *)

Section Scanning.

Context (os : os_path) (unicode_lower : pystr -> pystr).

Lemma pattern_alternatives :
  regex_alternatives pattern
  = [encode_utf16le VISTA_HASH; x00 :: encode_utf16le XP_HASH].
Proof. vm_compute. reflexivity. Qed.

(** A file that is not empty and holds no match yields nothing, and no
    exception. *)
Lemma parse_no_match (fullpath : value) (w : world) :
  content (file w) <> [] ->
  finditer pattern (content (file w)) = [] ->
  parse os unicode_lower fullpath w = ([], None, w).
Proof.
  intros Hne Hnone. unfold parse. rewrite Hnone.
  destruct (content (file w)); [contradiction | reflexivity].
Qed.

Lemma match_here_lengths (data : list byte) (n : nat) :
  match_here (regex_alternatives pattern) data = Some n -> n = 128%nat \/ n = 65%nat.
Proof.
  rewrite pattern_alternatives. unfold match_here. cbn [List.find].
  destruct (is_prefix _ data); [intros [= <-]; left; reflexivity|].
  destruct (is_prefix _ data); [intros [= <-]; right; reflexivity|].
  discriminate.
Qed.

Lemma finditer_from_lengths (data : list byte) :
  forall pos skip m,
    m ∈ finditer_from (regex_alternatives pattern) pos skip data ->
    (m.2 = m.1 + 128 \/ m.2 = m.1 + 65)%nat.
Proof.
  induction data as [|b data IH]; intros pos skip m Hin; [inversion Hin|].
  cbn [finditer_from] in Hin. destruct skip as [|skip]; [|exact (IH _ _ _ Hin)].
  destruct (match_here _ (b :: data)) as [n|] eqn:Hn; [|exact (IH _ _ _ Hin)].
  apply elem_of_cons in Hin as [->|Hin]; [|exact (IH _ _ _ Hin)].
  cbn [fst snd]. destruct (match_here_lengths _ _ Hn) as [-> | ->]; auto.
Qed.

(** Every match is 128 or 65 bytes long: the table of record types is never
    asked for 64. *)
Lemma finditer_lengths (data : list byte) (m : nat * nat) :
  m ∈ finditer pattern data -> (m.2 = m.1 + 128 \/ m.2 = m.1 + 65)%nat.
Proof. apply finditer_from_lengths. Qed.

(** [mmap] refuses the empty file. *)
Lemma parse_empty_file (fullpath : value) :
  parse os unicode_lower fullpath (open_file []) = ([], Some ValueError, open_file []).
Proof. reflexivity. Qed.

End Scanning.

(** C8 (the code departs from it): in a file that holds the XP signature
    after a zero byte the scanner's match is 65 bytes long, the zero byte
    included; [RECENTLY_USED_APPS_TYPES] has no entry for 65, and [parse]
    ends with a [KeyError] before it yields anything.  Without the zero byte
    in front the same signature is not found at all. *)
Theorem C8_xp_match_key_error (os : os_path) (unicode_lower : pystr -> pystr)
  (fullpath : value) :
  finditer pattern Sample.xp_record = [(0%nat, 65%nat)]
  /\ RECENTLY_USED_APPS_TYPES 65 = None
  /\ parse os unicode_lower fullpath (open_file Sample.xp_record)
     = ([], Some (KeyError (KInt 65)), open_file Sample.xp_record)
  /\ finditer pattern (drop 1 Sample.xp_record) = [].
Proof.
  assert (finditer pattern Sample.xp_record = [(0%nat, 65%nat)]) as Hfind
    by (vm_compute; reflexivity).
  split; [exact Hfind | split; [reflexivity | split]].
  - unfold parse. cbn [open_file file content]. rewrite Hfind.
    reflexivity.
  - vm_compute. reflexivity.
Qed.

(** ** Decoding one record *)

(** Membership of a literal key in a literal list of keys. *)
Ltac in_names :=
  cbn [fmap list_fmap decoded_offsets fst];
  repeat first [apply list_elem_of_here | apply list_elem_of_further].

Section RecordDecoding.

Context (os : os_path) (unicode_lower : pystr -> pystr).

Lemma parse_header (hdr : list byte) :
  length hdr = 30%nat ->
  NamedStruct.parse_as_dict RUA_RECORD_HEADER hdr 0
  = Some [ ("last_updated", Py.le_uint (take 8 hdr));
           ("last_joined_sccm", Py.le_uint (take 8 (drop 8 hdr)));
           ("record_size", Py.le_uint (take 4 (drop 16 hdr))) ].
Proof.
  intros Hlen. unfold NamedStruct.parse_as_dict, NamedStruct.parse.
  change (NamedStruct.size RUA_RECORD_HEADER) with 30%nat.
  rewrite slice_prefix, take_ge by lia.
  unfold unpack. rewrite Hlen.
  change (calcsize (NamedStruct.formats RUA_RECORD_HEADER)) with 30%nat.
  cbn [Nat.eqb].
  let x := eval vm_compute in (NamedStruct.field_names RUA_RECORD_HEADER) in
    change (NamedStruct.field_names RUA_RECORD_HEADER) with x.
  unfold RUA_RECORD_HEADER, NamedStruct.formats.
  cbn [map snd unpack_fields fmt_size combine].
  rewrite !drop_drop. reflexivity.
Qed.

(** A match of unknown length: the [KeyError] leaves [process_hit] before
    anything is read or printed. *)
Lemma process_hit_untyped (m : nat * nat) (fullpath : value) (w : world) :
  RECENTLY_USED_APPS_TYPES (Z.of_nat m.2 - Z.of_nat m.1) = None ->
  process_hit os unicode_lower m fullpath w
  = (Raise (KeyError (KInt (Z.of_nat m.2 - Z.of_nat m.1))), w).
Proof. intros Hnone. unfold process_hit. rewrite Hnone. reflexivity. Qed.

(** Too few bytes for the header: the record stays as first built. *)
Lemma process_hit_header_short (m : nat * nat) (type_name : string)
  (fullpath : value) (w : world) :
  RECENTLY_USED_APPS_TYPES (Z.of_nat m.2 - Z.of_nat m.1) = Some type_name ->
  (length (drop m.2 (content (file w))) < 30)%nat ->
  process_hit os unicode_lower m fullpath w =
    (Ok (initial_record type_name fullpath (Z.of_nat m.1)),
     mk_world (mk_fileobj (content (file w))
                 (m.2 + length (drop m.2 (content (file w)))))
       (stdout w ++ [Could_not_decode_header (Z.of_nat m.1) fullpath])).
Proof.
  intros Hm Hshort. unfold process_hit. rewrite Hm.
  change (NamedStruct.size RUA_RECORD_HEADER) with 30%nat.
  unfold mbind, M_bind. cbn [seek]. rewrite read_spec.
  unfold unread. cbn [file content position].
  rewrite take_ge by lia.
  rewrite parse_as_dict_short
    by (change (NamedStruct.size RUA_RECORD_HEADER) with 30%nat; lia).
  reflexivity.
Qed.

(** With the header read, [process_hit] goes on to the properties, after the
    warning when [record_size] is above the limit. *)
Lemma process_hit_header (m : nat * nat) (type_name : string)
  (fullpath : value) (w : world) :
  RECENTLY_USED_APPS_TYPES (Z.of_nat m.2 - Z.of_nat m.1) = Some type_name ->
  (30 <= length (drop m.2 (content (file w))))%nat ->
  let hdr := take 30 (drop m.2 (content (file w))) in
  let record_size := Py.le_uint (take 4 (drop 16 hdr)) in
  let w1 := mk_world (mk_fileobj (content (file w)) (m.2 + 30)) (stdout w) in
  process_hit os unicode_lower m fullpath w =
    decode_properties os unicode_lower
      (header_record type_name hdr fullpath (Z.of_nat m.1)) fullpath (Z.of_nat m.1)
      (if RUA_MAX_RECORD_SIZE <? record_size
       then printed (Record_size_too_large record_size RUA_MAX_RECORD_SIZE
                       (Z.of_nat m.1) fullpath) w1
       else w1).
Proof.
  intros Hm Hlong hdr record_size w1. unfold process_hit. rewrite Hm.
  change (NamedStruct.size RUA_RECORD_HEADER) with 30%nat.
  unfold mbind at 1 2, M_bind at 1 2. cbn [seek]. rewrite read_spec.
  unfold unread. cbn [file content position]. fold hdr.
  assert (length hdr = 30%nat) as Hlen
    by (unfold hdr; rewrite length_take; lia).
  rewrite Hlen, (parse_header hdr Hlen).
  cbn [fmap list_fmap prod_map id fst snd record_update foldl].
  rewrite lookup_insert_eq.
  rewrite delete_insert_eq, delete_id.
  2:{ rewrite !lookup_insert_ne by discriminate. apply lookup_empty. }
  fold record_size.
  unfold mbind at 1, M_bind at 1.
  unfold advance. cbn [file content position stdout]. fold w1.
  destruct (RUA_MAX_RECORD_SIZE <? record_size); reflexivity.
Qed.

Lemma world_eta (w : world) : mk_world (file w) (stdout w ++ []) = w.
Proof. destruct w. cbn. rewrite app_nil_r. reflexivity. Qed.

(** Decoding one string never raises and leaves the file alone; it may
    print. *)
Lemma read_cim_encoded_string_total buf start end_ fullpath file_offset w :
  exists v more,
    read_cim_encoded_string buf start end_ fullpath file_offset w
    = (Ok v, mk_world (file w) (stdout w ++ more)).
Proof.
  unfold read_cim_encoded_string.
  destruct (_ =? 2); [exists None, []; rewrite world_eta; reflexivity|].
  destruct (_ <? start); [exists None, []; rewrite world_eta; reflexivity|].
  destruct (negb _); [eexists None, [_]; reflexivity|].
  destruct (bool_decide (_ = [])); [exists None, []; rewrite world_eta; reflexivity|].
  unfold decode_cim_encoded_string.
  destruct (bool_decide _).
  - eexists (Some _), []. rewrite world_eta. reflexivity.
  - destruct (mapM _ _).
    + eexists (Some _), []. rewrite world_eta. reflexivity.
    + eexists None, [_]. reflexivity.
Qed.

(** The loop over the fields never raises; it writes the named fields, each
    a string or [None], and nothing else. *)
Lemma read_ranges_total properties_data fullpath hash_start ranges :
  forall (record : pydict) (w : world),
  exists r more,
    read_ranges properties_data fullpath hash_start ranges record w
    = (Ok r, mk_world (file w) (stdout w ++ more))
    /\ (forall k, k ∉ ranges.*1 -> r !! k = record !! k)
    /\ (forall k, k ∈ ranges.*1 -> exists v, r !! k = Some (opt_str v))
    /\ dom r = dom record ∪ list_to_set ranges.*1.
Proof.
  induction ranges as [|[name [s e]] rest IH]; intros record w.
  - exists record, []. rewrite world_eta. cbn.
    split; [reflexivity|]. split; [reflexivity|].
    split; [intros k Hk; inversion Hk |].
    rewrite union_empty_r_L. reflexivity.
  - cbn [read_ranges]. unfold mbind, M_bind.
    destruct (read_cim_encoded_string_total properties_data s e fullpath
                (VInt hash_start) w) as (v & more & ->).
    destruct (IH (<[name := opt_str v]> record)
                (mk_world (file w) (stdout w ++ more)))
      as (r & more' & -> & Hout & Hin & Hdom).
    exists r, (more ++ more'). cbn [file stdout]. rewrite app_assoc.
    split; [reflexivity|]. cbn [fmap list_fmap fst].
    split; [|split].
    + intros k Hk. apply not_elem_of_cons in Hk as [Hne Hk].
      rewrite (Hout k Hk). apply lookup_insert_ne. congruence.
    + intros k Hk. destruct (decide (k ∈ rest.*1)) as [Hrest|Hrest].
      * exact (Hin k Hrest).
      * apply elem_of_cons in Hk as [->|Hk]; [|contradiction].
        exists v. rewrite (Hout name Hrest). apply lookup_insert_eq.
    + rewrite Hdom, dom_insert_L, list_to_set_cons.
      rewrite (union_comm_L {[name]} (dom record)).
      rewrite (union_assoc_L (dom record)). reflexivity.
Qed.

Lemma read_total (n : Z) (w : world) :
  -1 <= n ->
  exists data pos,
    read n w = (Ok data, mk_world (mk_fileobj (content (file w)) pos) (stdout w)).
Proof.
  intros Hn. unfold read. destruct (Z.ltb_spec n (-1)); [lia|].
  eexists _, _. reflexivity.
Qed.

(** A length below [-1] is refused, and the file stays where it was. *)
Lemma read_value_error (n : Z) (w : world) :
  n < -1 -> read n w = (Raise ValueError, w).
Proof.
  intros Hn. unfold read. destruct (Z.ltb_spec n (-1)); [reflexivity | lia].
Qed.

Lemma unread_after_header (data : list byte) (n : nat) (out : list diag) (b : bool)
  (d : diag) :
  let w1 := mk_world (mk_fileobj data n) out in
  unread (if b then printed d w1 else w1) = drop n data.
Proof. destruct b; reflexivity. Qed.

Lemma pop_properties_size (tbl : list byte) (properties_size : Z) :
  dict_pop "properties_size" (decoded_offsets tbl ++ [("properties_size", properties_size)])
  = (Some properties_size, decoded_offsets tbl).
Proof.
  unfold decoded_offsets.
  repeat (progress (cbn [app dict_pop]; eval_string_eqb; cbv beta iota zeta)).
  reflexivity.
Qed.

Lemma field_ranges_names so ps : (field_ranges so ps).*1 = so.*1.
Proof.
  rewrite <- (field_ranges_starts so ps) at 2.
  rewrite <- list_fmap_compose. reflexivity.
Qed.

(** The names of the sorted offsets are the seventeen names of the table. *)
Lemma sorted_names (tbl : list byte) :
  (sorted_by_offset (decoded_offsets tbl)).*1 ≡ₚ (decoded_offsets []).*1.
Proof.
  rewrite (sorted_by_offset_perm (decoded_offsets tbl)). reflexivity.
Qed.

Lemma le_uint_8_range (bs : list byte) : 0 <= Py.le_uint (take 8 bs) < 2 ^ 64.
Proof.
  pose proof (le_uint_range (take 8 bs)) as H.
  assert (length (take 8 bs) <= 8)%nat as Hlen by (rewrite length_take; lia).
  assert (256 ^ Z.of_nat (length (take 8 bs)) <= 256 ^ 8)
    by (apply Z.pow_le_mono_r; lia).
  change (256 ^ 8) with (2 ^ 64) in *. lia.
Qed.

(** A truncated table ends the decoding with the record as it stands. *)
Lemma decode_properties_truncated (record : pydict) (fullpath : value)
  (hash_start : Z) (w : world) :
  (length (unread w) < 89)%nat ->
  decode_properties os unicode_lower record fullpath hash_start w
  = (Ok record,
     printed (Could_not_decode_offsets hash_start fullpath)
       (advance (length (unread w)) w)).
Proof.
  intros Hlt. unfold decode_properties, mbind, M_bind.
  rewrite get_prop_offsets_truncated by exact Hlt. reflexivity.
Qed.

(** A complete table whose [properties_size] is below [-1]: [read] refuses
    the length, and the [ValueError] leaves [decode_properties]. *)
Lemma decode_properties_value_error (record : pydict) (fullpath : value)
  (hash_start : Z) (w : world) :
  (89 <= length (unread w))%nat ->
  i16 (take 89 (unread w)) 85 < -1 ->
  decode_properties os unicode_lower record fullpath hash_start w
  = (Raise ValueError, advance 89 w).
Proof.
  intros Hle Hneg. unfold decode_properties. unfold mbind at 1, M_bind at 1.
  rewrite get_prop_offsets_full by exact Hle.
  rewrite pop_properties_size.
  unfold mbind at 1, M_bind at 1.
  rewrite read_value_error by (unfold RUA_MAX_RECORD_SIZE; lia).
  reflexivity.
Qed.

(** From [get_prop_offsets] on, nothing is raised when [read] accepts
    [properties_size]; a complete table gives a record with every property,
    [full_path] and [file_extension]. *)
Lemma decode_properties_total (record : pydict) (fullpath : value)
  (hash_start a b : Z) (w : world) :
  record !! "last_updated" = Some (VInt a) -> 0 <= a < 2 ^ 64 ->
  record !! "last_joined_sccm" = Some (VInt b) -> 0 <= b < 2 ^ 64 ->
  ((89 <= length (unread w))%nat -> -1 <= i16 (take 89 (unread w)) 85) ->
  exists r w',
    decode_properties os unicode_lower record fullpath hash_start w = (Ok r, w')
    /\ content (file w') = content (file w)
    /\ (exists more, stdout w' = stdout w ++ more)
    /\ ((89 <= length (unread w))%nat -> dom r = decoded_keys (dom record)).
Proof.
  intros Ha Hra Hb Hrb Hps.
  destruct (Nat.le_gt_cases 89 (length (unread w))) as [Hle|Hlt].
  - specialize (Hps Hle).
    unfold decode_properties. unfold mbind at 1, M_bind at 1.
    rewrite get_prop_offsets_full by exact Hle.
    set (tbl := take 89 (unread w)) in *.
    set (record3 := <["product_language" := _]> _).
    rewrite pop_properties_size.
    unfold mbind at 1, M_bind at 1.
    destruct (read_total (Z.min (i16 tbl 85) RUA_MAX_RECORD_SIZE) (advance 89 w))
      as (data & pos & ->); [unfold RUA_MAX_RECORD_SIZE; lia|].
    unfold mbind at 1, M_bind at 1.
    rewrite read_fields_by_ranges.
    match goal with
    | |- context [read_ranges ?pd ?fp ?hs ?rs ?rec ?w0] =>
        destruct (read_ranges_total pd fp hs rs rec w0)
          as (r & more & -> & Hout & Hin & Hdom)
    end.
    rewrite field_ranges_names in Hout, Hin, Hdom.
    pose proof (sorted_names tbl) as Hperm.
    assert (forall k, k ∉ (decoded_offsets []).*1 -> r !! k = record3 !! k) as Hout'.
    { intros k Hk. apply Hout. rewrite Hperm. exact Hk. }
    assert (forall k, k ∈ (decoded_offsets []).*1 -> exists v, r !! k = Some (opt_str v))
      as Hin'.
    { intros k Hk. apply Hin. rewrite Hperm. exact Hk. }
    rewrite Hperm in Hdom. clear Hout Hin.
    assert (r !! "last_updated" = Some (VInt a)) as Hlu.
    { rewrite Hout'.
      - unfold record3. rewrite !lookup_insert_ne by discriminate. exact Ha.
      - cbn. rewrite !not_elem_of_cons. repeat split; try discriminate.
        apply not_elem_of_nil. }
    assert (r !! "last_joined_sccm" = Some (VInt b)) as Hlj.
    { rewrite Hout'.
      - unfold record3. rewrite !lookup_insert_ne by discriminate. exact Hb.
      - cbn. rewrite !not_elem_of_cons. repeat split; try discriminate.
        apply not_elem_of_nil. }
    assert (exists s, get_text r "folder_path" = Ok s) as [folder Hfolder].
    { destruct (Hin' "folder_path") as [v Hv]; [in_names|].
      unfold get_text. rewrite Hv. destruct v; cbn; eauto. }
    assert (exists s, get_text r "explorer_filename" = Ok s) as [fname Hfname].
    { destruct (Hin' "explorer_filename") as [v Hv]; [in_names|].
      unfold get_text. rewrite Hv. destruct v; cbn; eauto. }
    destruct (parse_fields_total os unicode_lower r a b folder fname
                Hlu Hra Hlj Hrb Hfolder Hfname) as (lu & lj & ->).
    eexists _, _. split; [reflexivity|].
    split; [reflexivity|].
    split; [cbn [stdout advance]; eauto|]. intros _.
    rewrite !dom_insert_L, Hdom. unfold record3. rewrite !dom_insert_L.
    reflexivity.
  - rewrite decode_properties_truncated by exact Hlt.
    eexists _, _. split; [reflexivity|].
    split; [reflexivity|].
    split; [cbn; eauto | intros; lia].
Qed.

Lemma header_record_ticks type_name hdr fullpath hash_start :
  header_record type_name hdr fullpath hash_start !! "last_updated"
    = Some (VInt (Py.le_uint (take 8 hdr)))
  /\ header_record type_name hdr fullpath hash_start !! "last_joined_sccm"
    = Some (VInt (Py.le_uint (take 8 (drop 8 hdr)))).
Proof.
  unfold header_record. split.
  - rewrite lookup_insert_ne by discriminate. apply lookup_insert_eq.
  - apply lookup_insert_eq.
Qed.

(** [process_hit] on a match of known length whose blob can be read raises
    nothing, and leaves the bytes of the file as they were. *)
Lemma process_hit_total (m : nat * nat) (fullpath : value) (w : world) :
  typed_match m ->
  readable (content (file w)) m ->
  exists r w',
    process_hit os unicode_lower m fullpath w = (Ok r, w')
    /\ content (file w') = content (file w)
    /\ (exists more, stdout w' = stdout w ++ more).
Proof.
  intros [type_name Hm] Hread.
  destruct (Nat.le_gt_cases 30 (length (drop m.2 (content (file w))))) as [Hle|Hlt].
  - rewrite (process_hit_header m type_name fullpath w Hm Hle). cbv zeta.
    set (hdr := take 30 _).
    destruct (header_record_ticks type_name hdr fullpath (Z.of_nat m.1)) as [Hlu Hlj].
    match goal with
    | |- context [decode_properties _ _ ?rec ?fp ?hs ?w0] =>
        assert (unread w0 = drop (m.2 + 30) (content (file w))) as Hunread
          by apply unread_after_header;
        destruct (decode_properties_total rec fp hs _ _ w0
                    Hlu (le_uint_8_range hdr) Hlj (le_uint_8_range (drop 8 hdr)))
          as (r & w' & -> & Hc & [more Hs] & _);
        [rewrite Hunread; intros Hfull; apply Hread;
         rewrite length_drop in *; lia|]
    end.
    exists r, w'. split; [reflexivity|].
    destruct (_ <? _); cbn [printed file content stdout] in Hc, Hs.
    + split; [exact Hc|]. rewrite Hs, <- app_assoc. eauto.
    + split; [exact Hc|]. eauto.
  - rewrite (process_hit_header_short m type_name fullpath w Hm Hlt).
    eexists _, _. split; [reflexivity|]. cbn. eauto.
Qed.


End RecordDecoding.

Lemma parse_nonempty (os : os_path) (unicode_lower : pystr -> pystr)
  (fullpath : value) (w : world) :
  content (file w) <> [] ->
  parse os unicode_lower fullpath w
  = process_hits os unicode_lower (finditer pattern (content (file w))) fullpath w.
Proof.
  intros Hne. unfold parse. destruct (content (file w)); [contradiction | reflexivity].
Qed.


(** ** The sample record, end to end *)

(** The Vista record of the sample decodes to one record, with the path, the
    counts and the dates of the module's own test. *)
Lemma sample_vista_record_decoded :
  let out := parse ntpath (fun s => s) (VStr (str_of_string "fullpath"))
               (open_file Sample.vista_record) in
  let field (key : string) := head out.1.1 ≫= (.!! key) in
  length out.1.1 = 1%nat
  /\ out.1.2 = None
  /\ stdout out.2 = []
  /\ field "record_type" = Some (VStr (str_of_string "Vista"))
  /\ field "offset" = Some (VInt 0)
  /\ field "full_path" =
       Some (VStr (str_of_string
         "C:\Windows\SysWOW64\Macromed\Flash\FlashUtil32_29_0_0_140_Plugin.exe"))
  /\ field "file_extension" = Some (VStr (str_of_string "exe"))
  /\ field "last_updated"
     = Some (VDatetime (Datetime.mk_datetime 2018 6 1 14 11 46 102794))
  /\ field "last_joined_sccm"
     = Some (VDatetime (Datetime.mk_datetime 2018 1 9 15 3 41 178641))
  /\ field "file_size" = Some (VInt 1366528)
  /\ field "launch_count" = Some (VInt 64)
  /\ field "product_language" = Some (VInt 1033)
  /\ field "original_filename" = Some (VStr (str_of_string "FlashUtil.exe"))
  /\ field "msi_version" = Some VNone
  /\ field "record_size" = None.
Proof. cbv zeta. repeat split; vm_compute; reflexivity. Qed.

(** ** The library functions, on small inputs *)

(** [decode('utf-16le', errors='replace')] on malformed input. *)
Lemma decode_utf16le_replace_examples :
  decode_utf16le_replace [x41; x00; x42] = [65; 65533]%N
  /\ decode_utf16le_replace [x00; xd8] = [65533]%N
  /\ decode_utf16le_replace [x00; xd8; x41] = [65533]%N
  /\ decode_utf16le_replace [x00; xd8; x41; x00] = [65533; 65]%N
  /\ decode_utf16le_replace [x00; xd8; x00; xd8; x00; xdc] = [65533; 65536]%N
  /\ decode_utf16le_replace [x00; xdc; x41; x00] = [65533; 65]%N
  /\ decode_utf16le_replace [x3d; xd8; x00; xde] = [128512]%N
  /\ decode_utf16le_replace [x00; xd8; x41; x00; x42] = [65533; 65; 65533]%N
  /\ decode_utf16le_replace [x00; xd8; x00; xdc; x42] = [65536; 65533]%N
  /\ decode_utf16le_replace [x00; xd8; x00; xd8; x01] = [65533; 65533]%N.
Proof. repeat split. Qed.

(** [os.path.splitext] in both flavours. *)
Lemma splitext_examples :
  (splitext posixpath (str_of_string "a.b.c")).2 = str_of_string ".c"
  /\ (splitext ntpath (str_of_string ".bashrc")).2 = []
  /\ (splitext posixpath (str_of_string "..x")).2 = []
  /\ (splitext posixpath (str_of_string "a..b")).2 = str_of_string ".b"
  /\ (splitext posixpath (str_of_string "a\b.c\d")).2 = str_of_string ".c\d"
  /\ (splitext ntpath (str_of_string "a\b.c\d")).2 = []
  /\ (splitext ntpath (str_of_string "x.")).2 = str_of_string ".".
Proof. repeat split. Qed.

(** An uncompressed Encoded-String, and trailing zero characters. *)
Lemma read_cim_encoded_string_examples :
  (read_cim_encoded_string [x01; x41; x00; xe9; x00; x00; x00] 0 7 VNone VNone
     (open_file [])).1 = Ok (Some [65; 233]%N)
  /\ (read_cim_encoded_string [x00; x41; xe9; x00; x00] 0 5 VNone VNone
        (open_file [])).1 = Ok (Some [65; 233]%N)
  /\ (read_cim_encoded_string [x00; x41; x00] 0 (-1) VNone VNone
        (open_file [])).1 = Ok (Some [65]%N).
Proof. repeat split. Qed.

(** ** Encoded-Strings: locality and round trips *)

Section EncodedStringRoundTrip.

Lemma byte_of_N_to_N (n : N) : (n < 256)%N -> Byte.to_N (byte_of_N n) = n.
Proof.
  intros Hn. unfold byte_of_N.
  destruct (Byte.of_N n) as [b|] eqn:Hb.
  - apply Byte.to_of_N. exact Hb.
  - apply Byte.of_N_None_iff in Hb. lia.
Qed.

Lemma chr_byte_of_N (s : pystr) :
  Forall (fun c => (c < 256)%N) s -> map chr (map byte_of_N s) = s.
Proof.
  induction 1 as [|c s Hc Hs IH]; [reflexivity|].
  cbn [map]. rewrite IH. unfold chr. rewrite byte_of_N_to_N by exact Hc. reflexivity.
Qed.

(** A slice taken inside the middle of three parts is a slice of the middle
    part. *)
Lemma slice_middle {A} (pre mid post : list A) (a b : Z) :
  0 <= a -> 0 <= b <= Z.of_nat (length mid) ->
  Py.slice (pre ++ mid ++ post) (Z.of_nat (length pre) + a) (Z.of_nat (length pre) + b)
  = Py.slice mid a b.
Proof.
  intros Ha Hb. unfold Py.slice, Py.slice_index.
  rewrite !length_app.
  destruct (Z.ltb_spec (Z.of_nat (length pre) + a) 0); [lia|].
  destruct (Z.ltb_spec (Z.of_nat (length pre) + b) 0); [lia|].
  destruct (Z.ltb_spec a 0); [lia|].
  destruct (Z.ltb_spec b 0); [lia|].
  rewrite (Z.min_l b) by lia.
  rewrite (Z.min_l (Z.of_nat (length pre) + b)) by lia.
  destruct (Z.le_gt_cases a (Z.of_nat (length mid))) as [Hle|Hgt].
  - rewrite (Z.min_l a) by lia.
    rewrite (Z.min_l (Z.of_nat (length pre) + a)) by lia.
    replace (Z.to_nat (Z.of_nat (length pre) + a))
      with (length pre + Z.to_nat a)%nat by lia.
    rewrite <- drop_drop, drop_app_length.
    replace (Z.of_nat (length pre) + b - (Z.of_nat (length pre) + a)) with (b - a) by lia.
    destruct (Z.le_gt_cases b a).
    + replace (Z.to_nat (b - a)) with 0%nat by lia. reflexivity.
    + rewrite drop_app_le by lia.
      rewrite take_app_le by (rewrite length_drop; lia). reflexivity.
  - replace (Z.to_nat (Z.of_nat (length pre) + b - _)) with 0%nat by lia.
    replace (Z.to_nat (b - _)) with 0%nat by lia. reflexivity.
Qed.

Lemma slice_middle_at {A} (pre mid post : list A) (x y : Z) :
  Z.of_nat (length pre) <= x ->
  Z.of_nat (length pre) <= y <= Z.of_nat (length pre) + Z.of_nat (length mid) ->
  Py.slice (pre ++ mid ++ post) x y
  = Py.slice mid (x - Z.of_nat (length pre)) (y - Z.of_nat (length pre)).
Proof.
  intros Hx Hy.
  rewrite <- (slice_middle pre mid post) by lia.
  f_equal; lia.
Qed.

Lemma read_cim_encoded_string_middle (pre mid post : list byte)
  (fullpath file_offset : value) (w : world) :
  (2 <= length mid)%nat ->
  read_cim_encoded_string (pre ++ mid ++ post)
    (Z.of_nat (length pre)) (Z.of_nat (length pre) + Z.of_nat (length mid))
    fullpath file_offset w
  = read_cim_encoded_string mid 0 (Z.of_nat (length mid)) fullpath file_offset w.
Proof.
  intros Hlen. unfold read_cim_encoded_string.
  replace (Z.of_nat (length pre) + Z.of_nat (length mid) - Z.of_nat (length pre))
    with (Z.of_nat (length mid) - 0) by lia.
  destruct (_ =? 2); [reflexivity|].
  rewrite !length_app.
  destruct (Z.ltb_spec (Z.of_nat (length pre + (length mid + length post)))
              (Z.of_nat (length pre))); [lia|].
  destruct (Z.ltb_spec (Z.of_nat (length mid)) 0); [lia|].
  set (p := Z.of_nat (length pre)).
  rewrite !(slice_middle_at pre mid post) by (fold p; lia). fold p.
  replace (p - p) with 0 by lia.
  replace (p + 1 - p) with (0 + 1) by lia.
  replace (p + 2 - p) with (0 + 2) by lia.
  replace (p + Z.of_nat (length mid) - p) with (Z.of_nat (length mid)) by lia.
  reflexivity.
Qed.

(** X1: the value of a field depends only on the bytes of its own range, as
    soon as the range lies inside the blob and holds the flag and one more
    byte: reading the range in the blob is reading the range cut out. *)
Theorem read_cim_encoded_string_local (buf : list byte) (start end_ : Z)
  (fullpath file_offset : value) (w : world) :
  0 <= start -> start + 2 <= end_ <= Z.of_nat (length buf) ->
  read_cim_encoded_string buf start end_ fullpath file_offset w
  = read_cim_encoded_string (Py.slice buf start end_) 0 (end_ - start)
      fullpath file_offset w.
Proof.
  intros Hstart Hend.
  set (a := Z.to_nat start). set (n := Z.to_nat (end_ - start)).
  assert (Py.slice buf start end_ = take n (drop a buf)) as Hslice.
  { unfold Py.slice, Py.slice_index.
    destruct (Z.ltb_spec start 0); [lia|].
    destruct (Z.ltb_spec end_ 0); [lia|].
    rewrite !Z.min_l by lia. reflexivity. }
  assert (length (take n (drop a buf)) = n) as Hn
    by (rewrite length_take, length_drop; lia).
  assert (buf = take a buf ++ take n (drop a buf) ++ drop n (drop a buf)) as Hsplit
    by (rewrite (take_drop n), (take_drop a); reflexivity).
  assert (length (take a buf) = a) as Ha by (rewrite length_take; lia).
  rewrite Hslice.
  replace (end_ - start) with (Z.of_nat (length (take n (drop a buf)))) by lia.
  rewrite <- (read_cim_encoded_string_middle (take a buf) (take n (drop a buf))
                (drop n (drop a buf))) by lia.
  rewrite <- Hsplit. f_equal; lia.
Qed.

Lemma getitem_all (buf : list byte) :
  mapM (getitem buf) (range 0 (Z.of_nat (length buf))) = Some buf.
Proof.
  apply mapM_Some. unfold range. rewrite Z.sub_0_r, Nat2Z.id.
  apply Forall2_same_length_lookup. split.
  - rewrite length_map, length_seq. reflexivity.
  - intros i z b Hz Hb.
    rewrite list_lookup_fmap in Hz.
    destruct (seq 0 (length buf) !! i) as [k|] eqn:Hk; [|discriminate].
    apply lookup_seq in Hk as [-> Hlt]. injection Hz as <-.
    unfold getitem. cbn [Nat.add].
    destruct (Z.ltb_spec (0 + Z.of_nat i) 0); [lia|].
    destruct (Z.leb_spec 0 (0 + Z.of_nat i)); [|lia].
    destruct (Z.ltb_spec (0 + Z.of_nat i) (Z.of_nat (length buf))); [|lia].
    cbn [andb]. rewrite Z.add_0_l, Nat2Z.id. exact Hb.
Qed.

Lemma rstrip_keep {A} (is_c : A -> bool) (s : list A) (x : A) :
  is_c x = false -> rstrip is_c (s ++ [x]) = s ++ [x].
Proof.
  intros Hx. induction s as [|y s IH]; cbn [app rstrip].
  - rewrite Hx. reflexivity.
  - rewrite IH. destruct s; reflexivity.
Qed.

Lemma rstrip_drop {A} (is_c : A -> bool) (s : list A) (x : A) :
  is_c x = true -> rstrip is_c (s ++ [x]) = rstrip is_c s.
Proof.
  intros Hx. induction s as [|y s IH]; cbn [app rstrip].
  - rewrite Hx. reflexivity.
  - rewrite IH. reflexivity.
Qed.

Lemma rstrip_id {A} (is_c : A -> bool) (s : list A) :
  (forall x, last s = Some x -> is_c x = false) -> rstrip is_c s = s.
Proof.
  destruct (decide (s = [])) as [->|Hne]; [reflexivity|].
  destruct (exists_last Hne) as (s' & x & ->).
  intros Hlast. apply rstrip_keep. apply Hlast. apply last_snoc.
Qed.

Lemma rstrip_terminated {A} (is_c : A -> bool) (s : list A) (x : A) :
  is_c x = true ->
  (forall y, last s = Some y -> is_c y = false) ->
  rstrip is_c (s ++ [x]) = s.
Proof. intros Hx Hs. rewrite rstrip_drop by exact Hx. apply rstrip_id. exact Hs. Qed.

Lemma last_map {A B} (f : A -> B) (l : list A) :
  last (map f l) = option_map f (last l).
Proof.
  induction l as [|x l IH]; [reflexivity|].
  destruct l; [reflexivity | exact IH].
Qed.

Lemma slice_tail {A} (x : A) (l : list A) :
  Py.slice (x :: l) 1 (Z.of_nat (length (x :: l))) = l.
Proof.
  unfold Py.slice, Py.slice_index. cbn [length].
  destruct (Z.ltb_spec 1 0); [lia|].
  destruct (Z.ltb_spec (Z.of_nat (S (length l))) 0); [lia|].
  rewrite Z.min_l, Z.min_l by lia.
  replace (Z.to_nat (Z.of_nat (S (length l)) - 1)) with (length l) by lia.
  cbn [Z.to_nat Pos.to_nat Pos.iter_op Nat.add drop].
  apply take_ge. lia.
Qed.

Lemma byte_of_N_nul (c : N) : (c < 256)%N -> c <> 0%N -> is_nul_byte (byte_of_N c) = false.
Proof.
  intros Hc Hnz. unfold is_nul_byte.
  destruct (Byte.eqb (byte_of_N c) x00) eqn:Heq; [|reflexivity].
  apply Byte.byte_dec_bl in Heq.
  apply (f_equal Byte.to_N) in Heq. rewrite byte_of_N_to_N in Heq by exact Hc.
  contradiction.
Qed.

Lemma code_unit_bytes (u : N) :
  (u < 65536)%N -> code_unit (byte_of_N (u mod 256)) (byte_of_N (u / 256)) = u.
Proof.
  intros Hu. unfold code_unit.
  rewrite byte_of_N_to_N by (apply N.mod_lt; discriminate).
  rewrite byte_of_N_to_N by (apply N.Div0.div_lt_upper_bound; exact Hu).
  rewrite N.add_comm. symmetry. apply N.div_mod. discriminate.
Qed.

Lemma decode_utf16le_replace_unit (lo hi : byte) (rest : list byte) :
  decode_utf16le_replace (lo :: hi :: rest) =
    let u := code_unit lo hi in
    if is_low_surrogate u then REPLACEMENT :: decode_utf16le_replace rest
    else if is_high_surrogate u then
      match rest with
      | lo2 :: hi2 :: rest' =>
          let u2 := code_unit lo2 hi2 in
          if is_low_surrogate u2
          then (65536 + (u - 55296) * 1024 + (u2 - 56320))%N
                 :: decode_utf16le_replace rest'
          else REPLACEMENT :: decode_utf16le_replace rest
      | _ => [REPLACEMENT]
      end
    else u :: decode_utf16le_replace rest.
Proof. reflexivity. Qed.

Lemma decode_utf16le_replace_text (s : pystr) (rest : list byte) :
  Forall (fun c => is_scalar c = true) s ->
  decode_utf16le_replace (encode_utf16le_text s ++ rest)
  = s ++ decode_utf16le_replace rest.
Proof.
  induction 1 as [|c s Hc Hs IH]; [reflexivity|].
  change (encode_utf16le_text (c :: s))
    with (flat_map unit_bytes (utf16_units c) ++ encode_utf16le_text s).
  rewrite <- app_assoc.
  unfold is_scalar, is_high_surrogate, is_low_surrogate in Hc.
  unfold utf16_units.
  destruct (N.ltb_spec c 65536) as [Hbmp|Hsup].
  - change (flat_map unit_bytes [c] ++ ?l)
      with (byte_of_N (c mod 256) :: byte_of_N (c / 256) :: l).
    rewrite decode_utf16le_replace_unit. cbv zeta.
    rewrite code_unit_bytes by exact Hbmp.
    unfold is_low_surrogate, is_high_surrogate.
    destruct (N.leb_spec 56320 c), (N.leb_spec c 57343),
             (N.leb_spec 55296 c), (N.leb_spec c 56319);
      cbn [andb negb] in *; try discriminate; try lia; rewrite IH; reflexivity.
  - assert (c < 1114112)%N as Hmax
      by (destruct (N.ltb_spec c 1114112); [assumption | discriminate]).
    pose proof (N.div_mod (c - 65536) 1024 ltac:(discriminate)) as Hdm.
    assert ((c - 65536) / 1024 < 1024)%N as Hd
      by (apply N.Div0.div_lt_upper_bound; lia).
    assert ((c - 65536) mod 1024 < 1024)%N as Hr by (apply N.mod_lt; discriminate).
    set (d := ((c - 65536) / 1024)%N) in *.
    set (r := ((c - 65536) mod 1024)%N) in *.
    clearbody d r.
    change (flat_map unit_bytes [(55296 + d)%N; (56320 + r)%N] ++ ?l)
      with (byte_of_N ((55296 + d) mod 256) :: byte_of_N ((55296 + d) / 256)
            :: byte_of_N ((56320 + r) mod 256) :: byte_of_N ((56320 + r) / 256) :: l).
    rewrite decode_utf16le_replace_unit. cbv zeta.
    rewrite !code_unit_bytes by lia.
    unfold is_low_surrogate, is_high_surrogate.
    destruct (N.leb_spec 56320 (55296 + d)); [lia|]. cbn [andb].
    destruct (N.leb_spec 55296 (55296 + d)); [|lia].
    destruct (N.leb_spec (55296 + d) 56319); [|lia]. cbn [andb].
    destruct (N.leb_spec 56320 (56320 + r)); [|lia].
    destruct (N.leb_spec (56320 + r) 57343); [|lia]. cbn [andb].
    rewrite IH. cbn [app]. f_equal. lia.
Qed.

End EncodedStringRoundTrip.

Lemma read_encode_compressed (s : pystr) (fullpath file_offset : value) (w : world) :
  s <> [] ->
  Forall (fun c => (c < 256)%N) s ->
  no_trailing_nul s ->
  read_cim_encoded_string (encode_compressed s) 0
    (Z.of_nat (length (encode_compressed s))) fullpath file_offset w
  = (Ok (Some s), w).
Proof.
  intros Hne Hchars Hlast.
  unfold read_cim_encoded_string.
  destruct s as [|c s]; [contradiction|].
  change (encode_compressed (c :: s))
    with (x00 :: (byte_of_N c :: map byte_of_N s ++ [x00])).
  set (body := byte_of_N c :: map byte_of_N s ++ [x00]).
  assert (length body = S (length s + 1)) as Hbody
    by (unfold body; cbn [length]; rewrite length_app, length_map; reflexivity).
  destruct (Z.eqb_spec (Z.of_nat (length (x00 :: body)) - 0) 2) as [H2|_];
    [cbn [length] in H2; lia|].
  destruct (Z.ltb_spec (Z.of_nat (length (x00 :: body))) 0); [lia|].
  rewrite slice_one by lia. cbn [Z.to_nat lookup list_lookup].
  rewrite bool_decide_eq_true_2 by reflexivity. cbn [orb negb].
  rewrite (bool_decide_eq_false_2 ([x00] = [x01])) by discriminate.
  replace (0 + 2) with (0 + 1 + 1) by lia.
  rewrite slice_one by lia.
  change ((x00 :: body) !! Z.to_nat (0 + 1)) with (Some (byte_of_N c)).
  rewrite bool_decide_eq_false_2 by discriminate.
  change (0 + 1) with 1. rewrite slice_tail.
  unfold decode_cim_encoded_string.
  assert (rstrip is_nul_byte body = map byte_of_N (c :: s)) as ->.
  { unfold body. rewrite app_comm_cons.
    apply rstrip_terminated; [reflexivity|].
    change (byte_of_N c :: map byte_of_N s) with (map byte_of_N (c :: s)).
    intros y Hy. rewrite last_map in Hy.
    destruct (last (c :: s)) as [z|] eqn:Hz; [|discriminate].
    injection Hy as <-.
    assert (z ∈ c :: s) as Hin
      by (rewrite last_lookup in Hz; eapply list_elem_of_lookup_2; exact Hz).
    rewrite Forall_forall in Hchars.
    apply byte_of_N_nul; [exact (Hchars z Hin)|].
    intros ->. apply Hlast. exact Hz. }
  rewrite getitem_all.
  rewrite chr_byte_of_N by exact Hchars. reflexivity.
Qed.

(** X2: a non-empty text of characters below 256 that does not end with a
    zero character, written as a compressed Encoded-String anywhere in the
    blob, is read back unchanged, and nothing is printed. *)
Theorem compressed_round_trip (pre post : list byte) (s : pystr)
  (fullpath file_offset : value) (w : world) :
  s <> [] ->
  Forall (fun c => (c < 256)%N) s ->
  no_trailing_nul s ->
  read_cim_encoded_string (pre ++ encode_compressed s ++ post)
    (Z.of_nat (length pre))
    (Z.of_nat (length pre) + Z.of_nat (length (encode_compressed s)))
    fullpath file_offset w
  = (Ok (Some s), w).
Proof.
  intros Hne Hchars Hlast.
  rewrite read_cim_encoded_string_middle
    by (unfold encode_compressed; cbn [length]; rewrite length_app; cbn [length]; lia).
  apply read_encode_compressed; assumption.
Qed.

Lemma compressed_round_trip_witness :
  read_cim_encoded_string
    ([x00; x00] ++ encode_compressed (str_of_string "FlashUtil.exe") ++ [x00; x00])
    2 17 VNone VNone (open_file [])
  = (Ok (Some (str_of_string "FlashUtil.exe")), open_file []).
Proof.
  apply (compressed_round_trip [x00; x00] [x00; x00] (str_of_string "FlashUtil.exe")
           VNone VNone (open_file [])).
  - discriminate.
  - repeat constructor.
  - unfold no_trailing_nul. vm_compute. discriminate.
Defined.

Lemma read_encode_uncompressed (s : pystr) (fullpath file_offset : value) (w : world) :
  Forall (fun c => is_scalar c = true) s ->
  no_trailing_nul s ->
  read_cim_encoded_string (encode_uncompressed s) 0
    (Z.of_nat (length (encode_uncompressed s))) fullpath file_offset w
  = (Ok (Some s), w).
Proof.
  intros Hchars Hlast.
  unfold read_cim_encoded_string, encode_uncompressed.
  set (body := encode_utf16le_text s ++ [x00; x00]).
  assert (2 <= length body)%nat as Hbody
    by (unfold body; rewrite length_app; cbn [length]; lia).
  destruct (Z.eqb_spec (Z.of_nat (length (x01 :: body)) - 0) 2) as [H2|_];
    [cbn [length] in H2; lia|].
  destruct (Z.ltb_spec (Z.of_nat (length (x01 :: body))) 0); [lia|].
  rewrite slice_one by lia. cbn [Z.to_nat lookup list_lookup].
  rewrite (bool_decide_eq_false_2 ([x01] = [x00])) by discriminate.
  rewrite bool_decide_eq_true_2 by reflexivity. cbn [orb negb].
  replace (0 + 2) with (0 + 1 + 1) by lia.
  rewrite slice_one by lia.
  destruct body as [|b body'] eqn:Hb; [cbn in Hbody; lia|].
  change ((x01 :: b :: body') !! Z.to_nat (0 + 1)) with (Some b).
  rewrite bool_decide_eq_false_2 by discriminate.
  change (0 + 1) with 1. rewrite slice_tail. rewrite <- Hb.
  unfold decode_cim_encoded_string, body.
  rewrite decode_utf16le_replace_text by exact Hchars.
  change (decode_utf16le_replace [x00; x00]) with [0%N].
  rewrite rstrip_terminated; [reflexivity | reflexivity |].
  intros y Hy. unfold is_nul_char.
  destruct (N.eqb_spec y 0) as [->|]; [|reflexivity].
  exfalso. apply Hlast. exact Hy.
Qed.

(** X3: any text of code points that UTF-16 can carry and that does not end
    with a zero character, the empty text included, written as an
    uncompressed Encoded-String anywhere in the blob, is read back unchanged;
    a code point above U+FFFF comes back from its surrogate pair. *)
Theorem uncompressed_round_trip (pre post : list byte) (s : pystr)
  (fullpath file_offset : value) (w : world) :
  Forall (fun c => is_scalar c = true) s ->
  no_trailing_nul s ->
  read_cim_encoded_string (pre ++ encode_uncompressed s ++ post)
    (Z.of_nat (length pre))
    (Z.of_nat (length pre) + Z.of_nat (length (encode_uncompressed s)))
    fullpath file_offset w
  = (Ok (Some s), w).
Proof.
  intros Hchars Hlast.
  rewrite read_cim_encoded_string_middle
    by (unfold encode_uncompressed; cbn [length]; rewrite length_app; cbn; lia).
  apply read_encode_uncompressed; assumption.
Qed.

Lemma uncompressed_round_trip_witness :
  read_cim_encoded_string
    ([x00] ++ encode_uncompressed [65; 8364; 128512]%N ++ [x00])
    1 12 VNone VNone (open_file [])
  = (Ok (Some [65; 8364; 128512]%N), open_file []).
Proof.
  apply (uncompressed_round_trip [x00] [x00] [65; 8364; 128512]%N
           VNone VNone (open_file [])).
  - repeat constructor.
  - unfold no_trailing_nul. vm_compute. discriminate.
Defined.

Lemma read_cim_encoded_string_local_witness :
  read_cim_encoded_string [x07; x07; x00; x41; x42; x00; x43]
    2 6 VNone VNone (open_file [])
  = read_cim_encoded_string [x00; x41; x42; x00] 0 4 VNone VNone (open_file []).
Proof.
  apply (read_cim_encoded_string_local [x07; x07; x00; x41; x42; x00; x43] 2 6
           VNone VNone (open_file [])); cbn [length]; lia.
Defined.

Section DecodedText.

Lemma rstrip_last {A} (is_c : A -> bool) (s : list A) (x : A) :
  last (rstrip is_c s) = Some x -> is_c x = false.
Proof.
  induction s as [|y s IH]; [discriminate|].
  cbn [rstrip]. destruct (rstrip is_c s) as [|z rest] eqn:Hr.
  - destruct (is_c y) eqn:Hy; [discriminate|]. intros [= <-]. exact Hy.
  - intros Hl. apply IH. exact Hl.
Qed.

Lemma chr_nul (b : byte) : chr b = 0%N -> is_nul_byte b = true.
Proof.
  unfold chr, is_nul_byte. intros Hb.
  assert (b = x00) as ->; [|reflexivity].
  pose proof (Byte.of_to_N b) as H1. rewrite Hb in H1.
  cbn in H1. congruence.
Qed.

Lemma decode_cim_encoded_string_zero (buf : list byte) (uncompressed : bool)
  (fullpath file_offset : value) (w : world) :
  exists s,
    decode_cim_encoded_string buf 0 uncompressed fullpath file_offset w = (Ok (Some s), w)
    /\ no_trailing_nul s
    /\ (uncompressed = false -> Forall (fun c => (c < 256)%N) s).
Proof.
  unfold decode_cim_encoded_string. destruct uncompressed.
  - eexists. split; [reflexivity|]. split; [|discriminate].
    intros Hl. apply rstrip_last in Hl. discriminate.
  - rewrite getitem_all. eexists. split; [reflexivity|]. split.
    + intros Hl. rewrite last_map in Hl.
      destruct (last (rstrip is_nul_byte buf)) as [b|] eqn:Hb; [|discriminate].
      injection Hl as Hl. apply chr_nul in Hl.
      apply rstrip_last in Hb. congruence.
    + intros _. apply Forall_forall. intros c Hc.
      apply list_elem_of_In, in_map_iff in Hc as (b & <- & _).
      unfold chr. pose proof (Byte.to_N_bounded b). lia.
Qed.

End DecodedText.

(** X4: reading a field never raises and never touches the file.  It prints
    at most one line, the one about the flag, and then the value is [None];
    the line about a string that could not be decoded is never printed.  A
    text it returns does not end with a zero character, and under flag 0x00
    all its characters are below 256. *)
Theorem read_cim_encoded_string_outcomes (buf : list byte) (start end_ : Z)
  (fullpath file_offset : value) (w : world) :
  (exists raw,
     read_cim_encoded_string buf start end_ fullpath file_offset w
     = (Ok None, printed (Unexpected_flag raw file_offset fullpath) w))
  \/ read_cim_encoded_string buf start end_ fullpath file_offset w = (Ok None, w)
  \/ (exists s,
        read_cim_encoded_string buf start end_ fullpath file_offset w = (Ok (Some s), w)
        /\ no_trailing_nul s
        /\ (Py.slice buf start (start + 1) = [x00] -> Forall (fun c => (c < 256)%N) s)).
Proof.
  unfold read_cim_encoded_string.
  destruct (_ =? 2); [right; left; reflexivity|].
  destruct (_ <? start); [right; left; reflexivity|].
  destruct (negb _) eqn:Hflag; [left; eexists; reflexivity|].
  destruct (bool_decide (Py.slice buf (start + 1) (start + 2) = []));
    [right; left; reflexivity|].
  right; right.
  destruct (decode_cim_encoded_string_zero (Py.slice buf (start + 1) end_)
              (bool_decide (Py.slice buf start (start + 1) = [x01]))
              fullpath file_offset w) as (s & Hs & Hnul & Hchars).
  exists s. split; [exact Hs|]. split; [exact Hnul|].
  intros H0. apply Hchars. rewrite H0. reflexivity.
Qed.

(** ** Structs: acceptance, ranges and round trip *)

Section Structs.

Lemma slice_length {A} (l : list A) (a b : Z) :
  0 <= a -> 0 <= b ->
  Z.of_nat (length (Py.slice l a b))
  = Z.max 0 (Z.min b (Z.of_nat (length l)) - Z.min a (Z.of_nat (length l))).
Proof.
  intros Ha Hb. unfold Py.slice, Py.slice_index.
  destruct (Z.ltb_spec a 0); [lia|]. destruct (Z.ltb_spec b 0); [lia|].
  rewrite length_take, length_drop. lia.
Qed.

Lemma unpack_fields_length (fs : list fmt) (buf : list byte) :
  length (unpack_fields fs buf) = length (value_formats fs).
Proof.
  revert buf. induction fs as [|f fs IH]; intros buf; [reflexivity|].
  unfold value_formats in *. cbn [unpack_fields filter].
  destruct f; cbn [fmt_is_pad negb length]; rewrite ?IH; reflexivity.
Qed.

Lemma le_int_2_range (bs : list byte) :
  length bs = 2%nat -> - 2 ^ 15 <= Py.le_int bs < 2 ^ 15.
Proof.
  intros Hlen. pose proof (le_int_range bs) as H. rewrite Hlen in H.
  change (256 ^ Z.of_nat 2) with 65536 in H.
  destruct bs; [discriminate|]. specialize (H ltac:(discriminate)). lia.
Qed.

Lemma unpack_fields_range (fs : list fmt) (buf : list byte) :
  length buf = calcsize fs ->
  Forall2 fmt_range (value_formats fs) (unpack_fields fs buf).
Proof.
  revert buf. induction fs as [|f fs IH]; intros buf Hlen; [constructor|].
  cbn [calcsize] in Hlen.
  assert (length (take (fmt_size f) buf) = fmt_size f) as Htake
    by (rewrite length_take; lia).
  assert (length (drop (fmt_size f) buf) = calcsize fs) as Hdrop
    by (rewrite length_drop; lia).
  specialize (IH _ Hdrop).
  unfold value_formats in *. cbn [unpack_fields filter].
  pose proof (le_uint_range (take (fmt_size f) buf)) as Hu. rewrite Htake in Hu.
  destruct f; cbn [fmt_is_pad negb fmt_size] in *.
  - constructor; [|exact IH]. cbn. change (256 ^ Z.of_nat 8) with (2 ^ 64) in Hu. lia.
  - constructor; [|exact IH]. cbn. change (256 ^ Z.of_nat 4) with (2 ^ 32) in Hu. lia.
  - constructor; [|exact IH]. cbn. apply le_int_2_range. exact Htake.
  - exact IH.
Qed.

Lemma le_bytes_length (n : nat) (v : Z) : length (Sample.le_bytes n v) = n.
Proof.
  revert v. induction n as [|n IH]; intros v; [reflexivity|].
  cbn [Sample.le_bytes].
  destruct (Byte.of_N (Z.to_N (v mod 256))) as [b|] eqn:Hb.
  - cbn [length]. rewrite IH. reflexivity.
  - apply Byte.of_N_None_iff in Hb.
    pose proof (Z.mod_pos_bound v 256 ltac:(lia)). lia.
Qed.

Lemma le_uint_le_bytes (n : nat) (v : Z) :
  Py.le_uint (Sample.le_bytes n v) = v mod 256 ^ Z.of_nat n.
Proof.
  revert v. induction n as [|n IH]; intros v.
  - cbn. rewrite Z.mod_1_r. reflexivity.
  - cbn [Sample.le_bytes].
    pose proof (Z.mod_pos_bound v 256 ltac:(lia)) as Hm.
    destruct (Byte.of_N (Z.to_N (v mod 256))) as [b|] eqn:Hb.
    + cbn [Py.le_uint]. rewrite IH. unfold Py.byte_val.
      apply Byte.to_of_N in Hb. rewrite Hb, Z2N.id by lia.
      rewrite Nat2Z.inj_succ, Z.pow_succ_r by lia.
      rewrite Z.rem_mul_r by lia. reflexivity.
    + apply Byte.of_N_None_iff in Hb. lia.
Qed.

Lemma le_int_le_bytes (n : nat) (v : Z) :
  (0 < n)%nat ->
  - 256 ^ Z.of_nat n <= 2 * v < 256 ^ Z.of_nat n ->
  Py.le_int (Sample.le_bytes n v) = v.
Proof.
  intros Hn Hv. unfold Py.le_int. rewrite le_bytes_length, le_uint_le_bytes.
  set (m := 256 ^ Z.of_nat n) in *.
  assert (0 < m) by (apply Z.pow_pos_nonneg; lia).
  destruct (Z.le_gt_cases 0 v).
  - rewrite Z.mod_small by lia. destruct (Z.ltb_spec (2 * v) m); lia.
  - replace (v mod m) with (v + m).
    + destruct (Z.ltb_spec (2 * (v + m)) m); lia.
    + apply Z.mod_unique with (-1); lia.
Qed.

Lemma pack_length (fs : list fmt) (vals : list Z) :
  length vals = length (value_formats fs) ->
  length (pack fs vals) = calcsize fs.
Proof.
  revert vals. unfold value_formats.
  induction fs as [|f fs IH]; intros vals Hlen; [reflexivity|].
  cbn [filter] in Hlen.
  destruct f; cbn [fmt_is_pad negb length] in Hlen;
    try (destruct vals as [|v vals]; [discriminate|]; injection Hlen as Hlen);
    cbn [pack calcsize fmt_size]; rewrite length_app, ?le_bytes_length,
      ?repeat_length, (IH _ Hlen); reflexivity.
Qed.

Lemma unpack_fields_pack (fs : list fmt) (vals : list Z) :
  Forall2 fmt_range (value_formats fs) vals ->
  unpack_fields fs (pack fs vals) = vals.
Proof.
  revert vals. unfold value_formats.
  induction fs as [|f fs IH]; intros vals Hall.
  - inversion Hall. reflexivity.
  - cbn [filter] in Hall.
    destruct f; cbn [fmt_is_pad negb] in Hall.
    + inversion Hall as [|? v ? vals' Hv Hrest]; subst.
      cbn [pack unpack_fields fmt_size].
      rewrite take_app_length', drop_app_length' by (symmetry; apply le_bytes_length).
      rewrite le_uint_le_bytes, (IH _ Hrest).
      cbn in Hv. change (256 ^ Z.of_nat 8) with (2 ^ 64).
      rewrite Z.mod_small by lia. reflexivity.
    + inversion Hall as [|? v ? vals' Hv Hrest]; subst.
      cbn [pack unpack_fields fmt_size].
      rewrite take_app_length', drop_app_length' by (symmetry; apply le_bytes_length).
      rewrite le_uint_le_bytes, (IH _ Hrest).
      cbn in Hv. change (256 ^ Z.of_nat 4) with (2 ^ 32).
      rewrite Z.mod_small by lia. reflexivity.
    + inversion Hall as [|? v ? vals' Hv Hrest]; subst.
      cbn [pack unpack_fields fmt_size].
      rewrite take_app_length', drop_app_length' by (symmetry; apply le_bytes_length).
      rewrite le_int_le_bytes, (IH _ Hrest); [reflexivity | lia |].
      cbn in Hv. change (256 ^ Z.of_nat 2) with 65536. lia.
    + cbn [pack unpack_fields fmt_size].
      rewrite drop_app_length' by (symmetry; apply repeat_length).
      apply IH. exact Hall.
Qed.

Lemma fst_combine {A B} (l : list A) (k : list B) :
  (length l <= length k)%nat -> (combine l k).*1 = l.
Proof.
  revert k. induction l as [|x l IH]; intros [|y k] Hlen; cbn in *; try reflexivity;
    try lia.
  f_equal. apply IH. lia.
Qed.

Lemma snd_combine {A B} (l : list A) (k : list B) :
  (length k <= length l)%nat -> (combine l k).*2 = k.
Proof.
  revert k. induction l as [|x l IH]; intros [|y k] Hlen;
    cbn in *; try reflexivity; try lia.
  rewrite IH by lia. reflexivity.
Qed.

Lemma filter_map_length {A B} (f : A -> B) (P : B -> bool) (l : list A) :
  length (filter (fun x => P (f x)) l) = length (filter (fun y => P y) (map f l)).
Proof.
  induction l as [|x l IH]; [reflexivity|].
  cbn [map]. rewrite !filter_cons.
  destruct (decide (P (f x))); cbn [length]; lia.
Qed.

Lemma field_names_length (ns : NamedStruct.t) :
  length (NamedStruct.field_names ns) = length (value_formats (NamedStruct.formats ns)).
Proof.
  unfold NamedStruct.field_names, NamedStruct.formats, value_formats.
  rewrite length_map.
  exact (filter_map_length snd (fun f => negb (fmt_is_pad f)) ns).
Qed.

End Structs.

Lemma namedstruct_parse_eq (ns : NamedStruct.t) (buf : list byte) (offset : nat) :
  NamedStruct.parse ns buf (Z.of_nat offset)
  = if (length (take (NamedStruct.size ns) (drop offset buf)) =? NamedStruct.size ns)%nat
    then Some (combine (NamedStruct.field_names ns)
                 (unpack_fields (NamedStruct.formats ns)
                    (take (NamedStruct.size ns) (drop offset buf))))
    else None.
Proof.
  assert (Py.slice buf (Z.of_nat offset) (Z.of_nat (NamedStruct.size ns) + Z.of_nat offset)
          = take (NamedStruct.size ns) (drop offset buf)) as Hslice.
  { unfold Py.slice, Py.slice_index.
    destruct (Z.ltb_spec (Z.of_nat offset) 0); [lia|].
    destruct (Z.ltb_spec (Z.of_nat (NamedStruct.size ns) + Z.of_nat offset) 0); [lia|].
    destruct (Nat.le_gt_cases offset (length buf)) as [Hin|Hout].
    - rewrite (Z.min_l (Z.of_nat offset)) by lia. rewrite Nat2Z.id.
      destruct (Nat.le_gt_cases (offset + NamedStruct.size ns) (length buf)).
      + rewrite Z.min_l by lia. f_equal. lia.
      + rewrite Z.min_r by lia.
        rewrite (take_ge _ (NamedStruct.size ns)) by (rewrite length_drop; lia).
        apply take_ge. rewrite length_drop. lia.
    - rewrite (Z.min_r (Z.of_nat offset)) by lia. rewrite Z.min_r by lia.
      rewrite Z.sub_diag, Nat2Z.id. rewrite !drop_ge by lia.
      rewrite !take_nil. reflexivity. }
  unfold NamedStruct.parse. rewrite Hslice. unfold unpack.
  fold (NamedStruct.size ns).
  destruct (_ =? _)%nat; reflexivity.
Qed.

(** X5: [NamedStruct.parse] at a non-negative offset fails exactly when fewer
    than [size] bytes lie at the offset; bytes after those [size] bytes are
    ignored, and a success gives one value per field that is not padding. *)
Theorem namedstruct_parse_accepts (ns : NamedStruct.t) (buf : list byte) (offset : nat) :
  (NamedStruct.parse ns buf (Z.of_nat offset) = None
   <-> (length (drop offset buf) < NamedStruct.size ns)%nat)
  /\ (forall d,
        NamedStruct.parse ns buf (Z.of_nat offset) = Some d ->
        length d = length (NamedStruct.field_names ns)
        /\ d.*1 = NamedStruct.field_names ns
        /\ forall extra,
             NamedStruct.parse ns (buf ++ extra) (Z.of_nat offset) = Some d).
Proof.
  rewrite namedstruct_parse_eq.
  assert (length (take (NamedStruct.size ns) (drop offset buf))
          = Nat.min (NamedStruct.size ns) (length (drop offset buf))) as Hlen
    by (rewrite length_take; reflexivity).
  split.
  - destruct (Nat.eqb_spec (length (take (NamedStruct.size ns) (drop offset buf)))
                (NamedStruct.size ns)) as [He|Hn].
    + split; [discriminate | lia].
    + split; [lia | reflexivity].
  - intros d.
    destruct (Nat.eqb_spec (length (take (NamedStruct.size ns) (drop offset buf)))
                (NamedStruct.size ns)) as [He|Hn]; [|discriminate].
    intros [= <-]. split; [|split].
    + rewrite length_combine, unpack_fields_length, field_names_length. lia.
    + apply fst_combine.
      rewrite unpack_fields_length, field_names_length. lia.
    + intros extra. rewrite namedstruct_parse_eq.
      assert (take (NamedStruct.size ns) (drop offset (buf ++ extra))
              = take (NamedStruct.size ns) (drop offset buf)) as ->.
      { destruct (Nat.le_gt_cases offset (length buf)).
        - rewrite drop_app_le by lia.
          rewrite take_app_le by lia. reflexivity.
        - rewrite (drop_ge buf) in * by lia. cbn [length] in *.
          assert (NamedStruct.size ns = 0)%nat as -> by lia. reflexivity. }
      destruct (Nat.eqb_spec (length (take (NamedStruct.size ns) (drop offset buf)))
                  (NamedStruct.size ns)); [reflexivity | contradiction].
Qed.

(** X6: every value [NamedStruct.parse] returns lies in the range of its
    format: 'Q' in [0, 2^64), 'I' in [0, 2^32), 'h' in [-2^15, 2^15). *)
Theorem namedstruct_parse_ranges (ns : NamedStruct.t) (buf : list byte) (offset : nat)
  (d : list (string * Z)) :
  NamedStruct.parse ns buf (Z.of_nat offset) = Some d ->
  Forall2 fmt_range (value_formats (NamedStruct.formats ns)) d.*2.
Proof.
  rewrite namedstruct_parse_eq.
  destruct (Nat.eqb_spec (length (take (NamedStruct.size ns) (drop offset buf)))
              (NamedStruct.size ns)) as [Hsize|]; [|discriminate].
  intros [= <-].
  pose proof (unpack_fields_range (NamedStruct.formats ns) _ Hsize) as Hr.
  rewrite snd_combine; [exact Hr|].
  rewrite unpack_fields_length, field_names_length. lia.
Qed.

(** X7: values that fit their formats, laid out by [pack] anywhere in a
    buffer, are the values [NamedStruct.parse] returns at that offset, under
    the names of the fields that are not padding. *)
Theorem namedstruct_round_trip (ns : NamedStruct.t) (vals : list Z)
  (pre post : list byte) :
  Forall2 fmt_range (value_formats (NamedStruct.formats ns)) vals ->
  NamedStruct.parse ns (pre ++ pack (NamedStruct.formats ns) vals ++ post)
    (Z.of_nat (length pre))
  = Some (combine (NamedStruct.field_names ns) vals).
Proof.
  intros Hvals.
  pose proof (pack_length (NamedStruct.formats ns) vals
                (eq_sym (Forall2_length _ _ _ Hvals))) as Hlen.
  fold (NamedStruct.size ns) in Hlen.
  rewrite namedstruct_parse_eq.
  rewrite drop_app_length, take_app_length' by (symmetry; exact Hlen).
  rewrite Hlen, Nat.eqb_refl.
  rewrite unpack_fields_pack by exact Hvals. reflexivity.
Qed.

Lemma namedstruct_round_trip_witness :
  NamedStruct.parse RUA_RECORD_HEADER
    ([x07] ++ pack (NamedStruct.formats RUA_RECORD_HEADER)
                [131723359061027940; 131599838211786410; 1024] ++ [x07; x07]) 1
  = Some [("last_updated", 131723359061027940);
          ("last_joined_sccm", 131599838211786410);
          ("record_size", 1024)].
Proof.
  apply (namedstruct_round_trip RUA_RECORD_HEADER
           [131723359061027940; 131599838211786410; 1024] [x07] [x07; x07]).
  repeat constructor; cbn; lia.
Defined.

Lemma namedstruct_parse_ranges_witness :
  Forall2 fmt_range [Fmt_Q; Fmt_Q; Fmt_I]
    [131723359061027940; 131599838211786410; 1024].
Proof.
  apply (namedstruct_parse_ranges RUA_RECORD_HEADER
           (Sample.header 131723359061027940 131599838211786410 1024) 0
           [("last_updated", 131723359061027940);
            ("last_joined_sccm", 131599838211786410);
            ("record_size", 1024)]).
  vm_compute. reflexivity.
Defined.

(** ** The scanner: what it finds and what it cannot miss *)

Section Finditer.

Context (alts : list (list byte)) (Hne : Forall (fun alt => alt <> []) alts).

Lemma match_here_Some (data : list byte) (n : nat) :
  match_here alts data = Some n ->
  exists alt, alt ∈ alts /\ length alt = n /\ occurs_at alt data 0 /\ (0 < n <= length data)%nat.
Proof.
  unfold match_here. destruct (List.find _ alts) as [alt|] eqn:Hfind; [|discriminate].
  intros [= <-]. apply find_some in Hfind as [Hin Hpre].
  unfold is_prefix in Hpre. apply bool_decide_eq_true_1 in Hpre.
  apply list_elem_of_In in Hin.
  exists alt. split; [exact Hin|]. split; [reflexivity|]. split; [exact Hpre|].
  rewrite Forall_forall in Hne. specialize (Hne alt Hin).
  apply (f_equal length) in Hpre. rewrite length_take in Hpre.
  destruct alt; [contradiction|]. cbn [length] in *. lia.
Qed.

Lemma match_here_None (data : list byte) (alt : list byte) :
  match_here alts data = None -> alt ∈ alts -> ~ occurs_at alt data 0.
Proof.
  unfold match_here. destruct (List.find _ alts) as [?|] eqn:Hfind; [discriminate|].
  intros _ Hin Hocc. apply list_elem_of_In in Hin.
  pose proof (find_none _ _ Hfind alt Hin) as Hf. cbn beta in Hf.
  unfold is_prefix in Hf. apply bool_decide_eq_false_1 in Hf.
  apply Hf. exact Hocc.
Qed.

Lemma finditer_from_sound (data : list byte) :
  forall pos skip m,
    m ∈ finditer_from alts pos skip data ->
    (pos + skip <= m.1)%nat
    /\ (m.2 <= pos + length data)%nat
    /\ exists alt, alt ∈ alts /\ m.2 = (m.1 + length alt)%nat
                   /\ occurs_at alt data (m.1 - pos).
Proof.
  induction data as [|b data IH]; intros pos skip m Hin; [inversion Hin|].
  assert (forall pos' skip',
            (pos' = S pos) ->
            m ∈ finditer_from alts pos' skip' data ->
            (pos + S skip' <= m.1)%nat
            /\ (m.2 <= pos + length (b :: data))%nat
            /\ exists alt, alt ∈ alts /\ m.2 = (m.1 + length alt)%nat
                           /\ occurs_at alt (b :: data) (m.1 - pos)) as Hstep.
  { intros pos' skip' -> Hm.
    destruct (IH _ _ _ Hm) as (H1 & H2 & alt & Ha & Hl & Ho).
    split; [lia|]. split; [cbn [length]; lia|].
    exists alt. split; [exact Ha|]. split; [exact Hl|].
    unfold occurs_at in *.
    replace (m.1 - pos)%nat with (S (m.1 - S pos)) by lia. exact Ho. }
  cbn [finditer_from] in Hin. destruct skip as [|skip].
  - destruct (match_here alts (b :: data)) as [n|] eqn:Hn.
    + apply elem_of_cons in Hin as [->|Hin].
      * destruct (match_here_Some _ _ Hn) as (alt & Ha & Hl & Ho & Hb).
        cbn [fst snd]. split; [lia|]. split; [lia|].
        exists alt. split; [exact Ha|]. split; [lia|].
        rewrite Nat.sub_diag. exact Ho.
      * destruct (Hstep _ _ eq_refl Hin) as (H1 & H2 & H3).
        split; [lia|]. split; [exact H2 | exact H3].
    + destruct (Hstep _ _ eq_refl Hin) as (H1 & H2 & H3).
      split; [lia|]. split; [exact H2 | exact H3].
  - exact (Hstep _ _ eq_refl Hin).
Qed.

Lemma finditer_from_ordered (data : list byte) :
  forall pos skip i m m',
    finditer_from alts pos skip data !! i = Some m ->
    finditer_from alts pos skip data !! S i = Some m' ->
    (m.2 <= m'.1)%nat.
Proof.
  induction data as [|b data IH]; intros pos skip i m m' Hm Hm'; [discriminate|].
  cbn [finditer_from] in Hm, Hm'. destruct skip as [|skip]; [|exact (IH _ _ _ _ _ Hm Hm')].
  destruct (match_here alts (b :: data)) as [n|] eqn:Hn; [|exact (IH _ _ _ _ _ Hm Hm')].
  destruct i as [|i]; [|exact (IH _ _ _ _ _ Hm Hm')].
  injection Hm as <-. cbn [fst snd].
  destruct (match_here_Some _ _ Hn) as (_ & _ & _ & _ & Hb).
  change ((finditer_from alts (S pos) (n - 1) data) !! 0%nat = Some m') in Hm'.
  apply list_elem_of_lookup_2 in Hm'.
  destruct (finditer_from_sound _ _ _ _ Hm') as (H1 & _). lia.
Qed.

Lemma finditer_from_complete (data : list byte) :
  forall pos skip i alt,
    alt ∈ alts -> occurs_at alt data i -> (skip <= i)%nat ->
    exists m, m ∈ finditer_from alts pos skip data /\ (m.1 <= pos + i < m.2)%nat.
Proof.
  induction data as [|b data IH]; intros pos skip i alt Ha Ho Hi.
  - unfold occurs_at in Ho. rewrite drop_nil, take_nil in Ho.
    rewrite Forall_forall in Hne. exfalso. apply (Hne alt Ha). symmetry. exact Ho.
  - assert (forall skip', (0 < i)%nat -> (skip' <= i - 1)%nat ->
              exists m, m ∈ finditer_from alts (S pos) skip' data
                        /\ (m.1 <= pos + i < m.2)%nat) as Hstep.
    { intros skip' Hpos Hs.
      destruct (IH (S pos) skip' (i - 1)%nat alt Ha) as (m & Hm & Hr).
      - unfold occurs_at in *. replace i with (S (i - 1)) in Ho by lia. exact Ho.
      - exact Hs.
      - exists m. split; [exact Hm | lia]. }
    cbn [finditer_from]. destruct skip as [|skip].
    + destruct (match_here alts (b :: data)) as [n|] eqn:Hn.
      * destruct (match_here_Some _ _ Hn) as (_ & _ & _ & _ & Hb).
        destruct (Nat.lt_ge_cases i n) as [Hlt|Hge].
        -- exists (pos, (pos + n)%nat). split; [apply list_elem_of_here|].
           cbn [fst snd]. lia.
        -- destruct (Hstep (n - 1)%nat) as (m & Hm & Hr); [lia | lia |].
           exists m. split; [apply list_elem_of_further; exact Hm | exact Hr].
      * destruct i as [|i].
        -- exfalso. exact (match_here_None _ _ Hn Ha Ho).
        -- apply Hstep; lia.
    + apply Hstep; lia.
Qed.

End Finditer.

Lemma pattern_alternatives_nonempty :
  Forall (fun alt => alt <> []) (regex_alternatives pattern).
Proof. rewrite pattern_alternatives. repeat constructor; discriminate. Qed.

(** X8: every match the scanner returns lies inside the buffer and is a true
    occurrence: the 128 bytes of the Vista signature, or a zero byte and the
    64 bytes of the XP signature.  The matches come in ascending order and do
    not overlap. *)
Theorem finditer_matches (data : list byte) :
  (forall m,
     m ∈ finditer pattern data ->
     (m.2 <= length data)%nat
     /\ ((m.2 = m.1 + 128)%nat /\ occurs_at (encode_utf16le VISTA_HASH) data m.1
         \/ (m.2 = m.1 + 65)%nat
            /\ occurs_at (x00 :: encode_utf16le XP_HASH) data m.1))
  /\ (forall i m m',
        finditer pattern data !! i = Some m ->
        finditer pattern data !! S i = Some m' ->
        (m.2 <= m'.1)%nat).
Proof.
  split.
  - intros m Hm.
    destruct (finditer_from_sound _ pattern_alternatives_nonempty data 0 0 m Hm)
      as (_ & Hb & alt & Ha & Hl & Ho).
    split; [exact Hb|]. rewrite Nat.sub_0_r in Ho.
    rewrite pattern_alternatives in Ha.
    apply elem_of_cons in Ha as [->|Ha]; [left; split; [exact Hl | exact Ho]|].
    apply elem_of_cons in Ha as [->|Ha]; [right; split; [exact Hl | exact Ho]|].
    inversion Ha.
  - apply (finditer_from_ordered _ pattern_alternatives_nonempty).
Qed.

(** X9: the scanner misses nothing: wherever a signature (for XP, with the
    zero byte in front) occurs in the buffer, a match covers the position
    where it starts.  So the list of matches is empty exactly when the buffer
    holds no occurrence. *)
Theorem finditer_complete (data : list byte) :
  (forall alt i,
     alt ∈ [encode_utf16le VISTA_HASH; x00 :: encode_utf16le XP_HASH] ->
     occurs_at alt data i ->
     exists m, m ∈ finditer pattern data /\ (m.1 <= i < m.2)%nat)
  /\ (finditer pattern data = []
      <-> forall alt i,
            alt ∈ [encode_utf16le VISTA_HASH; x00 :: encode_utf16le XP_HASH] ->
            ~ occurs_at alt data i).
Proof.
  assert (forall alt i,
            alt ∈ [encode_utf16le VISTA_HASH; x00 :: encode_utf16le XP_HASH] ->
            occurs_at alt data i ->
            exists m, m ∈ finditer pattern data /\ (m.1 <= i < m.2)%nat) as Hcomplete.
  { intros alt i Ha Ho. rewrite <- pattern_alternatives in Ha.
    destruct (finditer_from_complete _ pattern_alternatives_nonempty data 0 0 i alt
                Ha Ho ltac:(lia)) as (m & Hm & Hr).
    exists m. split; [exact Hm | lia]. }
  split; [exact Hcomplete|]. split.
  - intros Hnone alt i Ha Ho.
    destruct (Hcomplete alt i Ha Ho) as (m & Hm & _).
    rewrite Hnone in Hm. inversion Hm.
  - intros Hno. destruct (finditer pattern data) as [|m ms] eqn:Hf; [reflexivity|].
    exfalso.
    destruct (finditer_from_sound _ pattern_alternatives_nonempty data 0 0 m)
      as (_ & _ & alt & Ha & _ & Ho).
    + unfold finditer in Hf. rewrite Hf. apply list_elem_of_here.
    + rewrite pattern_alternatives in Ha. exact (Hno alt _ Ha Ho).
Qed.

(** ** Records, from the match to the dictionary *)

Section Records.

Context (os : os_path) (unicode_lower : pystr -> pystr).

Lemma filetime_field_int (r : pydict) (key : string) (a : Z) :
  r !! key = Some (VInt a) -> 0 <= a < 2 ^ 64 ->
  filetime_field r key = Ok (filetime_value a).
Proof.
  intros Hr Ha. unfold filetime_field, filetime_value. rewrite Hr.
  destruct (datetime_from_windows_filetime_total a Ha) as [d ->].
  destruct d; reflexivity.
Qed.

Lemma not_in_names (k : string) :
  k ∉ written_keys ->
  k <> "last_updated" /\ k <> "last_joined_sccm" /\ k <> "full_path"
  /\ k <> "file_extension" /\ k <> "file_size" /\ k <> "launch_count"
  /\ k <> "product_language" /\ k ∉ (decoded_offsets []).*1.
Proof.
  unfold written_keys. rewrite not_elem_of_app, !not_elem_of_cons.
  intros [(? & ? & ? & ? & ? & ? & ? & _) ?]. repeat split; assumption.
Qed.

(** With a complete offset table, [decode_properties] ends with the two
    timestamps converted and the three inline values in the record, and
    touches none but the keys it writes. *)
Lemma decode_properties_complete (record : pydict) (fullpath : value)
  (hash_start a b : Z) (w : world) :
  record !! "last_updated" = Some (VInt a) -> 0 <= a < 2 ^ 64 ->
  record !! "last_joined_sccm" = Some (VInt b) -> 0 <= b < 2 ^ 64 ->
  (89 <= length (unread w))%nat ->
  -1 <= i16 (take 89 (unread w)) 85 ->
  let tbl := take 89 (unread w) in
  exists r w',
    decode_properties os unicode_lower record fullpath hash_start w = (Ok r, w')
    /\ r !! "last_updated" = Some (filetime_value a)
    /\ r !! "last_joined_sccm" = Some (filetime_value b)
    /\ r !! "file_size" = Some (VInt (u32 tbl 5))
    /\ r !! "launch_count" = Some (VInt (u32 tbl 11))
    /\ r !! "product_language" = Some (VInt (u32 tbl 9))
    /\ (forall k, k ∈ (decoded_offsets []).*1 -> exists v, r !! k = Some (opt_str v))
    /\ (forall k, k ∉ written_keys -> r !! k = record !! k).
Proof.
  intros Ha Hra Hb Hrb Hle Hps tbl. fold tbl in Hps.
  unfold decode_properties. unfold mbind at 1, M_bind at 1.
  rewrite get_prop_offsets_full by exact Hle. fold tbl.
  set (record3 := <["product_language" := _]> _).
  rewrite pop_properties_size.
  unfold mbind at 1, M_bind at 1.
  destruct (read_total (Z.min (i16 tbl 85) RUA_MAX_RECORD_SIZE) (advance 89 w))
    as (data & pos & ->); [unfold RUA_MAX_RECORD_SIZE; lia|].
  unfold mbind at 1, M_bind at 1.
  rewrite read_fields_by_ranges.
  match goal with
  | |- context [read_ranges ?pd ?fp ?hs ?rs ?rec ?w0] =>
      destruct (read_ranges_total pd fp hs rs rec w0)
        as (r & more & -> & Hout & Hin & _)
  end.
  rewrite field_ranges_names in Hout, Hin.
  pose proof (sorted_names tbl) as Hperm.
  assert (forall k, k ∉ (decoded_offsets []).*1 -> r !! k = record3 !! k) as Hout'.
  { intros k Hk. apply Hout. rewrite Hperm. exact Hk. }
  assert (forall k, k ∈ (decoded_offsets []).*1 -> exists v, r !! k = Some (opt_str v))
    as Hin'.
  { intros k Hk. apply Hin. rewrite Hperm. exact Hk. }
  clear Hout Hin.
  assert (forall k : string,
            k ∈ ["last_updated"; "last_joined_sccm"; "file_size"; "launch_count";
                 "product_language"] ->
            k ∉ (decoded_offsets []).*1) as Hfresh.
  { intros k Hk.
    repeat (apply elem_of_cons in Hk as [->|Hk];
            [cbn; rewrite !not_elem_of_cons; repeat split; try discriminate;
             apply not_elem_of_nil|]).
    inversion Hk. }
  assert (r !! "last_updated" = Some (VInt a)) as Hlu.
  { rewrite Hout' by (apply Hfresh; in_names).
    unfold record3. rewrite !lookup_insert_ne by discriminate. exact Ha. }
  assert (r !! "last_joined_sccm" = Some (VInt b)) as Hlj.
  { rewrite Hout' by (apply Hfresh; in_names).
    unfold record3. rewrite !lookup_insert_ne by discriminate. exact Hb. }
  assert (exists s, get_text r "folder_path" = Ok s) as [folder Hfolder].
  { destruct (Hin' "folder_path") as [v Hv]; [in_names|].
    unfold get_text. rewrite Hv. destruct v; cbn; eauto. }
  assert (exists s, get_text r "explorer_filename" = Ok s) as [fname Hfname].
  { destruct (Hin' "explorer_filename") as [v Hv]; [in_names|].
    unfold get_text. rewrite Hv. destruct v; cbn; eauto. }
  unfold parse_fields.
  rewrite (filetime_field_int r _ a Hlu Hra).
  rewrite (filetime_field_int _ _ b)
    by (first [rewrite lookup_insert_ne by discriminate; exact Hlj | exact Hrb]).
  rewrite !get_text_insert_ne, Hfolder, Hfname by discriminate.
  eexists _, _. split; [reflexivity|].
  split; [rewrite !lookup_insert_ne by discriminate; apply lookup_insert_eq|].
  split; [rewrite !lookup_insert_ne by discriminate; apply lookup_insert_eq|].
  split; [|split; [|split; [|split]]].
  - rewrite !lookup_insert_ne by discriminate.
    rewrite Hout' by (apply Hfresh; in_names). unfold record3.
    rewrite !lookup_insert_ne by discriminate. apply lookup_insert_eq.
  - rewrite !lookup_insert_ne by discriminate.
    rewrite Hout' by (apply Hfresh; in_names). unfold record3.
    rewrite !lookup_insert_ne by discriminate. apply lookup_insert_eq.
  - rewrite !lookup_insert_ne by discriminate.
    rewrite Hout' by (apply Hfresh; in_names). unfold record3.
    apply lookup_insert_eq.
  - intros k Hk. destruct (Hin' k Hk) as [v Hv]. exists v.
    assert (k <> "file_extension" /\ k <> "full_path" /\ k <> "last_joined_sccm"
            /\ k <> "last_updated") as (? & ? & ? & ?).
    { cbn in Hk.
      repeat (apply elem_of_cons in Hk as [->|Hk];
              [repeat split; discriminate|]).
      inversion Hk. }
    rewrite !lookup_insert_ne by congruence. exact Hv.
  - intros k Hk. apply not_in_names in Hk as (? & ? & ? & ? & ? & ? & ? & Hk).
    rewrite !lookup_insert_ne by congruence.
    rewrite Hout' by exact Hk. unfold record3.
    rewrite !lookup_insert_ne by congruence. reflexivity.
Qed.


Lemma vista_type (m : nat * nat) :
  vista_match m ->
  RECENTLY_USED_APPS_TYPES (Z.of_nat m.2 - Z.of_nat m.1) = Some "Vista".
Proof.
  unfold vista_match. intros ->.
  replace (Z.of_nat (m.1 + 128) - Z.of_nat m.1) with 128 by lia. reflexivity.
Qed.

(** A complete table whose [properties_size] is below [-1]: the header is
    read, and the warning printed, as for any record; then [read] refuses
    the length. *)
Lemma process_hit_value_error (m : nat * nat) (type_name : string)
  (fullpath : value) (w : world) :
  RECENTLY_USED_APPS_TYPES (Z.of_nat m.2 - Z.of_nat m.1) = Some type_name ->
  (30 + 89 <= length (drop m.2 (content (file w))))%nat ->
  properties_size_at (content (file w)) m < -1 ->
  let hdr := take 30 (drop m.2 (content (file w))) in
  let record_size := Py.le_uint (take 4 (drop 16 hdr)) in
  process_hit os unicode_lower m fullpath w
  = (Raise ValueError,
     mk_world (mk_fileobj (content (file w)) (m.2 + 30 + 89))
       (stdout w
        ++ if RUA_MAX_RECORD_SIZE <? record_size
           then [Record_size_too_large record_size RUA_MAX_RECORD_SIZE
                   (Z.of_nat m.1) fullpath]
           else [])).
Proof.
  intros Hm Hfull Hneg hdr record_size.
  rewrite (process_hit_header os unicode_lower m type_name fullpath w Hm) by lia.
  cbv zeta. fold hdr. fold record_size.
  set (w0 := if _ <? _ then _ else _).
  assert (unread w0 = drop (m.2 + 30) (content (file w))) as Hunread
    by apply unread_after_header.
  rewrite decode_properties_value_error.
  - unfold w0, advance, printed.
    destruct (RUA_MAX_RECORD_SIZE <? record_size); cbn [file content position stdout];
      rewrite ?app_nil_r; reflexivity.
  - rewrite Hunread. rewrite length_drop in *. lia.
  - rewrite Hunread. exact Hneg.
Qed.

(** What the record of a Vista match holds, by the number of bytes that
    follow the match. *)
Lemma process_hit_vista (m : nat * nat) (fullpath : value) (w w' : world)
  (r : pydict) :
  vista_match m ->
  process_hit os unicode_lower m fullpath w = (Ok r, w') ->
  let avail := length (drop m.2 (content (file w))) in
  r !! "input_file_path" = Some fullpath
  /\ r !! "offset" = Some (VInt (Z.of_nat m.1))
  /\ r !! "record_type" = Some (VStr (str_of_string "Vista"))
  /\ r !! "record_size" = None
  /\ dom r =
       (if (avail <? 30)%nat
        then list_to_set ["input_file_path"; "offset"; "record_type"]
        else if (avail <? 30 + 89)%nat
        then list_to_set ["input_file_path"; "offset"; "record_type";
                          "last_updated"; "last_joined_sccm"]
        else list_to_set CSV_FIELDNAMES).
Proof.
  intros Hm Hrun avail. pose proof (vista_type m Hm) as Htype.
  destruct (Nat.ltb_spec avail 30) as [Hshort|Hhdr].
  - rewrite (process_hit_header_short os unicode_lower m "Vista" fullpath w Htype Hshort)
      in Hrun.
    injection Hrun as <- _.
    unfold initial_record.
    split; [rewrite !lookup_insert_ne by discriminate; apply lookup_insert_eq|].
    split; [rewrite !lookup_insert_ne by discriminate; apply lookup_insert_eq|].
    split; [apply lookup_insert_eq|].
    split; [rewrite !lookup_insert_ne by discriminate; apply lookup_empty|].
    rewrite !dom_insert_L, dom_empty_L.
    match goal with |- ?A = ?B => apply (bool_decide_eq_true_1 (A = B)) end.
    vm_compute. reflexivity.
  - rewrite (process_hit_header os unicode_lower m "Vista" fullpath w Htype Hhdr)
      in Hrun.
    cbv zeta in Hrun. set (hdr := take 30 _) in Hrun.
    destruct (header_record_ticks "Vista" hdr fullpath (Z.of_nat m.1)) as [Hlu Hlj].
    set (w0 := if _ <? _ then _ else _) in Hrun.
    assert (unread w0 = drop (m.2 + 30) (content (file w))) as Hunread
      by apply unread_after_header.
    assert (length (unread w0) = (avail - 30)%nat) as Hlen
      by (rewrite Hunread; unfold avail; rewrite !length_drop; lia).
    assert (forall k : string,
              k ∈ ["input_file_path"; "offset"; "record_type"; "record_size"] ->
              k ∉ written_keys) as Hfresh.
    { intros k Hk.
      repeat (apply elem_of_cons in Hk as [->|Hk];
              [unfold written_keys; cbn; rewrite !not_elem_of_cons;
               repeat split; try discriminate; apply not_elem_of_nil|]).
      inversion Hk. }
    assert (dom (header_record "Vista" hdr fullpath (Z.of_nat m.1))
            = list_to_set ["input_file_path"; "offset"; "record_type";
                           "last_updated"; "last_joined_sccm"]) as Hdom5.
    { unfold header_record, initial_record.
      rewrite !dom_insert_L, dom_empty_L.
      match goal with |- ?A = ?B => apply (bool_decide_eq_true_1 (A = B)) end.
      vm_compute. reflexivity. }
    assert (header_record "Vista" hdr fullpath (Z.of_nat m.1) !! "input_file_path"
            = Some fullpath
            /\ header_record "Vista" hdr fullpath (Z.of_nat m.1) !! "offset"
               = Some (VInt (Z.of_nat m.1))
            /\ header_record "Vista" hdr fullpath (Z.of_nat m.1) !! "record_type"
               = Some (VStr (str_of_string "Vista"))
            /\ header_record "Vista" hdr fullpath (Z.of_nat m.1) !! "record_size"
               = None) as (H1 & H2 & H3 & H4).
    { unfold header_record, initial_record.
      split; [rewrite !lookup_insert_ne by discriminate; apply lookup_insert_eq|].
      split; [rewrite !lookup_insert_ne by discriminate; apply lookup_insert_eq|].
      split; [rewrite !lookup_insert_ne by discriminate; apply lookup_insert_eq|].
      rewrite !lookup_insert_ne by discriminate. apply lookup_empty. }
    destruct (Nat.ltb_spec avail (30 + 89)) as [Htbl|Hfull].
    + rewrite decode_properties_truncated in Hrun by lia.
      injection Hrun as <- _.
      split; [exact H1 | split; [exact H2 | split; [exact H3|]]].
      split; [exact H4 | exact Hdom5].
    + destruct (Z.lt_ge_cases (i16 (take 89 (unread w0)) 85) (-1)) as [Hneg|Hps].
      { rewrite decode_properties_value_error in Hrun by (first [lia | exact Hneg]).
        discriminate. }
      destruct (decode_properties_complete _ fullpath (Z.of_nat m.1)
                  _ _ w0 Hlu (le_uint_8_range hdr) Hlj (le_uint_8_range (drop 8 hdr))
                  ltac:(lia) Hps)
        as (r1 & w1 & Hrun1 & _ & _ & _ & _ & _ & _ & Hkeep).
      destruct (decode_properties_total os unicode_lower _ fullpath (Z.of_nat m.1)
                  _ _ w0 Hlu (le_uint_8_range hdr) Hlj (le_uint_8_range (drop 8 hdr))
                  (fun _ => Hps))
        as (r' & w'' & Hrun' & _ & _ & Hdom).
      rewrite Hrun1 in Hrun'. injection Hrun' as <- <-.
      rewrite Hrun1 in Hrun. injection Hrun as <- _.
      specialize (Hdom ltac:(lia)).
      split; [rewrite Hkeep by (apply Hfresh; in_names); exact H1|].
      split; [rewrite Hkeep by (apply Hfresh; in_names); exact H2|].
      split; [rewrite Hkeep by (apply Hfresh; in_names); exact H3|].
      split; [rewrite Hkeep by (apply Hfresh; in_names); exact H4|].
      rewrite Hdom, Hdom5.
      match goal with |- ?A = ?B => apply (bool_decide_eq_true_1 (A = B)) end.
      vm_compute. reflexivity.
Qed.

(** A Vista match either runs into the [ValueError] of [read], when header
    and table are there and [properties_size] is below [-1], or gives a
    record. *)
Lemma process_hit_vista_cases (m : nat * nat) (fullpath : value) (w : world) :
  vista_match m ->
  let avail := length (drop m.2 (content (file w))) in
  let properties_size := properties_size_at (content (file w)) m in
  if (30 + 89 <=? avail)%nat && (properties_size <? -1)
  then exists w',
         process_hit os unicode_lower m fullpath w = (Raise ValueError, w')
         /\ content (file w') = content (file w)
  else readable (content (file w)) m
       /\ exists r w',
            process_hit os unicode_lower m fullpath w = (Ok r, w')
            /\ content (file w') = content (file w).
Proof.
  intros Hm avail properties_size. pose proof (vista_type m Hm) as Htype.
  destruct (Nat.leb_spec (30 + 89) avail) as [Hfull|Hshort];
    [destruct (Z.ltb_spec properties_size (-1)) as [Hneg|Hps]|]; cbn [andb].
  - rewrite (process_hit_value_error m "Vista" fullpath w Htype Hfull Hneg).
    eexists. split; reflexivity.
  - assert (readable (content (file w)) m) as Hread by (intros _; exact Hps).
    split; [exact Hread|].
    destruct (process_hit_total os unicode_lower m fullpath w) as (r & w' & Hrun & Hc & _);
      [exists "Vista"; exact Htype | exact Hread |].
    exists r, w'. split; [exact Hrun | exact Hc].
  - assert (readable (content (file w)) m) as Hread
      by (intros Hle; unfold avail in Hshort; lia).
    split; [exact Hread|].
    destruct (process_hit_total os unicode_lower m fullpath w) as (r & w' & Hrun & Hc & _);
      [exists "Vista"; exact Htype | exact Hread |].
    exists r, w'. split; [exact Hrun | exact Hc].
Qed.

(** Each of the three key sets lies within the columns of the CSV file. *)
Lemma keys_within_columns (keys : gset string) (b1 b2 : bool) :
  keys = (if b1 then list_to_set ["input_file_path"; "offset"; "record_type"]
          else if b2
          then list_to_set ["input_file_path"; "offset"; "record_type";
                            "last_updated"; "last_joined_sccm"]
          else list_to_set CSV_FIELDNAMES) ->
  keys ⊆ list_to_set CSV_FIELDNAMES.
Proof.
  intros ->. destruct b1; [|destruct b2; [|reflexivity]].
  - match goal with |- ?A ⊆ ?B => apply (bool_decide_eq_true_1 (A ⊆ B)) end.
    vm_compute. reflexivity.
  - match goal with |- ?A ⊆ ?B => apply (bool_decide_eq_true_1 (A ⊆ B)) end.
    vm_compute. reflexivity.
Qed.

End Records.

(** X10: for a match of the Vista signature [process_hit] has one way to fail:
    when the header and the offset table follow the match in full and
    [properties_size] is below [-1], [read] raises [ValueError].  In every
    other case it returns a record that names the file, the offset of the
    match and the type Vista.  Its keys are the first three when the header
    is cut short, these and the two tick counts when the offset table is cut
    short, and the columns of the CSV file otherwise; [record_size] is never
    among them, and no key falls outside the columns. *)
Theorem process_hit_record_keys (os : os_path) (unicode_lower : pystr -> pystr)
  (m : nat * nat) (fullpath : value) (w : world) :
  vista_match m ->
  let avail := length (drop m.2 (content (file w))) in
  let properties_size := properties_size_at (content (file w)) m in
  if (30 + 89 <=? avail)%nat && (properties_size <? -1)
  then exists w', process_hit os unicode_lower m fullpath w = (Raise ValueError, w')
  else
    exists r w',
      process_hit os unicode_lower m fullpath w = (Ok r, w')
      /\ r !! "input_file_path" = Some fullpath
      /\ r !! "offset" = Some (VInt (Z.of_nat m.1))
      /\ r !! "record_type" = Some (VStr (str_of_string "Vista"))
      /\ r !! "record_size" = None
      /\ dom r =
           (if (avail <? 30)%nat
            then list_to_set ["input_file_path"; "offset"; "record_type"]
            else if (avail <? 30 + 89)%nat
            then list_to_set ["input_file_path"; "offset"; "record_type";
                              "last_updated"; "last_joined_sccm"]
            else list_to_set CSV_FIELDNAMES)
      /\ dom r ⊆ list_to_set CSV_FIELDNAMES.
Proof.
  intros Hm avail properties_size.
  pose proof (process_hit_vista_cases os unicode_lower m fullpath w Hm) as Hcases.
  cbv zeta in Hcases. fold avail properties_size in Hcases.
  destruct ((30 + 89 <=? avail)%nat && (properties_size <? -1)).
  - destruct Hcases as (w' & Hrun & _). exists w'. exact Hrun.
  - destruct Hcases as (_ & r & w' & Hrun & _).
    destruct (process_hit_vista os unicode_lower m fullpath w w' r Hm Hrun)
      as (Hpath & Hoffset & Htype & Hsize & Hdom).
    exists r, w'. split; [exact Hrun|].
    split; [exact Hpath | split; [exact Hoffset | split; [exact Htype|]]].
    split; [exact Hsize | split; [exact Hdom|]].
    exact (keys_within_columns _ _ _ Hdom).
Qed.

Lemma process_hit_record_keys_witness :
  (exists r w',
     process_hit ntpath (fun s => s) (0, 128)%nat VNone (open_file Sample.vista_record)
     = (Ok r, w')
     /\ r !! "record_type" = Some (VStr (str_of_string "Vista"))
     /\ r !! "record_size" = None
     /\ dom r = list_to_set CSV_FIELDNAMES)
  /\ exists w',
       process_hit ntpath (fun s => s) (0, 128)%nat VNone
         (open_file (encode_utf16le VISTA_HASH
                     ++ Sample.header 131723359061027940 131599838211786410 1024
                     ++ Sample.table (-2) ++ Sample.blob))
       = (Raise ValueError, w').
Proof.
  split.
  - pose proof (process_hit_record_keys ntpath (fun s => s) (0, 128)%nat VNone
                  (open_file Sample.vista_record) eq_refl) as H.
    cbv zeta in H.
    match type of H with
    | if ?c then _ else _ =>
        replace c with false in H by (vm_compute; reflexivity)
    end.
    destruct H as (r & w' & Hrun & _ & _ & Htype & Hsize & Hdom & _).
    exists r, w'. split; [exact Hrun|]. split; [exact Htype|]. split; [exact Hsize|].
    exact Hdom.
  - pose proof (process_hit_record_keys ntpath (fun s => s) (0, 128)%nat VNone
                  (open_file (encode_utf16le VISTA_HASH
                     ++ Sample.header 131723359061027940 131599838211786410 1024
                     ++ Sample.table (-2) ++ Sample.blob)) eq_refl) as H.
    cbv zeta in H.
    match type of H with
    | if ?c then _ else _ =>
        replace c with true in H by (vm_compute; reflexivity)
    end.
    exact H.
Defined.

Section RecordValues.

Lemma u32_range (tbl : list byte) (i : nat) : 0 <= u32 tbl i < 2 ^ 32.
Proof.
  unfold u32. pose proof (le_uint_range (take 4 (drop (4 * i) tbl))) as H.
  assert (length (take 4 (drop (4 * i) tbl)) <= 4)%nat as Hlen
    by (rewrite length_take; lia).
  assert (256 ^ Z.of_nat (length (take 4 (drop (4 * i) tbl))) <= 256 ^ 4)
    by (apply Z.pow_le_mono_r; lia).
  change (2 ^ 32) with (256 ^ 4). lia.
Qed.

Lemma record_strings_names (k : string) :
  k ∈ RUA_RECORD_STRINGS -> k ∈ (decoded_offsets []).*1.
Proof.
  unfold RUA_RECORD_STRINGS. intros Hk.
  repeat (apply elem_of_cons in Hk as [->|Hk]; [in_names|]).
  inversion Hk.
Qed.

End RecordValues.

(** X11: when the header and the offset table follow a Vista match in full
    and [properties_size] is a length [read] accepts, [-1] or more, the
    record has the two timestamps of the header, converted, the three
    numbers of the table, each below 2^32, and for every name of
    [RUA_RECORD_STRINGS] a text or [None]. *)
Theorem process_hit_values (os : os_path) (unicode_lower : pystr -> pystr)
  (m : nat * nat) (fullpath : value) (w : world) :
  vista_match m ->
  (30 + 89 <= length (drop m.2 (content (file w))))%nat ->
  -1 <= properties_size_at (content (file w)) m ->
  let hdr := take 30 (drop m.2 (content (file w))) in
  let tbl := take 89 (drop (m.2 + 30) (content (file w))) in
  exists r w',
    process_hit os unicode_lower m fullpath w = (Ok r, w')
    /\ r !! "last_updated" = Some (filetime_value (Py.le_uint (take 8 hdr)))
    /\ r !! "last_joined_sccm"
       = Some (filetime_value (Py.le_uint (take 8 (drop 8 hdr))))
    /\ r !! "file_size" = Some (VInt (u32 tbl 5))
    /\ r !! "launch_count" = Some (VInt (u32 tbl 11))
    /\ r !! "product_language" = Some (VInt (u32 tbl 9))
    /\ Forall (fun i => 0 <= u32 tbl i < 2 ^ 32) [5; 11; 9]%nat
    /\ (forall k, k ∈ RUA_RECORD_STRINGS -> exists v, r !! k = Some (opt_str v)).
Proof.
  intros Hm Hfull Hps hdr tbl.
  rewrite (process_hit_header os unicode_lower m "Vista" fullpath w (vista_type m Hm))
    by lia.
  cbv zeta. fold hdr.
  destruct (header_record_ticks "Vista" hdr fullpath (Z.of_nat m.1)) as [Hlu Hlj].
  set (w0 := if _ <? _ then _ else _).
  assert (unread w0 = drop (m.2 + 30) (content (file w))) as Hunread
    by apply unread_after_header.
  assert (89 <= length (unread w0))%nat as Hlen
    by (rewrite Hunread; rewrite !length_drop in *; lia).
  destruct (decode_properties_complete os unicode_lower _ fullpath (Z.of_nat m.1)
              _ _ w0 Hlu (le_uint_8_range hdr) Hlj (le_uint_8_range (drop 8 hdr)) Hlen)
    as (r & w' & Hrun & H1 & H2 & H3 & H4 & H5 & Hstr & _);
    [rewrite Hunread; exact Hps|].
  rewrite Hunread in H3, H4, H5. fold tbl in H3, H4, H5.
  exists r, w'. split; [exact Hrun|].
  split; [exact H1 | split; [exact H2|]].
  split; [exact H3 | split; [exact H4 | split; [exact H5|]]].
  split; [repeat constructor; apply u32_range|].
  intros k Hk. apply Hstr. exact (record_strings_names k Hk).
Qed.

Lemma process_hit_values_witness :
  exists r w',
    process_hit ntpath (fun s => s) (0, 128)%nat VNone (open_file Sample.vista_record)
    = (Ok r, w')
    /\ r !! "last_updated"
       = Some (VDatetime (Datetime.mk_datetime 2018 6 1 14 11 46 102794))
    /\ r !! "file_size" = Some (VInt 1366528)
    /\ r !! "launch_count" = Some (VInt 64)
    /\ r !! "product_language" = Some (VInt 1033).
Proof.
  destruct (process_hit_values ntpath (fun s => s) (0, 128)%nat VNone
              (open_file Sample.vista_record) eq_refl)
    as (r & w' & Hrun & Hlu & _ & Hsize & Hcount & Hlang & _).
  - vm_compute. lia.
  - vm_compute. discriminate.
  - exists r, w'. split; [exact Hrun|].
    split; [rewrite Hlu; vm_compute; reflexivity|].
    split; [rewrite Hsize; vm_compute; reflexivity|].
    split; [rewrite Hcount; vm_compute; reflexivity|].
    rewrite Hlang. vm_compute. reflexivity.
Defined.

(** ** The printed lines never feed back *)

Section AppendsOnly.

Context (os : os_path) (unicode_lower : pystr -> pystr).

Lemma appends_only_ret {A} (a : A) : appends_only (mret a).
Proof.
  intros f. exists (Ok a), f, []. split; [reflexivity|].
  intros out. rewrite app_nil_r. reflexivity.
Qed.

Lemma appends_only_raise {A} (e : exn) : appends_only (raise e : M A).
Proof.
  intros f. exists (Raise e), f, []. split; [reflexivity|].
  intros out. rewrite app_nil_r. reflexivity.
Qed.

Lemma appends_only_print (d : diag) : appends_only (print d).
Proof.
  intros f. exists (Ok tt), f, [d]. split; [reflexivity|].
  intros out. reflexivity.
Qed.

Lemma appends_only_seek (pos : nat) : appends_only (seek pos).
Proof.
  intros f. exists (Ok tt), (mk_fileobj (content f) pos), [].
  split; [reflexivity|]. intros out. rewrite app_nil_r. reflexivity.
Qed.

Lemma appends_only_read (n : Z) : appends_only (read n).
Proof.
  intros f.
  exists (read n (mk_world f [])).1, (file (read n (mk_world f [])).2), [].
  unfold read. destruct (n <? -1).
  - split; [reflexivity|]. intros out. rewrite app_nil_r. destruct f. reflexivity.
  - split; [reflexivity|]. intros out. rewrite app_nil_r. reflexivity.
Qed.

Lemma appends_only_bind {A B} (c : M A) (k : A -> M B) :
  appends_only c -> (forall a, appends_only (k a)) -> appends_only (c ≫= k).
Proof.
  intros Hc Hk f. destruct (Hc f) as (r & f1 & more1 & Hc1 & Hrun).
  destruct r as [a|e].
  - destruct (Hk a f1) as (r2 & f2 & more2 & Hc2 & Hrun2).
    exists r2, f2, (more1 ++ more2). split; [congruence|]. intros out.
    unfold mbind, M_bind. rewrite Hrun, Hrun2, app_assoc. reflexivity.
  - exists (Raise e), f1, more1. split; [exact Hc1|]. intros out.
    unfold mbind, M_bind. rewrite Hrun. reflexivity.
Qed.

Ltac appends_only_step :=
  first
    [ apply appends_only_ret | apply appends_only_raise | apply appends_only_print
    | apply appends_only_seek | apply appends_only_read
    | apply appends_only_bind; [|intros ?]
    | match goal with
      | |- appends_only (match ?x with _ => _ end) => destruct x
      end ].

Lemma appends_only_read_cim_encoded_string buf start end_ fullpath file_offset :
  appends_only (read_cim_encoded_string buf start end_ fullpath file_offset).
Proof.
  unfold read_cim_encoded_string, decode_cim_encoded_string.
  repeat appends_only_step.
Qed.

Lemma appends_only_read_fields properties_data properties_size fullpath hash_start
  sorted_offsets :
  forall record,
    appends_only (read_fields properties_data properties_size fullpath hash_start
                    sorted_offsets record).
Proof.
  induction sorted_offsets as [|[name off] rest IH]; intros record;
    cbn [read_fields]; [apply appends_only_ret|].
  apply appends_only_bind; [apply appends_only_read_cim_encoded_string|].
  intros v. apply IH.
Qed.

Lemma appends_only_get_prop_offsets record fullpath hash_start :
  appends_only (get_prop_offsets record fullpath hash_start).
Proof. unfold get_prop_offsets. repeat appends_only_step. Qed.

Lemma appends_only_process_hit (m : nat * nat) (fullpath : value) :
  appends_only (process_hit os unicode_lower m fullpath).
Proof.
  unfold process_hit.
  repeat first [ apply appends_only_read_fields
               | apply appends_only_get_prop_offsets
               | appends_only_step ].
Qed.

(** [process_hit] seeks before it reads: neither the read position nor what
    was printed before bears on its result. *)
Lemma process_hit_fresh (m : nat * nat) (fullpath : value) (w : world) :
  let fresh := process_hit os unicode_lower m fullpath (open_file (content (file w))) in
  let run := process_hit os unicode_lower m fullpath w in
  run.1 = fresh.1
  /\ stdout run.2 = stdout w ++ stdout fresh.2
  /\ content (file run.2) = content (file w).
Proof.
  cbv zeta.
  destruct (RECENTLY_USED_APPS_TYPES (Z.of_nat m.2 - Z.of_nat m.1)) as [type_name|]
    eqn:Htype.
  - assert (forall w0 : world,
              process_hit os unicode_lower m fullpath w0
              = process_hit os unicode_lower m fullpath
                  (mk_world (mk_fileobj (content (file w0)) m.2) (stdout w0))) as Hseek.
    { intros w0. unfold process_hit. rewrite Htype.
      unfold mbind at 1 3, M_bind at 1 3. reflexivity. }
    rewrite (Hseek w), (Hseek (open_file _)).
    cbn [open_file file content stdout].
    destruct (appends_only_process_hit m fullpath (mk_fileobj (content (file w)) m.2))
      as (r & f' & more & Hc & Hrun).
    rewrite (Hrun (stdout w)), (Hrun []). cbn [fst snd stdout file app].
    split; [reflexivity|]. split; [reflexivity | exact Hc].
  - rewrite !process_hit_untyped by exact Htype. cbn [fst snd open_file stdout].
    rewrite app_nil_r. repeat split.
Qed.


End AppendsOnly.

(** ** The generator as a whole *)

Section Generator.

Context (os : os_path) (unicode_lower : pystr -> pystr).

Lemma xp_untyped (m : nat * nat) :
  xp_match m -> RECENTLY_USED_APPS_TYPES (Z.of_nat m.2 - Z.of_nat m.1) = None.
Proof.
  unfold xp_match. intros ->.
  replace (Z.of_nat (m.1 + 65) - Z.of_nat m.1) with 65 by lia. reflexivity.
Qed.

Lemma process_hits_outcomes (fullpath : value) (ms : list (nat * nat)) :
  Forall (fun m => vista_match m \/ xp_match m) ms ->
  forall w,
  exists records e w',
    process_hits os unicode_lower ms fullpath w = (records, e, w')
    /\ content (file w') = content (file w)
    /\ (e = None
        /\ Forall (fun m => vista_match m /\ readable (content (file w)) m) ms
        /\ length records = length ms
        \/ exists pre m post,
             ms = pre ++ m :: post
             /\ Forall (fun m => vista_match m /\ readable (content (file w)) m) pre
             /\ length records = length pre
             /\ (xp_match m /\ e = Some (KeyError (KInt 65))
                 \/ vista_match m
                    /\ (30 + 89 <= length (drop m.2 (content (file w))))%nat
                    /\ properties_size_at (content (file w)) m < -1
                    /\ e = Some ValueError)).
Proof.
  induction 1 as [|m ms Hm Hms IH]; intros w.
  - exists [], None, w. split; [reflexivity|]. split; [reflexivity|].
    left. split; [reflexivity|]. split; [constructor | reflexivity].
  - cbn [process_hits]. destruct Hm as [Hv|Hx].
    + pose proof (process_hit_vista_cases os unicode_lower m fullpath w Hv) as Hcases.
      cbv zeta in Hcases.
      destruct (Nat.leb_spec (30 + 89) (length (drop m.2 (content (file w)))))
        as [Hfull|Hshort];
        [destruct (Z.ltb_spec (properties_size_at (content (file w)) m) (-1))
           as [Hneg|Hps]|];
        cbn [andb] in Hcases.
      * destruct Hcases as (w1 & -> & Hc).
        exists [], (Some ValueError), w1. split; [reflexivity|]. split; [exact Hc|].
        right. exists [], m, ms. split; [reflexivity|]. split; [constructor|].
        split; [reflexivity|]. right. repeat split; assumption.
      * destruct Hcases as (Hread & r & w1 & -> & Hc).
        destruct (IH w1) as (records & e & w' & -> & Hc' & Hrest).
        rewrite Hc in Hrest.
        exists (r :: records), e, w'. split; [reflexivity|].
        split; [rewrite Hc', Hc; reflexivity|].
        destruct Hrest as [(-> & Hall & Hlen)
                          | (pre & m' & post & -> & Hpre & Hlen & Hm')].
        -- left. split; [reflexivity|]. split; [constructor; [split|]; assumption|].
           cbn [length]. rewrite Hlen. reflexivity.
        -- right. exists (m :: pre), m', post.
           split; [reflexivity|]. split; [constructor; [split|]; assumption|].
           split; [cbn [length]; rewrite Hlen; reflexivity | exact Hm'].
      * destruct Hcases as (Hread & r & w1 & -> & Hc).
        destruct (IH w1) as (records & e & w' & -> & Hc' & Hrest).
        rewrite Hc in Hrest.
        exists (r :: records), e, w'. split; [reflexivity|].
        split; [rewrite Hc', Hc; reflexivity|].
        destruct Hrest as [(-> & Hall & Hlen)
                          | (pre & m' & post & -> & Hpre & Hlen & Hm')].
        -- left. split; [reflexivity|]. split; [constructor; [split|]; assumption|].
           cbn [length]. rewrite Hlen. reflexivity.
        -- right. exists (m :: pre), m', post.
           split; [reflexivity|]. split; [constructor; [split|]; assumption|].
           split; [cbn [length]; rewrite Hlen; reflexivity | exact Hm'].
    + rewrite process_hit_untyped by exact (xp_untyped m Hx).
      pose proof Hx as Hlen. unfold xp_match in Hlen. rewrite Hlen.
      replace (Z.of_nat (m.1 + 65) - Z.of_nat m.1) with 65 by lia.
      exists [], (Some (KeyError (KInt 65))), w.
      split; [reflexivity|]. split; [reflexivity|].
      right. exists [], m, ms.
      split; [reflexivity|]. split; [constructor|]. split; [reflexivity|].
      left. split; [exact Hx | reflexivity].
Qed.

(** Each record is that of its match on the file just opened; the printed
    lines are those of the matches tried, the one that raised included; and
    the exception, if any, is the one the first match without a record
    raises. *)
Lemma process_hits_fresh (fullpath : value) (ms : list (nat * nat)) :
  forall w,
    let out := process_hits os unicode_lower ms fullpath w in
    let done := length out.1.1 in
    let fresh m := process_hit os unicode_lower m fullpath (open_file (content (file w))) in
    Forall2 (fun m r => (fresh m).1 = Ok r) (take done ms) out.1.1
    /\ stdout out.2
       = stdout w ++ concat (map (fun m => stdout (fresh m).2) (take (S done) ms))
    /\ match out.1.2 with
       | None => done = length ms
       | Some e => exists m, ms !! done = Some m /\ (fresh m).1 = Raise e
       end.
Proof.
  induction ms as [|m ms IH]; intros w; cbv zeta.
  - cbn. split; [constructor|]. split; [rewrite app_nil_r|]; reflexivity.
  - cbn [process_hits].
    destruct (process_hit_fresh os unicode_lower m fullpath w) as (Hr & Hout & Hc).
    cbv zeta in Hr, Hout, Hc.
    destruct (process_hit os unicode_lower m fullpath w) as [[r|e] w1] eqn:Hrun;
      cbn [fst snd] in Hr, Hout, Hc.
    + specialize (IH w1). cbv zeta in IH. rewrite Hc in IH.
      destruct (process_hits os unicode_lower ms fullpath w1) as [[records e] w'].
      cbn [fst snd length take map concat] in IH |- *.
      destruct IH as (Hall & Hstd & Hend). split; [|split].
      * constructor; [symmetry; exact Hr | exact Hall].
      * rewrite Hstd, Hout, <- app_assoc. reflexivity.
      * destruct e as [e|]; [exact Hend | rewrite Hend; reflexivity].
    + cbn [fst snd length take map concat]. split; [constructor|].
      split; [rewrite app_nil_r; exact Hout|].
      exists m. split; [reflexivity | symmetry; exact Hr].
Qed.

Lemma finditer_kinds (data : list byte) :
  Forall (fun m => vista_match m \/ xp_match m) (finditer pattern data).
Proof.
  apply Forall_forall. intros m Hm. exact (finditer_lengths data m Hm).
Qed.

End Generator.

(** X12: [parse] ends in one of four ways.  On an empty file it raises the
    [ValueError] of [mmap] and yields nothing.  When every match is a match
    of the Vista signature whose blob [read] accepts (the table is cut
    short, or [properties_size] is [-1] or more), it yields one record for
    each and raises nothing.  Otherwise it yields one record for each match
    before the first that is not such, and ends there: with [KeyError(65)]
    at a match of the XP signature, with the [ValueError] of [read] at a
    Vista match whose table is complete and whose [properties_size] is below
    [-1].  The bytes of the file are left as they were. *)
Theorem parse_outcomes (os : os_path) (unicode_lower : pystr -> pystr)
  (fullpath : value) (data : list byte) :
  exists records e w',
    parse os unicode_lower fullpath (open_file data) = (records, e, w')
    /\ content (file w') = data
    /\ (data = [] /\ e = Some ValueError /\ records = []
        \/ data <> [] /\ e = None
           /\ Forall (fun m => vista_match m /\ readable data m) (finditer pattern data)
           /\ length records = length (finditer pattern data)
        \/ data <> []
           /\ exists pre m post,
                finditer pattern data = pre ++ m :: post
                /\ Forall (fun m => vista_match m /\ readable data m) pre
                /\ length records = length pre
                /\ (xp_match m /\ e = Some (KeyError (KInt 65))
                    \/ vista_match m
                       /\ (30 + 89 <= length (drop m.2 data))%nat
                       /\ properties_size_at data m < -1
                       /\ e = Some ValueError)).
Proof.
  destruct data as [|b data].
  - exists [], (Some ValueError), (open_file []).
    split; [reflexivity|]. split; [reflexivity|]. left. repeat split.
  - set (d := b :: data).
    assert (d <> []) as Hne by discriminate.
    rewrite (parse_nonempty os unicode_lower fullpath (open_file d)) by exact Hne.
    cbn [open_file file content].
    destruct (process_hits_outcomes os unicode_lower fullpath (finditer pattern d)
                (finditer_kinds d) (open_file d))
      as (records & e & w' & -> & Hc & Hcases).
    cbn [open_file file content] in Hcases.
    exists records, e, w'. split; [reflexivity|]. split; [exact Hc|].
    destruct Hcases as [(-> & Hall & Hlen) | Hstop].
    + right. left. repeat split; assumption.
    + right. right. split; [exact Hne | exact Hstop].
Qed.

(** X13: the records do not depend on one another: each is what [process_hit]
    returns for its match on the file just opened, whatever was read or
    printed for the matches before it.  The printed lines are those of the
    matches tried, one after the other: the matches with a record and, when
    [parse] ends with an exception, the match that raised it, which may have
    printed before it raised.  On a file that is not empty [parse] ends
    without an exception only when every match has its record, and
    otherwise with the exception [process_hit] raises for the first match
    without one. *)
Theorem parse_records_independent (os : os_path) (unicode_lower : pystr -> pystr)
  (fullpath : value) (data : list byte) :
  let out := parse os unicode_lower fullpath (open_file data) in
  let done := length out.1.1 in
  let fresh m := process_hit os unicode_lower m fullpath (open_file data) in
  Forall2 (fun m r => (fresh m).1 = Ok r) (take done (finditer pattern data)) out.1.1
  /\ stdout out.2
     = concat (map (fun m => stdout (fresh m).2)
                 (take (S done) (finditer pattern data)))
  /\ (data <> [] ->
      match out.1.2 with
      | None => done = length (finditer pattern data)
      | Some e =>
          exists m, finditer pattern data !! done = Some m /\ (fresh m).1 = Raise e
      end).
Proof.
  cbv zeta. destruct data as [|b data].
  - cbn. split; [constructor|]. split; [reflexivity|]. intros H. contradiction.
  - set (d := b :: data).
    rewrite (parse_nonempty os unicode_lower fullpath (open_file d)) by discriminate.
    cbn [open_file file content].
    destruct (process_hits_fresh os unicode_lower fullpath (finditer pattern d)
                (open_file d)) as (Hall & Hout & Hend).
    split; [exact Hall|]. split; [exact Hout|]. intros _. exact Hend.
Qed.

Section YieldedRecords.

Context (os : os_path) (unicode_lower : pystr -> pystr).

(** The matches whose records [process_hits] yields are Vista matches. *)
Lemma process_hits_done (fullpath : value) (ms : list (nat * nat)) (w : world) :
  Forall (fun m => vista_match m \/ xp_match m) ms ->
  Forall vista_match
    (take (length (process_hits os unicode_lower ms fullpath w).1.1) ms).
Proof.
  intros Hkinds.
  destruct (process_hits_outcomes os unicode_lower fullpath ms Hkinds w)
    as (records & e & w' & -> & _ & Hcases).
  cbn [fst].
  destruct Hcases as [(_ & Hall & Hlen) | (pre & m & post & -> & Hpre & Hlen & _)].
  - rewrite Hlen, firstn_all. eapply Forall_impl; [exact Hall|].
    intros m [Hm _]. exact Hm.
  - rewrite Hlen, take_app_length. eapply Forall_impl; [exact Hpre|].
    intros m' [Hm' _]. exact Hm'.
Qed.

End YieldedRecords.

(** X24: every record [parse] yields carries the file, the type Vista and the
    offset of its match, the offsets being those of the matches in order;
    it has no key outside the columns of the CSV file, and no [record_size]:
    the writer of [main] never meets a key it does not know. *)
Theorem parse_records_keys (os : os_path) (unicode_lower : pystr -> pystr)
  (fullpath : value) (data : list byte) :
  let out := parse os unicode_lower fullpath (open_file data) in
  let done := take (length out.1.1) (finditer pattern data) in
  Forall (fun r : pydict =>
            r !! "input_file_path" = Some fullpath
            /\ r !! "record_type" = Some (VStr (str_of_string "Vista"))
            /\ r !! "record_size" = None
            /\ dom r ⊆ list_to_set CSV_FIELDNAMES) out.1.1
  /\ map (fun r : pydict => r !! "offset") out.1.1
     = map (fun m => Some (VInt (Z.of_nat m.1))) done.
Proof.
  cbv zeta. destruct data as [|b data].
  - cbn. split; [constructor | reflexivity].
  - set (d := b :: data).
    rewrite (parse_nonempty os unicode_lower fullpath (open_file d)) by discriminate.
    cbn [open_file file content].
    pose proof (process_hits_done os unicode_lower fullpath (finditer pattern d)
                  (open_file d) (finditer_kinds d)) as Hvista.
    destruct (process_hits_fresh os unicode_lower fullpath (finditer pattern d)
                (open_file d)) as [Hfresh _].
    cbn [open_file file content] in Hfresh.
    set (records := (process_hits os unicode_lower (finditer pattern d) fullpath
                       (open_file d)).1.1) in *.
    set (done := take (length records) (finditer pattern d)) in *.
    clearbody records done.
    induction Hfresh as [|m r done records Hr Hrest IH].
    + split; [constructor | reflexivity].
    + apply Forall_cons in Hvista as [Hm Hvista].
      destruct (IH Hvista) as [Hall Hoffsets].
      destruct (process_hit os unicode_lower m fullpath (open_file d))
        as [res w'] eqn:Hrun.
      cbn [fst] in Hr. subst res.
      destruct (process_hit_vista os unicode_lower m fullpath (open_file d) w' r
                  Hm Hrun)
        as (Hpath & Hoffset & Htype & Hsize & Hdom).
      split.
      * constructor; [|exact Hall].
        split; [exact Hpath | split; [exact Htype | split; [exact Hsize|]]].
        exact (keys_within_columns _ _ _ Hdom).
      * cbn [map]. rewrite Hoffset, Hoffsets. reflexivity.
Qed.

(** ** The oversized record, the clamp and the truncated record *)

Section ClaimsOfProcessHit.

Context (os : os_path) (unicode_lower : pystr -> pystr).

Lemma properties_size_range (data : list byte) (m : nat * nat) :
  (30 + 89 <= length (drop m.2 data))%nat ->
  -32768 <= properties_size_at data m <= 32767.
Proof.
  intros Hfull. unfold properties_size_at, i16.
  set (tbl := take 89 (drop (m.2 + 30) data)).
  assert (length tbl = 89%nat) as Hlen
    by (unfold tbl; rewrite length_take, length_drop in *; lia).
  assert (length (take 2 (drop 85 tbl)) = 2%nat) as H2
    by (rewrite length_take, length_drop; lia).
  pose proof (le_int_range (take 2 (drop 85 tbl))) as Hr.
  rewrite H2 in Hr. change (256 ^ Z.of_nat 2) with 65536 in Hr.
  destruct (take 2 (drop 85 tbl)); [discriminate|].
  specialize (Hr ltac:(discriminate)). lia.
Qed.

(** With header and table read, [process_hit] is the read of the blob and
    what follows it, in the world left by the table. *)
Lemma process_hit_blob (m : nat * nat) (type_name : string) (fullpath : value)
  (w : world) :
  RECENTLY_USED_APPS_TYPES (Z.of_nat m.2 - Z.of_nat m.1) = Some type_name ->
  (30 + 89 <= length (drop m.2 (content (file w))))%nat ->
  let data := content (file w) in
  let hdr := take 30 (drop m.2 data) in
  let tbl := take 89 (drop (m.2 + 30) data) in
  let record_size := Py.le_uint (take 4 (drop 16 hdr)) in
  let properties_size := properties_size_at data m in
  let w0 :=
    mk_world (mk_fileobj data (m.2 + 30 + 89))
      (stdout w
       ++ if RUA_MAX_RECORD_SIZE <? record_size
          then [Record_size_too_large record_size RUA_MAX_RECORD_SIZE
                  (Z.of_nat m.1) fullpath]
          else []) in
  process_hit os unicode_lower m fullpath w
  = (properties_data ← read (Z.min properties_size RUA_MAX_RECORD_SIZE);
     record ← read_fields properties_data properties_size fullpath (Z.of_nat m.1)
                (sorted_by_offset (decoded_offsets tbl))
                (<["product_language" := VInt (u32 tbl 9)]>
                   (<["launch_count" := VInt (u32 tbl 11)]>
                      (<["file_size" := VInt (u32 tbl 5)]>
                         (header_record type_name hdr fullpath (Z.of_nat m.1)))));
     match parse_fields os unicode_lower record with
     | Ok record => mret record
     | Raise e => raise e
     end) w0.
Proof.
  intros Hm Hfull data hdr tbl record_size properties_size w0.
  rewrite (process_hit_header os unicode_lower m type_name fullpath w Hm) by lia.
  cbv zeta. fold data hdr record_size.
  set (w1 := if _ <? _ then _ else _).
  assert (unread w1 = drop (m.2 + 30) data) as Hunread
    by apply unread_after_header.
  assert (advance 89 w1 = w0) as Hw0.
  { unfold w1, w0, advance, printed.
    destruct (RUA_MAX_RECORD_SIZE <? record_size); cbn [file content position stdout];
      rewrite ?app_nil_r; reflexivity. }
  unfold decode_properties. unfold mbind at 1, M_bind at 1.
  rewrite get_prop_offsets_full
    by (rewrite Hunread; unfold data; rewrite length_drop in *; lia).
  rewrite Hunread. fold tbl. rewrite pop_properties_size, Hw0. reflexivity.
Qed.


End ClaimsOfProcessHit.




(** C10: [properties_size], a signed 16-bit integer, is at most 32767, so
    [min(properties_size, RUA_MAX_RECORD_SIZE)] is [properties_size] itself,
    and that is the length [process_hit] gives to [read] once header and
    table are read, also when it is negative.  [read] then returns at most
    that many bytes of the blob when the length is not negative, all that is
    left of the file when it is [-1], and raises [ValueError], which ends
    [process_hit], when it is below [-1]: in no case does a negative
    [properties_size] bound the blob. *)
Theorem C10_properties_size_clamp (os : os_path) (unicode_lower : pystr -> pystr)
  (m : nat * nat) (type_name : string) (fullpath : value) (w : world) :
  RECENTLY_USED_APPS_TYPES (Z.of_nat m.2 - Z.of_nat m.1) = Some type_name ->
  (30 + 89 <= length (drop m.2 (content (file w))))%nat ->
  let data := content (file w) in
  let hdr := take 30 (drop m.2 data) in
  let tbl := take 89 (drop (m.2 + 30) data) in
  let blob := drop (m.2 + 30 + 89) data in
  let record_size := Py.le_uint (take 4 (drop 16 hdr)) in
  let properties_size := properties_size_at data m in
  let w0 :=
    mk_world (mk_fileobj data (m.2 + 30 + 89))
      (stdout w
       ++ if RUA_MAX_RECORD_SIZE <? record_size
          then [Record_size_too_large record_size RUA_MAX_RECORD_SIZE
                  (Z.of_nat m.1) fullpath]
          else []) in
  -32768 <= properties_size <= 32767
  /\ Z.min properties_size RUA_MAX_RECORD_SIZE = properties_size
  /\ process_hit os unicode_lower m fullpath w
     = (properties_data ← read properties_size;
        record ← read_fields properties_data properties_size fullpath (Z.of_nat m.1)
                   (sorted_by_offset (decoded_offsets tbl))
                   (<["product_language" := VInt (u32 tbl 9)]>
                      (<["launch_count" := VInt (u32 tbl 11)]>
                         (<["file_size" := VInt (u32 tbl 5)]>
                            (header_record type_name hdr fullpath (Z.of_nat m.1)))));
        match parse_fields os unicode_lower record with
        | Ok record => mret record
        | Raise e => raise e
        end) w0
  /\ (0 <= properties_size ->
      read properties_size w0
      = (Ok (take (Z.to_nat properties_size) blob),
         advance (length (take (Z.to_nat properties_size) blob)) w0))
  /\ (properties_size = -1 ->
      read properties_size w0 = (Ok blob, advance (length blob) w0))
  /\ (properties_size < -1 ->
      process_hit os unicode_lower m fullpath w = (Raise ValueError, w0)).
Proof.
  intros Hm Hfull data hdr tbl blob record_size properties_size w0.
  pose proof (properties_size_range data m Hfull) as Hrange.
  fold properties_size in Hrange.
  assert (Z.min properties_size RUA_MAX_RECORD_SIZE = properties_size) as Hmin
    by (unfold RUA_MAX_RECORD_SIZE; lia).
  pose proof (process_hit_blob os unicode_lower m type_name fullpath w Hm Hfull)
    as Hhit.
  cbv zeta in Hhit. fold data hdr tbl record_size properties_size w0 in Hhit.
  rewrite Hmin in Hhit.
  split; [exact Hrange|]. split; [exact Hmin|]. split; [exact Hhit|].
  split; [|split].
  - intros Hpos. unfold read.
    destruct (Z.ltb_spec properties_size (-1)); [lia|].
    destruct (Z.ltb_spec properties_size 0); [lia|]. reflexivity.
  - intros ->. reflexivity.
  - intros Hneg. rewrite Hhit. unfold mbind at 1, M_bind at 1.
    rewrite read_value_error by exact Hneg. reflexivity.
Qed.

Lemma C10_properties_size_clamp_witness :
  let record properties_size :=
    encode_utf16le VISTA_HASH
    ++ Sample.header 131723359061027940 131599838211786410 1024
    ++ Sample.table properties_size ++ Sample.blob in
  process_hit ntpath (fun s => s) (0, 128)%nat VNone (open_file (record (-2)))
  = (Raise ValueError, mk_world (mk_fileobj (record (-2)) 247) [])
  /\ (read (-1) (mk_world (mk_fileobj (record (-1)) 247) [])).1 = Ok Sample.blob.
Proof.
  intros record. split.
  - destruct (C10_properties_size_clamp ntpath (fun s => s) (0, 128)%nat "Vista"
                VNone (open_file (record (-2))) eq_refl ltac:(vm_compute; lia))
      as (_ & _ & _ & _ & _ & Hneg).
    rewrite Hneg by (vm_compute; reflexivity).
    f_equal; vm_compute; reflexivity.
  - destruct (C10_properties_size_clamp ntpath (fun s => s) (0, 128)%nat "Vista"
                VNone (open_file (record (-1))) eq_refl ltac:(vm_compute; lia))
      as (_ & _ & _ & _ & Hall & _).
    specialize (Hall ltac:(vm_compute; reflexivity)).
    apply (f_equal fst) in Hall. cbn [fst] in Hall.
    transitivity (Ok (A := list byte) (drop (128 + 30 + 89) (record (-1))));
      [|vm_compute; reflexivity].
    etransitivity; [|exact Hall]. vm_compute. reflexivity.
Defined.



(** ** Paths and extensions *)

Section Paths.

Lemma elem_of_drop_inv {A} (x : A) (n : nat) (l : list A) : x ∈ drop n l -> x ∈ l.
Proof.
  intros Hx. rewrite <- (take_drop n l). apply elem_of_app. right. exact Hx.
Qed.

Lemma rfind_from_spec (c : N) (s : pystr) :
  forall i found,
    ((c ∉ s) /\ rfind_from c s i found = found)
    \/ exists k : nat,
         rfind_from c s i found = i + Z.of_nat k
         /\ s !! k = Some c /\ c ∉ drop (S k) s.
Proof.
  induction s as [|x s IH]; intros i found; cbn [rfind_from].
  - left. split; [apply not_elem_of_nil | reflexivity].
  - destruct (IH (i + 1) (if (x =? c)%N then i else found))
      as [[Hnot ->] | (k & -> & Hk & Hrest)].
    + destruct (N.eqb_spec x c) as [->|Hne].
      * right. exists 0%nat. split; [lia|]. split; [reflexivity | exact Hnot].
      * left. split; [|reflexivity].
        apply not_elem_of_cons. split; [congruence | exact Hnot].
    + right. exists (S k). split; [lia|]. split; [exact Hk | exact Hrest].
Qed.

Lemma str_rfind_spec (s : pystr) (c : N) :
  ((c ∉ s) /\ str_rfind s c = -1)
  \/ exists k : nat,
       str_rfind s c = Z.of_nat k /\ s !! k = Some c /\ c ∉ drop (S k) s.
Proof.
  unfold str_rfind.
  destruct (rfind_from_spec c s 0 (-1)) as [H | (k & Hk & H)]; [left; exact H|].
  right. exists k. split; [lia | exact H].
Qed.

Lemma not_elem_of_drop_after {A} (x : A) (l : list A) (i : Z) (d : nat) :
  ((x ∉ l) /\ i = -1 \/ exists k : nat, i = Z.of_nat k /\ x ∉ drop (S k) l) ->
  i < Z.of_nat d -> x ∉ drop (S d) l.
Proof.
  intros [[Hnot _] | (k & -> & Hnot)] Hlt Hin.
  - apply Hnot. exact (elem_of_drop_inv _ _ _ Hin).
  - apply Hnot. replace (S d) with (S k + (S d - S k))%nat in Hin by lia.
    rewrite <- drop_drop in Hin. exact (elem_of_drop_inv _ _ _ Hin).
Qed.

Lemma rfind_weaken (s : pystr) (c : N) :
  ((c ∉ s) /\ str_rfind s c = -1)
  \/ exists k : nat, str_rfind s c = Z.of_nat k /\ c ∉ drop (S k) s.
Proof.
  destruct (str_rfind_spec s c) as [H | (k & Hk & _ & H)]; [left; exact H|].
  right. exists k. split; [exact Hk | exact H].
Qed.

Lemma _splitext_spec (p : pystr) (sep : N) (altsep : option N) (extsep : N) :
  let '(root, ext) := _splitext p sep altsep extsep in
  root ++ ext = p
  /\ (ext = []
      \/ exists e, ext = extsep :: e /\ root <> [] /\ (extsep ∉ e) /\ (sep ∉ e)
                   /\ forall a, altsep = Some a -> a ∉ e).
Proof.
  unfold _splitext.
  set (sepIndex := match altsep with
                   | Some a => Z.max (str_rfind p sep) (str_rfind p a)
                   | None => str_rfind p sep
                   end).
  destruct (Z.ltb_spec sepIndex (str_rfind p extsep)) as [Hlt|Hge]; cbn [andb];
    [|split; [apply app_nil_r | left; reflexivity]].
  destruct (existsb _ _) eqn:Hex; [|split; [apply app_nil_r | left; reflexivity]].
  destruct (str_rfind_spec p extsep) as [[_ Hminus] | (d & Hd & Hdot & Hafter)].
  { exfalso. rewrite Hminus in Hlt.
    assert (-1 <= sepIndex); [|lia]. unfold sepIndex.
    destruct (str_rfind_spec p sep) as [[_ ->] | (k & -> & _)];
      destruct altsep; lia. }
  rewrite Hd in *. rewrite Nat2Z.id.
  assert (d < length p)%nat as Hdlen by (apply lookup_lt_is_Some; eauto).
  assert (Py.slice p 0 (Z.of_nat d) = take d p) as Hroot.
  { unfold Py.slice, Py.slice_index. cbn [Z.ltb Z.compare].
    destruct (Z.ltb_spec (Z.of_nat d) 0); [lia|].
    rewrite Z.min_l by lia. rewrite Z.min_l by lia.
    rewrite Z.sub_0_r, Nat2Z.id. reflexivity. }
  rewrite Hroot. split; [apply take_drop|]. right.
  exists (drop (S d) p).
  split; [apply drop_S; exact Hdot|].
  split.
  { (* some character other than the dot lies before the dot *)
    intros Hnil.
    assert (d = 0)%nat as -> by (apply (f_equal length) in Hnil;
                                 rewrite length_take in Hnil; cbn in Hnil; lia).
    assert (sepIndex = -1) as Hs.
    { assert (-1 <= sepIndex); [|lia]. unfold sepIndex.
      destruct (str_rfind_spec p sep) as [[_ ->] | (k & -> & _)];
        destruct altsep; lia. }
    rewrite Hs, slice_backwards in Hex by lia. discriminate. }
  split; [exact Hafter|].
  split.
  - apply (not_elem_of_drop_after sep p (str_rfind p sep) d).
    + destruct (rfind_weaken p sep) as [[? ?]|(k & ? & ?)]; [left; eauto|].
      right. exists k. eauto.
    + unfold sepIndex in Hlt. destruct altsep; lia.
  - intros a ->.
    apply (not_elem_of_drop_after a p (str_rfind p a) d).
    + destruct (rfind_weaken p a) as [[? ?]|(k & ? & ?)]; [left; eauto|].
      right. exists k. eauto.
    + unfold sepIndex in Hlt. lia.
Qed.

End Paths.

(** X14: [splitext] cuts the name in two without losing a character.  The
    second part is empty, or starts at the last dot of the name: what follows
    that dot holds no dot and no path separator, and something comes before
    it. *)
Theorem splitext_parts (os : os_path) (p : pystr) :
  (splitext os p).1 ++ (splitext os p).2 = p
  /\ ((splitext os p).2 = []
      \/ exists e,
           (splitext os p).2 = DOT :: e
           /\ (splitext os p).1 <> []
           /\ (DOT ∉ e)
           /\ forall sep, sep ∈ separators os -> sep ∉ e).
Proof.
  destruct os; unfold splitext, separators.
  - pose proof (_splitext_spec p SLASH None DOT) as H.
    destruct (_splitext p SLASH None DOT) as [root ext]. cbn [fst snd].
    destruct H as [Hcat Hext]. split; [exact Hcat|].
    destruct Hext as [->|(e & -> & Hroot & Hdot & Hsep & _)]; [left; reflexivity|].
    right. exists e. split; [reflexivity|]. split; [exact Hroot|].
    split; [exact Hdot|].
    intros sep Hin. apply elem_of_cons in Hin as [->|Hin]; [exact Hsep|].
    inversion Hin.
  - pose proof (_splitext_spec p BACKSLASH (Some SLASH) DOT) as H.
    destruct (_splitext p BACKSLASH (Some SLASH) DOT) as [root ext]. cbn [fst snd].
    destruct H as [Hcat Hext]. split; [exact Hcat|].
    destruct Hext as [->|(e & -> & Hroot & Hdot & Hsep & Halt)]; [left; reflexivity|].
    right. exists e. split; [reflexivity|]. split; [exact Hroot|].
    split; [exact Hdot|].
    intros sep Hin. apply elem_of_cons in Hin as [->|Hin]; [exact Hsep|].
    apply elem_of_cons in Hin as [->|Hin]; [exact (Halt _ eq_refl)|].
    inversion Hin.
Qed.

Section PathFields.

Context (os : os_path) (unicode_lower : pystr -> pystr).

Lemma str_endswith_backslash (s : pystr) :
  str_endswith s [BACKSLASH] = true -> BACKSLASH ∈ s.
Proof.
  unfold str_endswith. intros H. apply bool_decide_eq_true_1 in H.
  apply (elem_of_drop_inv _ (length s - length [BACKSLASH])). rewrite H.
  apply list_elem_of_here.
Qed.

Lemma str_remove_absent (c : N) (s : pystr) : c ∉ s -> str_remove c s = s.
Proof.
  unfold str_remove. induction s as [|x s IH]; intros Hc; [reflexivity|].
  apply not_elem_of_cons in Hc as [Hx Hs].
  unfold pystr in *. rewrite filter_cons. destruct (decide (x <> c)) as [_|Hn].
  - f_equal. exact (IH Hs).
  - exfalso. apply Hn. congruence.
Qed.

Lemma str_remove_head (c : N) (s : pystr) : str_remove c (c :: s) = str_remove c s.
Proof.
  unfold str_remove, pystr. rewrite filter_cons.
  destruct (decide (c <> c)) as [Hn|_]; [contradiction | reflexivity].
Qed.

Lemma ascii_lower_not_upper (c : N) : is_upper (ascii_lower c) = false.
Proof.
  unfold ascii_lower, is_upper.
  destruct (N.leb_spec 65 c); destruct (N.leb_spec c 90); cbn [andb];
    repeat match goal with
           | |- context [(?a <=? ?b)%N] => destruct (N.leb_spec a b)
           end; cbn [andb]; try reflexivity; lia.
Qed.

Lemma forallb_suffix {A} (f : A -> bool) (l1 l2 : list A) :
  forallb f (l1 ++ l2) = true -> forallb f l2 = true.
Proof. rewrite forallb_app. intros H. apply andb_prop in H as [_ H]. exact H. Qed.

End PathFields.

(** X15: [parse_fields] never leaves [full_path] empty or [None]: the text
    always holds a backslash, be it the last character of the folder or the
    one put between folder and name.  Apart from the two timestamps,
    [full_path] and [file_extension], the record is as it was. *)
Theorem parse_fields_full_path (os : os_path) (unicode_lower : pystr -> pystr)
  (record record' : pydict) :
  parse_fields os unicode_lower record = Ok record' ->
  (exists s, record' !! "full_path" = Some (VStr s) /\ BACKSLASH ∈ s)
  /\ (forall k : string,
        k ∉ ["last_updated"; "last_joined_sccm"; "full_path"; "file_extension"] ->
        record' !! k = record !! k).
Proof.
  intros Hparse.
  destruct (parse_fields_result os unicode_lower record record' Hparse)
    as (lu & lj & folder & fname & _ & _ & _ & _ & ->).
  split.
  - rewrite lookup_insert_ne by discriminate. rewrite lookup_insert_eq.
    cbn [concat]. rewrite app_nil_r.
    set (s := folder ++ _ ++ fname).
    assert (BACKSLASH ∈ s) as Hin.
    { unfold s. destruct (str_endswith folder [BACKSLASH]) eqn:Hends.
      - apply elem_of_app. left. exact (str_endswith_backslash folder Hends).
      - apply elem_of_app. right. apply list_elem_of_here. }
    exists s. split; [|exact Hin].
    destruct s; [inversion Hin | reflexivity].
  - intros k Hk. rewrite !not_elem_of_cons in Hk.
    destruct Hk as (? & ? & ? & ? & _).
    rewrite !lookup_insert_ne by congruence. reflexivity.
Qed.

Lemma parse_fields_full_path_witness :
  exists s,
    (<["file_extension" := VNone]>
       (<["full_path" := VStr [BACKSLASH]]>
          (<["last_joined_sccm" := VNone]>
             (<["last_updated" := VNone]>
                (<["last_joined_sccm" := VInt 0]>
                   (<["last_updated" := VInt 0]> (∅ : pydict)))))))
      !! "full_path" = Some (VStr s)
    /\ BACKSLASH ∈ s.
Proof.
  apply (parse_fields_full_path ntpath (fun s => s)
           (<["last_joined_sccm" := VInt 0]> (<["last_updated" := VInt 0]> ∅))).
  unfold parse_fields, filetime_field, get_text.
  rewrite lookup_insert_ne by discriminate. rewrite lookup_insert_eq.
  cbn [datetime_from_windows_filetime Z.eqb].
  rewrite lookup_insert_ne by discriminate. rewrite lookup_insert_eq.
  cbn [datetime_from_windows_filetime Z.eqb].
  rewrite !lookup_insert_ne by discriminate. rewrite lookup_empty.
  reflexivity.
Defined.

(** X16: for a file name of ASCII characters [file_extension] is what follows
    the last dot of the name, in lower case, or [None] when [splitext] finds
    no extension or nothing follows the dot: the value is never an empty
    text, and holds no dot, no path separator and no capital letter. *)
Theorem parse_fields_file_extension (os : os_path) (unicode_lower : pystr -> pystr)
  (record record' : pydict) (file_name : pystr) :
  parse_fields os unicode_lower record = Ok record' ->
  get_text record "explorer_filename" = Ok file_name ->
  forallb is_ascii file_name = true ->
  let e := tail (splitext os file_name).2 in
  record' !! "file_extension" = Some (or_None (map ascii_lower e))
  /\ (DOT ∉ e)
  /\ (forall sep, sep ∈ separators os -> sep ∉ e)
  /\ Forall (fun c => is_upper c = false) (map ascii_lower e)
  /\ record' !! "file_extension" <> Some (VStr []).
Proof.
  intros Hparse Hname Hascii e.
  destruct (parse_fields_result os unicode_lower record record' Hparse)
    as (lu & lj & folder & fname & _ & _ & _ & Hfname & ->).
  rewrite Hname in Hfname. injection Hfname as <-.
  rewrite lookup_insert_eq.
  destruct (splitext_parts os file_name) as [Hcat Hext].
  assert (forallb is_ascii (splitext os file_name).2 = true) as Hascii_ext
    by (apply (forallb_suffix _ (splitext os file_name).1); rewrite Hcat; exact Hascii).
  assert (str_remove DOT (splitext os file_name).2 = e
          /\ (DOT ∉ e) /\ (forall sep, sep ∈ separators os -> sep ∉ e)
          /\ forallb is_ascii e = true) as (Hrm & Hdot & Hsep & Hascii_e).
  { unfold e. destruct Hext as [Hnil | (e' & He' & _ & Hdot & Hsep)].
    - rewrite Hnil. cbn [tail]. split; [reflexivity|].
      split; [apply not_elem_of_nil|]. split; [|reflexivity].
      intros sep _. apply not_elem_of_nil.
    - rewrite He' in *. cbn [tail].
      split; [rewrite str_remove_head; apply str_remove_absent; exact Hdot|].
      split; [exact Hdot|]. split; [exact Hsep|].
      cbn [forallb] in Hascii_ext. apply andb_prop in Hascii_ext as [_ H]. exact H. }
  rewrite Hrm. unfold str_lower. rewrite Hascii_e.
  split; [reflexivity|]. split; [exact Hdot|]. split; [exact Hsep|].
  split.
  - apply Forall_forall. intros c Hc.
    apply list_elem_of_fmap in Hc as (c' & -> & _). apply ascii_lower_not_upper.
  - destruct (map ascii_lower e); discriminate.
Qed.

Lemma parse_fields_file_extension_witness :
  let record : pydict :=
    <["explorer_filename" := VStr (str_of_string "Setup.tar.GZ")]>
      (<["last_joined_sccm" := VInt 0]> (<["last_updated" := VInt 0]> ∅)) in
  (<["file_extension" := VStr (str_of_string "gz")]>
     (<["full_path" := VStr (str_of_string "\Setup.tar.GZ")]>
        (<["last_joined_sccm" := VNone]> (<["last_updated" := VNone]> record))))
    !! "file_extension"
  = Some (VStr (str_of_string "gz")).
Proof.
  intros record.
  apply (parse_fields_file_extension ntpath (fun s => s) record _
           (str_of_string "Setup.tar.GZ")).
  - unfold parse_fields, filetime_field, get_text, record.
    repeat first [rewrite lookup_insert_eq
                 | rewrite lookup_insert_ne by discriminate
                 | rewrite lookup_empty
                 | progress cbn [datetime_from_windows_filetime Z.eqb]].
    reflexivity.
  - unfold get_text, record. rewrite lookup_insert_eq. reflexivity.
  - reflexivity.
Defined.

(** ** The calendar behind the timestamps *)

Section Calendar.

Lemma month_day_checked (leapyear : bool) (n : Z) :
  0 <= n < 365 -> month_day_ok leapyear n = true.
Proof.
  intros Hn.
  assert (forallb (fun k => month_day_ok true (Z.of_nat k)
                            && month_day_ok false (Z.of_nat k)) (seq 0 365) = true)
    as Hall by (vm_compute; reflexivity).
  rewrite forallb_forall in Hall.
  specialize (Hall (Z.to_nat n)). rewrite Z2Nat.id in Hall by lia.
  apply andb_prop in Hall as [Ht Hf].
  - destruct leapyear; assumption.
  - apply in_seq. lia.
Qed.

Lemma is_leap_split (a b c e : Z) :
  0 <= b <= 3 -> 0 <= c <= 24 -> 0 <= e <= 3 ->
  Datetime.is_leap (a * 400 + 1 + b * 100 + c * 4 + e)
  = (e =? 3) && (negb (c =? 24) || (b =? 3)).
Proof.
  intros Hb Hc He. unfold Datetime.is_leap.
  set (y := a * 400 + 1 + b * 100 + c * 4 + e).
  assert (y mod 4 = (e + 1) mod 4) as H4.
  { unfold y. replace (a * 400 + 1 + b * 100 + c * 4 + e)
      with (e + 1 + (a * 100 + b * 25 + c) * 4) by lia.
    apply Z.mod_add. lia. }
  assert (y mod 100 = (c * 4 + e + 1) mod 100) as H100.
  { unfold y. replace (a * 400 + 1 + b * 100 + c * 4 + e)
      with (c * 4 + e + 1 + (a * 4 + b) * 100) by lia.
    apply Z.mod_add. lia. }
  assert (y mod 400 = (b * 100 + c * 4 + e + 1) mod 400) as H400.
  { unfold y. replace (a * 400 + 1 + b * 100 + c * 4 + e)
      with (b * 100 + c * 4 + e + 1 + a * 400) by lia.
    apply Z.mod_add. lia. }
  rewrite H4, H100, H400.
  destruct (Z.eqb_spec e 3) as [->|He3].
  - change ((3 + 1) mod 4) with 0. cbn [Z.eqb andb].
    destruct (Z.eqb_spec c 24) as [->|Hc24].
    + change ((24 * 4 + 3 + 1) mod 100) with 0. cbn [Z.eqb negb orb].
      destruct (Z.eqb_spec b 3) as [->|Hb3]; [reflexivity|].
      rewrite Z.mod_small by lia.
      destruct (Z.eqb_spec (b * 100 + 24 * 4 + 3 + 1) 0); [lia | reflexivity].
    + rewrite Z.mod_small by lia.
      destruct (Z.eqb_spec (c * 4 + 3 + 1) 0); [lia | reflexivity].
  - rewrite Z.mod_small by lia.
    destruct (Z.eqb_spec (e + 1) 0); [lia | reflexivity].
Qed.

Lemma days_before_year_split (a b c e : Z) :
  0 <= b <= 3 -> 0 <= c <= 24 -> 0 <= e <= 3 ->
  Datetime.days_before_year (a * 400 + 1 + b * 100 + c * 4 + e)
  = a * 146097 + b * 36524 + c * 1461 + e * 365.
Proof.
  intros Hb Hc He. unfold Datetime.days_before_year. cbv zeta.
  replace (a * 400 + 1 + b * 100 + c * 4 + e - 1)
    with (a * 400 + b * 100 + c * 4 + e) by lia.
  assert ((a * 400 + b * 100 + c * 4 + e) / 4 = a * 100 + b * 25 + c) as ->.
  { replace (a * 400 + b * 100 + c * 4 + e) with (e + (a * 100 + b * 25 + c) * 4) by lia.
    rewrite Z.div_add by lia. rewrite Z.div_small by lia. lia. }
  assert ((a * 400 + b * 100 + c * 4 + e) / 100 = a * 4 + b) as ->.
  { replace (a * 400 + b * 100 + c * 4 + e) with (c * 4 + e + (a * 4 + b) * 100) by lia.
    rewrite Z.div_add by lia. rewrite Z.div_small by lia. lia. }
  assert ((a * 400 + b * 100 + c * 4 + e) / 400 = a) as ->.
  { replace (a * 400 + b * 100 + c * 4 + e) with (b * 100 + c * 4 + e + a * 400) by lia.
    rewrite Z.div_add by lia. rewrite Z.div_small by lia. lia. }
  lia.
Qed.

Lemma ord2ymd_unfold (n : Z) :
  Datetime.ord2ymd n =
    let n0 := n - 1 in
    let n400 := n0 / 146097 in
    let n100 := n0 mod 146097 / 36524 in
    let n4 := n0 mod 146097 mod 36524 / 1461 in
    let n1 := n0 mod 146097 mod 36524 mod 1461 / 365 in
    let r := n0 mod 146097 mod 36524 mod 1461 mod 365 in
    let year := n400 * 400 + 1 + n100 * 100 + n4 * 4 + n1 in
    if (n1 =? 4) || (n100 =? 4) then (year - 1, 12, 31)
    else
      let '(m, d) := month_day r ((n1 =? 3) && (negb (n4 =? 24) || (n100 =? 3))) in
      (year, m, d).
Proof.
  unfold Datetime.ord2ymd, month_day, Datetime.DI400Y, Datetime.DI100Y, Datetime.DI4Y.
  cbv zeta. destruct (_ || _); [reflexivity|].
  destruct (_ <? _); reflexivity.
Qed.

(** [_ord2ymd] gives a date that exists, and [_ymd2ord] takes it back to
    the ordinal. *)
Lemma ord2ymd_correct (n : Z) :
  1 <= n <= Datetime.MAXORDINAL ->
  let '(y, m, d) := Datetime.ord2ymd n in
  Datetime.ymd2ord y m d = n
  /\ (n - 1) / 146097 * 400 + 1 <= y <= 9999
  /\ 1 <= m <= 12 /\ 1 <= d <= days_in_month y m.
Proof.
  unfold Datetime.MAXORDINAL. intros Hn. rewrite ord2ymd_unfold. cbv zeta.
  set (n0 := n - 1).
  pose proof (Z.div_mod n0 146097 ltac:(lia)) as E400.
  pose proof (Z.mod_pos_bound n0 146097 ltac:(lia)) as B400.
  set (n400 := n0 / 146097) in *. set (r400 := n0 mod 146097) in *.
  pose proof (Z.div_mod r400 36524 ltac:(lia)) as E100.
  pose proof (Z.mod_pos_bound r400 36524 ltac:(lia)) as B100.
  set (n100 := r400 / 36524) in *. set (r100 := r400 mod 36524) in *.
  pose proof (Z.div_mod r100 1461 ltac:(lia)) as E4.
  pose proof (Z.mod_pos_bound r100 1461 ltac:(lia)) as B4.
  set (n4 := r100 / 1461) in *. set (r4 := r100 mod 1461) in *.
  pose proof (Z.div_mod r4 365 ltac:(lia)) as E1.
  pose proof (Z.mod_pos_bound r4 365 ltac:(lia)) as B1.
  set (n1 := r4 / 365) in *. set (r := r4 mod 365) in *.
  clearbody n400 r400 n100 r100 n4 r4 n1 r.
  assert (0 <= n400 <= 24) as H400 by lia.
  assert (0 <= n100 <= 4) as H100 by lia.
  assert (0 <= n4 <= 24) as H4 by lia.
  assert (0 <= n1 <= 4) as H1 by lia.
  destruct (Z.eqb_spec n1 4) as [Hn1|Hn1]; cbn [orb].
  { (* the last day of a leap year that ends a four-year cycle *)
    assert (n100 <= 3) as Hle by lia.
    replace (n400 * 400 + 1 + n100 * 100 + n4 * 4 + n1 - 1)
      with (n400 * 400 + 1 + n100 * 100 + n4 * 4 + 3) by lia.
    assert (n4 <> 24) as Hn4 by lia.
    unfold Datetime.ymd2ord, Datetime.days_before_month, days_in_month.
    rewrite is_leap_split, days_before_year_split by lia.
    destruct (Z.eqb_spec n4 24); [contradiction|].
    change (Z.to_nat 12) with 12%nat. cbn. subst n0. lia. }
  destruct (Z.eqb_spec n100 4) as [Hn100|Hn100].
  { (* the last day of a year that ends a four-hundred-year cycle *)
    assert (n4 = 0 /\ n1 = 0 /\ r = 0) as (-> & -> & ->) by lia.
    replace (n400 * 400 + 1 + n100 * 100 + 0 * 4 + 0 - 1)
      with (n400 * 400 + 1 + 3 * 100 + 24 * 4 + 3) by lia.
    unfold Datetime.ymd2ord, Datetime.days_before_month, days_in_month.
    rewrite is_leap_split, days_before_year_split by lia.
    change (Z.to_nat 12) with 12%nat. cbn. subst n0. lia. }
  assert (0 <= r < 365) as Hr by lia.
  pose proof (month_day_checked
                ((n1 =? 3) && (negb (n4 =? 24) || (n100 =? 3))) r Hr) as Hok.
  unfold month_day_ok in Hok.
  destruct (month_day r _) as [m d].
  repeat (apply andb_prop in Hok as [Hok ?]).
  unfold Datetime.ymd2ord, Datetime.days_before_month, days_in_month.
  rewrite is_leap_split, days_before_year_split by lia.
  subst n0. split; [lia|]. split; [lia|]. split; lia.
Qed.


Lemma datetime_of_microseconds_inverse (us : Z) :
  0 <= us <= MAX_MICROSECONDS ->
  microseconds_since_1601 (datetime_of_microseconds us) = us
  /\ valid_datetime (datetime_of_microseconds us) = true
  /\ 1601 <= Datetime.year (datetime_of_microseconds us).
Proof.
  unfold MAX_MICROSECONDS. intros Hus.
  unfold datetime_of_microseconds. cbv zeta.
  pose proof (Z.div_mod us 1000000 ltac:(lia)) as Eus.
  pose proof (Z.mod_pos_bound us 1000000 ltac:(lia)) as Bus.
  set (secs := us / 1000000) in *. set (micro := us mod 1000000) in *.
  pose proof (Z.div_mod secs 86400 ltac:(lia)) as Esecs.
  pose proof (Z.mod_pos_bound secs 86400 ltac:(lia)) as Bsecs.
  set (days := secs / 86400) in *. set (sod := secs mod 86400) in *.
  pose proof (Z.div_mod sod 3600 ltac:(lia)) as Esod.
  pose proof (Z.mod_pos_bound sod 3600 ltac:(lia)) as Bsod.
  set (h := sod / 3600) in *. set (rem := sod mod 3600) in *.
  pose proof (Z.div_mod rem 60 ltac:(lia)) as Erem.
  pose proof (Z.mod_pos_bound rem 60 ltac:(lia)) as Brem.
  set (mi := rem / 60) in *. set (s := rem mod 60) in *.
  clearbody secs micro days sod h rem mi s.
  assert (0 <= days <= 3067670) as Hdays by lia.
  pose proof (ord2ymd_correct (584389 + days)) as Hord.
  unfold Datetime.MAXORDINAL in Hord. specialize (Hord ltac:(lia)).
  assert (4 <= (584389 + days - 1) / 146097) as Hcycle
    by (apply Z.div_le_lower_bound; lia).
  destruct (Datetime.ord2ymd (584389 + days)) as [[y m] d].
  destruct Hord as (Hback & Hy & Hm & Hd).
  unfold microseconds_since_1601, valid_datetime, Datetime.toordinal.
  cbn [Datetime.year Datetime.month Datetime.day Datetime.hour Datetime.minute
       Datetime.second Datetime.microsecond].
  rewrite Hback.
  change (Datetime.ymd2ord 1601 1 1) with 584389.
  split; [lia|]. split; [|lia].
  repeat (apply andb_true_intro; split); lia.
Qed.

(** The conversion keeps the order of the tick counts. *)
Lemma quantize_half_even_monotone (c1 c2 : Z) :
  c1 <= c2 ->
  quantize_half_even (c1 * 1000000) 10000000
  <= quantize_half_even (c2 * 1000000) 10000000.
Proof.
  intros Hle.
  pose proof (quantize_half_even_tenth c1) as [H1 _].
  pose proof (quantize_half_even_tenth c2) as [H2 T2].
  cbv zeta in *.
  set (u1 := quantize_half_even (c1 * 1000000) 10000000) in *.
  set (u2 := quantize_half_even (c2 * 1000000) 10000000) in *.
  destruct (Z.le_gt_cases u1 u2) as [|Hgt]; [assumption|exfalso].
  pose proof (quantize_half_even_tenth c1) as [_ T1]. cbv zeta in T1. fold u1 in T1.
  assert (u1 = u2 + 1 /\ c1 = c2 /\ 10 * u1 - c1 = 5 /\ 10 * u2 - c2 = -5)
    as (Hu & Hc & Hd1 & Hd2) by lia.
  subst c2. unfold u1, u2 in Hgt. lia.
Qed.

Lemma filetime_microseconds (count : Z) (d : Datetime.datetime) :
  0 <= count < 2 ^ 64 ->
  datetime_from_windows_filetime count = Ok (Some d) ->
  let us := quantize_half_even (count * 1000000) 10000000 in
  d = datetime_of_microseconds us /\ 0 <= us <= MAX_MICROSECONDS /\ count <> 0.
Proof.
  intros Hc. unfold datetime_from_windows_filetime.
  destruct (Z.eqb_spec count 0) as [|Hnz]; [discriminate|].
  rewrite parse_timestamp_closed_form by exact Hc. cbv zeta.
  pose proof (quantize_half_even_tenth count) as [Hus _]. cbv zeta in Hus.
  destruct (Z.ltb_spec MAX_MICROSECONDS
              (quantize_half_even (count * 1000000) 10000000)); [discriminate|].
  intros [= <-]. split; [reflexivity|]. split; [lia | exact Hnz].
Qed.

End Calendar.

(** X17: a 64-bit tick count decodes to [None] exactly when it is zero or at
    least 2650467743999999995, the first count that rounds to a microsecond
    past the last one of the year 9999. *)
Theorem filetime_null_threshold (count : Z) :
  0 <= count < 2 ^ 64 ->
  datetime_from_windows_filetime count = Ok None
  <-> count = 0 \/ FIRST_TICKS_OUT_OF_RANGE <= count.
Proof.
  intros Hc. unfold datetime_from_windows_filetime, FIRST_TICKS_OUT_OF_RANGE.
  destruct (Z.eqb_spec count 0) as [->|Hnz]; [split; [left|]; reflexivity|].
  rewrite parse_timestamp_closed_form by exact Hc. cbv zeta.
  pose proof (quantize_half_even_tenth count) as [Hus Htie]. cbv zeta in Hus, Htie.
  set (us := quantize_half_even (count * 1000000) 10000000) in *.
  unfold MAX_MICROSECONDS.
  destruct (Z.ltb_spec 265046774399999999 us) as [Hbig|Hsmall].
  - split; [intros _; right; lia | reflexivity].
  - split; [discriminate|]. intros [H0|Hge]; [contradiction|]. exfalso.
    assert (us = 265046774399999999) as Hus' by lia.
    assert (Z.abs (10 * us - count) = 5) as Habs by lia.
    specialize (Htie Habs). rewrite Hus' in Htie. discriminate Htie.
Qed.

Lemma filetime_null_threshold_witness :
  datetime_from_windows_filetime 2650467743999999995 = Ok None
  /\ datetime_from_windows_filetime 2650467743999999994
     = Ok (Some (Datetime.mk_datetime 9999 12 31 23 59 59 999999)).
Proof.
  split.
  - apply (filetime_null_threshold 2650467743999999995); [lia|].
    right. unfold FIRST_TICKS_OUT_OF_RANGE. lia.
  - vm_compute. reflexivity.
Defined.

(** X18: a timestamp that is decoded is a date and a time of day that exist,
    in the years 1601 to 9999, and counts as many microseconds from
    1601-01-01 as the tick count has tenths, to the nearest: five ticks off
    at most, and at exactly five the even count of microseconds. *)
Theorem filetime_round_trip (count : Z) (d : Datetime.datetime) :
  0 <= count < 2 ^ 64 ->
  datetime_from_windows_filetime count = Ok (Some d) ->
  valid_datetime d = true
  /\ 1601 <= Datetime.year d <= 9999
  /\ Z.abs (10 * microseconds_since_1601 d - count) <= 5
  /\ (Z.abs (10 * microseconds_since_1601 d - count) = 5 ->
      Z.even (microseconds_since_1601 d) = true).
Proof.
  intros Hc Hd.
  destruct (filetime_microseconds count d Hc Hd) as (-> & Hus & _).
  destruct (datetime_of_microseconds_inverse _ Hus) as (Hback & Hvalid & Hyear).
  rewrite Hback.
  pose proof (quantize_half_even_tenth count) as [H1 H2].
  split; [exact Hvalid|]. split; [|split; [exact H1 | exact H2]].
  split; [exact Hyear|].
  unfold valid_datetime in Hvalid.
  repeat (apply andb_prop in Hvalid as [Hvalid ?]). lia.
Qed.

Lemma filetime_round_trip_witness :
  valid_datetime (Datetime.mk_datetime 2018 1 9 15 3 41 178642) = true
  /\ microseconds_since_1601 (Datetime.mk_datetime 2018 1 9 15 3 41 178642)
     = 13159983821178642.
Proof.
  destruct (filetime_round_trip 131599838211786415
              (Datetime.mk_datetime 2018 1 9 15 3 41 178642))
    as (Hvalid & _ & _ & _).
  - lia.
  - vm_compute. reflexivity.
  - split; [exact Hvalid | vm_compute; reflexivity].
Defined.

(** X19: decoding keeps the order of the tick counts: of two counts that are
    both decoded, the larger never gives the earlier timestamp. *)
Theorem filetime_monotone (c1 c2 : Z) (d1 d2 : Datetime.datetime) :
  0 <= c1 <= c2 -> c2 < 2 ^ 64 ->
  datetime_from_windows_filetime c1 = Ok (Some d1) ->
  datetime_from_windows_filetime c2 = Ok (Some d2) ->
  microseconds_since_1601 d1 <= microseconds_since_1601 d2
  /\ (microseconds_since_1601 d1 = microseconds_since_1601 d2 -> d1 = d2).
Proof.
  intros Hc1 Hc2 Hd1 Hd2.
  destruct (filetime_microseconds c1 d1 ltac:(lia) Hd1) as (-> & Hus1 & _).
  destruct (filetime_microseconds c2 d2 ltac:(lia) Hd2) as (-> & Hus2 & _).
  destruct (datetime_of_microseconds_inverse _ Hus1) as (-> & _ & _).
  destruct (datetime_of_microseconds_inverse _ Hus2) as (-> & _ & _).
  split; [apply quantize_half_even_monotone; lia|].
  intros ->. reflexivity.
Qed.

Lemma filetime_monotone_witness :
  microseconds_since_1601 (Datetime.mk_datetime 2018 1 9 15 3 41 178641)
  <= microseconds_since_1601 (Datetime.mk_datetime 2018 6 1 14 11 46 102794).
Proof.
  apply (filetime_monotone 131599838211786410 131723359061027940).
  - lia.
  - lia.
  - vm_compute. reflexivity.
  - vm_compute. reflexivity.
Defined.

(** ** The order of the fields *)

Section SortedOffsets.

Lemma insert_by_offset_filter (v : Z) (kv : string * Z) (l : list (string * Z)) :
  filter (fun p => p.2 = v) (insert_by_offset kv l)
  = filter (fun p => p.2 = v) (kv :: l).
Proof.
  induction l as [|kv' l IH]; [reflexivity|].
  cbn [insert_by_offset]. destruct (Z.leb_spec kv.2 kv'.2) as [Hle|Hgt]; [reflexivity|].
  rewrite (filter_cons _ kv'), IH, !(filter_cons _ kv), (filter_cons _ kv').
  destruct (decide (kv'.2 = v)), (decide (kv.2 = v)); try reflexivity. lia.
Qed.

Lemma sorted_by_offset_fixed (l : list (string * Z)) :
  StronglySorted offset_le l -> sorted_by_offset l = l.
Proof.
  induction 1 as [|kv l Hl IH Hall]; [reflexivity|].
  cbn [sorted_by_offset]. rewrite IH.
  destruct l as [|kv' l]; [reflexivity|]. cbn [insert_by_offset].
  apply Forall_cons in Hall as [Hle _]. unfold offset_le in Hle.
  destruct (Z.leb_spec kv.2 kv'.2); [reflexivity | lia].
Qed.

End SortedOffsets.

(** X20: the sort of the offsets is the stable ascending sort of [sorted]: the
    same entries, in ascending order of offset, entries with one offset in
    the order of the table; a table already in ascending order stays as it
    is. *)
Theorem sorted_by_offset_stable (l : list (string * Z)) :
  sorted_by_offset l ≡ₚ l
  /\ StronglySorted offset_le (sorted_by_offset l)
  /\ (forall v, filter (fun p => p.2 = v) (sorted_by_offset l)
                = filter (fun p => p.2 = v) l)
  /\ (StronglySorted offset_le l -> sorted_by_offset l = l).
Proof.
  split; [apply sorted_by_offset_perm|].
  split; [apply sorted_by_offset_sorted|].
  split; [|apply sorted_by_offset_fixed].
  intros v. induction l as [|kv l IH]; [reflexivity|].
  cbn [sorted_by_offset]. rewrite insert_by_offset_filter, !filter_cons, IH.
  reflexivity.
Qed.

(** ** Records, written and read back *)

Section RecordRoundTrip.

Context (os : os_path) (unicode_lower : pystr -> pystr).

Lemma encode_text_length (s : pystr) : (2 <= length (encode_text s))%nat.
Proof.
  unfold encode_text, encode_compressed, encode_uncompressed.
  destruct (forallb _ s); cbn [length]; rewrite length_app; cbn [length]; lia.
Qed.

(** One Encoded-String, written by [encode_text] anywhere in the blob, reads
    back as the text, or as [None] when the text is empty. *)
Lemma read_encode_text (pre post : list byte) (s : pystr)
  (fullpath file_offset : value) (w : world) :
  text_ok s ->
  read_cim_encoded_string (pre ++ encode_text s ++ post)
    (Z.of_nat (length pre)) (Z.of_nat (length pre) + Z.of_nat (length (encode_text s)))
    fullpath file_offset w
  = (Ok (match s with [] => None | _ => Some s end), w).
Proof.
  intros [Hchars Hlast].
  rewrite read_cim_encoded_string_middle by apply encode_text_length.
  unfold encode_text. destruct (forallb _ s) eqn:Hsmall.
  - destruct s as [|c s]; [reflexivity|].
    apply read_encode_compressed; [discriminate | | exact Hlast].
    apply Forall_forall. intros x Hx.
    rewrite forallb_forall in Hsmall.
    specialize (Hsmall x (proj1 (list_elem_of_In _ _) Hx)).
    apply N.ltb_lt. exact Hsmall.
  - destruct s as [|c s]; [discriminate|].
    apply read_encode_uncompressed; assumption.
Qed.

Lemma place_texts_names (at_ : Z) (items : list (string * pystr)) :
  (place_texts at_ items).*1 = items.*1.
Proof.
  revert at_. induction items as [|[name s] items IH]; intros at_; [reflexivity|].
  cbn [place_texts fmap list_fmap fst]. f_equal. apply IH.
Qed.

Lemma place_texts_above (at_ : Z) (items : list (string * pystr)) :
  Forall (fun p => at_ <= p.2) (place_texts at_ items).
Proof.
  revert at_. induction items as [|[name s] items IH]; intros at_; [constructor|].
  cbn [place_texts]. constructor; [cbn; lia|].
  eapply Forall_impl; [apply IH|]. cbn. intros p Hp. lia.
Qed.

Lemma place_texts_sorted (at_ : Z) (items : list (string * pystr)) :
  StronglySorted offset_lt (place_texts at_ items).
Proof.
  revert at_. induction items as [|[name s] items IH]; intros at_; [constructor|].
  cbn [place_texts]. constructor; [apply IH|].
  eapply Forall_impl; [apply place_texts_above|].
  unfold offset_lt. cbn. intros p Hp.
  pose proof (encode_text_length s). lia.
Qed.

(** Reading the strings range by range gives each text back and prints
    nothing. *)
Lemma read_ranges_placed (fullpath : value) (hash_start : Z) (post : list byte) :
  forall (items : list (string * pystr)) (pre : list byte) (record : pydict) (w : world),
    Forall (fun item => text_ok item.2) items ->
    exists r,
      read_ranges (pre ++ encode_texts items ++ post) fullpath hash_start
        (field_ranges (place_texts (Z.of_nat (length pre)) items)
           (Z.of_nat (length pre) + Z.of_nat (length (encode_texts items))))
        record w
      = (Ok r, w)
      /\ (forall k, k ∉ items.*1 -> r !! k = record !! k)
      /\ (NoDup items.*1 ->
          forall name s, (name, s) ∈ items -> r !! name = Some (or_None s)).
Proof.
  induction items as [|[name s] items IH]; intros pre record w Hok.
  - exists record. split; [reflexivity|]. split; [reflexivity|].
    intros _ name s Hin. inversion Hin.
  - apply Forall_cons in Hok as [Hs Hok]. cbn [snd] in Hs.
    cbn [place_texts field_ranges read_ranges encode_texts flat_map snd].
    fold (encode_texts items).
    set (next := Z.of_nat (length pre) + Z.of_nat (length (encode_text s))).
    assert (match place_texts next items with
            | [] => Z.of_nat (length pre)
                    + Z.of_nat (length (encode_text s ++ encode_texts items))
            | (_, next_offset) :: _ => next_offset
            end = next) as ->.
    { destruct items as [|[name' s'] items']; [|reflexivity].
      cbn [place_texts encode_texts flat_map]. rewrite app_nil_r. reflexivity. }
    unfold mbind, M_bind.
    rewrite <- (app_assoc (encode_text s)).
    unfold next.
    rewrite (read_encode_text pre (encode_texts items ++ post) s) by exact Hs.
    specialize (IH (pre ++ encode_text s) (<[name := opt_str
                      (match s with [] => None | _ => Some s end)]> record) w Hok).
    rewrite length_app, Nat2Z.inj_add in IH. fold next in IH.
    rewrite <- app_assoc in IH.
    replace (Z.of_nat (length pre) + Z.of_nat (length (encode_text s ++ encode_texts items)))
      with (next + Z.of_nat (length (encode_texts items)))
      by (unfold next; rewrite length_app; lia).
    fold next. destruct IH as (r & -> & Hkeep & Hget).
    exists r. split; [reflexivity|]. split.
    + intros k Hk. cbn [fmap list_fmap fst] in Hk.
      apply not_elem_of_cons in Hk as [Hne Hk].
      rewrite Hkeep by exact Hk. apply lookup_insert_ne. congruence.
    + intros Hnodup name' s' Hin. cbn [fmap list_fmap fst] in Hnodup.
      apply NoDup_cons in Hnodup as [Hfresh Hnodup].
      apply elem_of_cons in Hin as [[= -> ->]|Hin].
      * rewrite Hkeep by exact Hfresh. rewrite lookup_insert_eq.
        destruct s; reflexivity.
      * exact (Hget Hnodup name' s' Hin).
Qed.


(** The values of an offset table, as the twenty words and the size. *)
Lemma unpack_table (tbl : list byte) :
  unpack_fields (NamedStruct.formats RUA_PROPERTY_OFFSETS_VALUES) tbl
  = map (u32 tbl) (seq 0 20) ++ [i16 tbl 85].
Proof.
  unfold RUA_PROPERTY_OFFSETS_VALUES, NamedStruct.formats.
  cbn [map snd unpack_fields fmt_size seq app].
  rewrite !drop_drop. reflexivity.
Qed.

Lemma table_values_ranges (off : string -> Z) (fs lc pl ps : Z) :
  (forall name, 0 <= off name < 2 ^ 32) ->
  0 <= fs < 2 ^ 32 -> 0 <= lc < 2 ^ 32 -> 0 <= pl < 2 ^ 32 ->
  - 2 ^ 15 <= ps < 2 ^ 15 ->
  Forall2 fmt_range
    (value_formats (NamedStruct.formats RUA_PROPERTY_OFFSETS_VALUES))
    (table_values off fs lc pl ps).
Proof.
  intros Hoff Hfs Hlc Hpl Hps.
  change (value_formats (NamedStruct.formats RUA_PROPERTY_OFFSETS_VALUES))
    with (repeat Fmt_I 20 ++ [Fmt_h]).
  unfold table_values. cbn [repeat app].
  repeat (constructor; [first [apply Hoff | assumption]|]). constructor.
Qed.

(** The table written by [pack] holds the values of [table_values]. *)
Lemma table_words (off : string -> Z) (fs lc pl ps : Z) :
  (forall name, 0 <= off name < 2 ^ 32) ->
  0 <= fs < 2 ^ 32 -> 0 <= lc < 2 ^ 32 -> 0 <= pl < 2 ^ 32 ->
  - 2 ^ 15 <= ps < 2 ^ 15 ->
  let tbl := pack (NamedStruct.formats RUA_PROPERTY_OFFSETS_VALUES)
               (table_values off fs lc pl ps) in
  length tbl = 89%nat
  /\ decoded_offsets tbl = map (fun name => (name, off name)) (decoded_offsets []).*1
  /\ u32 tbl 5 = fs /\ u32 tbl 11 = lc /\ u32 tbl 9 = pl /\ i16 tbl 85 = ps.
Proof.
  intros Hoff Hfs Hlc Hpl Hps tbl.
  pose proof (table_values_ranges off fs lc pl ps Hoff Hfs Hlc Hpl Hps) as Hr.
  pose proof (unpack_fields_pack _ _ Hr) as Hback. fold tbl in Hback.
  rewrite unpack_table in Hback.
  split; [apply pack_length; symmetry; exact (Forall2_length _ _ _ Hr)|].
  unfold table_values in Hback. cbn [map seq app] in Hback.
  injection Hback as H0 H1 H2 H3 H4 H5 H6 H7 H8 H9 H10 H11 H12 H13 H14 H15 H16 H17
                      H18 H19 H20.
  unfold decoded_offsets. cbn [fmap list_fmap map fst].
  rewrite H0, H1, H2, H3, H4, H6, H7, H8, H10, H12, H13, H14, H15, H16, H17, H18, H19.
  repeat split; assumption.
Qed.

Lemma offset_of_in (placed : list (string * Z)) (p : string * Z) :
  NoDup placed.*1 -> p ∈ placed -> offset_of placed p.1 = p.2.
Proof.
  unfold offset_of.
  induction placed as [|q placed IH]; intros Hnodup Hin; [inversion Hin|].
  cbn [fmap list_fmap] in Hnodup. apply NoDup_cons in Hnodup as [Hfresh Hnodup].
  cbn [List.find]. destruct (String.eqb_spec q.1 p.1) as [Heq|Hne].
  - apply elem_of_cons in Hin as [->|Hin]; [reflexivity|].
    exfalso. apply Hfresh. rewrite Heq. apply list_elem_of_fmap. exists p. eauto.
  - apply elem_of_cons in Hin as [->|Hin]; [contradiction|]. exact (IH Hnodup Hin).
Qed.

Lemma offsets_of_placed (placed : list (string * Z)) :
  NoDup placed.*1 ->
  map (fun name => (name, offset_of placed name)) placed.*1 = placed.
Proof.
  intros Hnodup.
  assert (forall l, (forall p, p ∈ l -> p ∈ placed) ->
                    map (fun name => (name, offset_of placed name)) l.*1 = l) as Hl.
  { induction l as [|[name off] l IH]; intros Hsub; [reflexivity|].
    cbn [fmap list_fmap map fst]. f_equal.
    - f_equal. apply (offset_of_in placed (name, off) Hnodup).
      apply Hsub. apply list_elem_of_here.
    - apply IH. intros p Hp. apply Hsub. apply list_elem_of_further. exact Hp. }
  apply Hl. auto.
Qed.

(** Entries in strictly ascending order of offset are the only sorted
    arrangement of themselves. *)
Lemma sorted_perm_unique (l s : list (string * Z)) :
  StronglySorted offset_lt l -> StronglySorted offset_le s -> s ≡ₚ l -> s = l.
Proof.
  intros Hl. revert s. induction Hl as [|x l Hl IH Hx]; intros s Hs Hperm.
  - apply Permutation_nil_r in Hperm. exact Hperm.
  - destruct Hs as [|y s Hs Hy].
    { apply Permutation_nil_cons in Hperm. contradiction. }
    assert (y = x) as ->.
    { assert (y ∈ x :: l) as Hyin by (rewrite <- Hperm; apply list_elem_of_here).
      apply elem_of_cons in Hyin as [Heq|Hyin]; [exact Heq|].
      assert (x ∈ y :: s) as Hxin by (rewrite Hperm; apply list_elem_of_here).
      apply elem_of_cons in Hxin as [Heq|Hxin]; [symmetry; exact Heq|].
      rewrite Forall_forall in Hx, Hy.
      pose proof (Hx y Hyin) as H1. pose proof (Hy x Hxin) as H2.
      unfold offset_lt, offset_le in *. lia. }
    f_equal. apply IH; [exact Hs|].
    exact (Permutation_cons_inv Hperm).
Qed.

(** The offsets of the table, sorted, are the strings in the order of the
    blob. *)
Lemma sorted_placed (at_ : Z) (items : list (string * pystr)) :
  items.*1 ≡ₚ (decoded_offsets []).*1 ->
  sorted_by_offset
    (map (fun name => (name, offset_of (place_texts at_ items) name))
       (decoded_offsets []).*1)
  = place_texts at_ items.
Proof.
  intros Hperm.
  assert (NoDup items.*1) as Hnodup.
  { rewrite Hperm. apply (bool_decide_eq_true_1 (NoDup (decoded_offsets []).*1)).
    vm_compute. reflexivity. }
  apply sorted_perm_unique;
    [apply place_texts_sorted | apply sorted_by_offset_sorted |].
  rewrite sorted_by_offset_perm.
  pose proof (offsets_of_placed (place_texts at_ items)) as Hself.
  rewrite place_texts_names in Hself. specialize (Hself Hnodup).
  transitivity (map (fun name => (name, offset_of (place_texts at_ items) name))
                  items.*1).
  - apply Permutation_map. symmetry. exact Hperm.
  - rewrite Hself. reflexivity.
Qed.


Lemma place_texts_below (at_ : Z) (items : list (string * pystr)) :
  Forall (fun p => p.2 <= at_ + Z.of_nat (length (encode_texts items)))
    (place_texts at_ items).
Proof.
  revert at_. induction items as [|[name s] items IH]; intros at_; [constructor|].
  cbn [place_texts encode_texts flat_map snd]. fold (encode_texts items).
  rewrite length_app. constructor; [cbn; lia|].
  eapply Forall_impl; [apply IH|]. cbn. intros p Hp. lia.
Qed.

Lemma offset_of_range (at_ : Z) (items : list (string * pystr)) (name : string) :
  0 <= at_ ->
  0 <= offset_of (place_texts at_ items) name
    <= at_ + Z.of_nat (length (encode_texts items)).
Proof.
  intros Hat. unfold offset_of.
  destruct (List.find _ _) as [p|] eqn:Hfind; [|lia].
  apply find_some in Hfind as [Hin _]. apply list_elem_of_In in Hin.
  pose proof (place_texts_above at_ items) as Ha.
  pose proof (place_texts_below at_ items) as Hb.
  rewrite Forall_forall in Ha, Hb.
  specialize (Ha p Hin). specialize (Hb p Hin). cbn beta in *. lia.
Qed.

(** The header written by [pack] holds its three values. *)
Lemma header_words (lu lj rs : Z) :
  0 <= lu < 2 ^ 64 -> 0 <= lj < 2 ^ 64 -> 0 <= rs < 2 ^ 32 ->
  let hdr := encode_header lu lj rs in
  length hdr = 30%nat
  /\ Py.le_uint (take 8 hdr) = lu
  /\ Py.le_uint (take 8 (drop 8 hdr)) = lj
  /\ Py.le_uint (take 4 (drop 16 hdr)) = rs.
Proof.
  intros Hlu Hlj Hrs hdr.
  assert (Forall2 fmt_range (value_formats (NamedStruct.formats RUA_RECORD_HEADER))
            [lu; lj; rs]) as Hr.
  { change (value_formats (NamedStruct.formats RUA_RECORD_HEADER))
      with [Fmt_Q; Fmt_Q; Fmt_I].
    repeat (constructor; [assumption|]). constructor. }
  pose proof (unpack_fields_pack _ _ Hr) as Hback.
  change (pack (NamedStruct.formats RUA_RECORD_HEADER) [lu; lj; rs]) with hdr in Hback.
  unfold RUA_RECORD_HEADER, NamedStruct.formats in Hback.
  cbn [map snd unpack_fields fmt_size] in Hback.
  rewrite ?drop_drop in Hback. cbn [Nat.add] in Hback.
  injection Hback as H1 H2 H3.
  split; [apply pack_length; reflexivity|].
  repeat split; assumption.
Qed.

(** [decode_properties] over a complete table, step by step. *)
Lemma decode_properties_unfold (record : pydict) (fullpath : value)
  (hash_start : Z) (w : world) :
  (89 <= length (unread w))%nat ->
  let tbl := take 89 (unread w) in
  decode_properties os unicode_lower record fullpath hash_start w
  = (properties_data ← read (Z.min (i16 tbl 85) RUA_MAX_RECORD_SIZE);
     record ← read_ranges properties_data fullpath hash_start
                (field_ranges (sorted_by_offset (decoded_offsets tbl)) (i16 tbl 85))
                (<["product_language" := VInt (u32 tbl 9)]>
                   (<["launch_count" := VInt (u32 tbl 11)]>
                      (<["file_size" := VInt (u32 tbl 5)]> record)));
     match parse_fields os unicode_lower record with
     | Ok record => mret record
     | Raise e => raise e
     end) (advance 89 w).
Proof.
  intros Hle tbl. unfold decode_properties.
  unfold mbind at 1, M_bind at 1.
  rewrite get_prop_offsets_full by exact Hle. fold tbl.
  rewrite pop_properties_size.
  unfold mbind at 1 3, M_bind at 1 3.
  destruct (read _ _) as [[data|e] w1]; [|reflexivity].
  unfold mbind, M_bind. rewrite read_fields_by_ranges. reflexivity.
Qed.

End RecordRoundTrip.

(** X21: a record written as the decoder expects it is read back in full.
    After a Vista match come the header, the offset table and the blob: the
    class name, then the seventeen strings in any order, each written by
    [encode_text].  With every number in the range of its field and every
    text free of surrogates and of a zero character at its end,
    [process_hit] returns the two timestamps converted, the three numbers as
    written, and every string as written, [None] standing for the empty
    one; it prints nothing and stops reading where the blob ends. *)
Theorem record_round_trip (os : os_path) (unicode_lower : pystr -> pystr)
  (m : nat * nat) (fullpath : value) (w : world) (pre post : list byte)
  (lu lj rs fs lc pl : Z) (items : list (string * pystr)) :
  vista_match m ->
  m.2 = length pre ->
  content (file w) = pre ++ encode_record lu lj rs fs lc pl items ++ post ->
  items.*1 ≡ₚ (decoded_offsets []).*1 ->
  Forall (fun item => text_ok item.2) items ->
  0 <= lu < 2 ^ 64 -> 0 <= lj < 2 ^ 64 -> 0 <= rs <= RUA_MAX_RECORD_SIZE ->
  0 <= fs < 2 ^ 32 -> 0 <= lc < 2 ^ 32 -> 0 <= pl < 2 ^ 32 ->
  Z.of_nat (length (encode_blob items)) < 2 ^ 15 ->
  exists r w',
    process_hit os unicode_lower m fullpath w = (Ok r, w')
    /\ stdout w' = stdout w
    /\ position (file w') = (m.2 + 30 + 89 + length (encode_blob items))%nat
    /\ r !! "last_updated" = Some (filetime_value lu)
    /\ r !! "last_joined_sccm" = Some (filetime_value lj)
    /\ r !! "file_size" = Some (VInt fs)
    /\ r !! "launch_count" = Some (VInt lc)
    /\ r !! "product_language" = Some (VInt pl)
    /\ (forall name s, (name, s) ∈ items -> r !! name = Some (or_None s)).
Proof.
  intros Hm Hm2 Hcontent Hperm Hok Hlu Hlj Hrs Hfs Hlc Hpl Hblob.
  unfold RUA_MAX_RECORD_SIZE in Hrs.
  set (at_ := Z.of_nat (length Sample.class_name)).
  assert (at_ = 22) as Hat by reflexivity.
  assert (Z.of_nat (length (encode_blob items))
          = at_ + Z.of_nat (length (encode_texts items))) as Hps
    by (unfold encode_blob, at_; rewrite length_app; lia).
  (* the header *)
  destruct (header_words lu lj rs Hlu Hlj ltac:(lia)) as (Hhlen & Hw1 & Hw2 & Hw3).
  (* the table *)
  pose proof (table_words (offset_of (place_texts at_ items)) fs lc pl
                (Z.of_nat (length (encode_blob items)))) as Htable.
  cbv zeta in Htable.
  change (pack (NamedStruct.formats RUA_PROPERTY_OFFSETS_VALUES) _)
    with (encode_table items fs lc pl) in Htable.
  destruct Htable as (Htlen & Hoffsets & Hfs' & Hlc' & Hpl' & Hps');
    try assumption; try lia.
  { intros name. pose proof (offset_of_range at_ items name ltac:(lia)). lia. }
  set (H := encode_header lu lj rs) in *.
  set (T := encode_table items fs lc pl) in *.
  set (B := encode_blob items) in *.
  assert (drop m.2 (content (file w)) = H ++ T ++ B ++ post) as Hdrop.
  { rewrite Hcontent, Hm2, drop_app_length. unfold encode_record.
    rewrite <- !app_assoc. reflexivity. }
  assert (drop (m.2 + 30) (content (file w)) = T ++ B ++ post) as Hdrop2.
  { rewrite <- drop_drop, Hdrop, <- Hhlen, drop_app_length.
    reflexivity. }
  assert (drop (m.2 + 30 + 89) (content (file w)) = B ++ post) as Hdrop3.
  { rewrite <- drop_drop, Hdrop2, <- Htlen, drop_app_length.
    reflexivity. }
  rewrite (process_hit_header os unicode_lower m "Vista" fullpath w (vista_type m Hm))
    by (rewrite Hdrop, length_app; lia).
  cbv zeta. rewrite Hdrop.
  rewrite (take_app_length' H) by (symmetry; exact Hhlen).
  rewrite Hw3.
  destruct (Z.ltb_spec RUA_MAX_RECORD_SIZE rs) as [Hbig|_];
    [unfold RUA_MAX_RECORD_SIZE in Hbig; lia|].
  set (w1 := mk_world (mk_fileobj (content (file w)) (m.2 + 30)) (stdout w)).
  assert (unread w1 = T ++ B ++ post) as Hunread by exact Hdrop2.
  rewrite (decode_properties_unfold os unicode_lower _ fullpath _ w1)
    by (rewrite Hunread, length_app; lia).
  cbv zeta. rewrite Hunread, (take_app_length' T) by (symmetry; exact Htlen).
  rewrite Hfs', Hlc', Hpl', Hps', Hoffsets.
  rewrite Z.min_l by (unfold RUA_MAX_RECORD_SIZE; lia).
  unfold mbind at 1, M_bind at 1. rewrite read_spec.
  assert (unread (advance 89 w1) = B ++ post) as Hunread2 by exact Hdrop3.
  rewrite Hunread2, (take_app_length' B) by reflexivity.
  set (w2 := advance (length B) (advance 89 w1)).
  rewrite (sorted_placed at_ items Hperm).
  (* the strings *)
  set (record3 := <["product_language" := _]> _).
  destruct (read_ranges_placed fullpath (Z.of_nat m.1) [] items Sample.class_name
              record3 w2 Hok) as (r0 & Hread & Hkeep & Hget).
  rewrite app_nil_r in Hread. fold at_ in Hread. rewrite <- Hps in Hread.
  change (Sample.class_name ++ encode_texts items) with B in Hread.
  unfold mbind, M_bind. rewrite Hread.
  assert (NoDup items.*1) as Hnodup.
  { rewrite Hperm. apply (bool_decide_eq_true_1 (NoDup (decoded_offsets []).*1)).
    vm_compute. reflexivity. }
  specialize (Hget Hnodup).
  assert (forall k : string,
            k ∈ ["last_updated"; "last_joined_sccm"; "file_size"; "launch_count";
                 "product_language"; "full_path"; "file_extension"] ->
            k ∉ items.*1) as Hfresh.
  { intros k Hk. rewrite Hperm.
    repeat (apply elem_of_cons in Hk as [->|Hk];
            [cbn; rewrite !not_elem_of_cons; repeat split; try discriminate;
             apply not_elem_of_nil|]).
    inversion Hk. }
  assert (forall name, name ∈ (decoded_offsets []).*1 ->
                       exists s, (name, s) ∈ items) as Hhas.
  { intros name Hin. rewrite <- Hperm in Hin.
    apply list_elem_of_fmap in Hin as ([name' s] & -> & Hin). exists s. exact Hin. }
  assert (forall name, name ∈ (decoded_offsets []).*1 ->
                       exists s, get_text r0 name = Ok s) as Htext.
  { intros name Hin. destruct (Hhas name Hin) as [s Hs].
    exists s. unfold get_text. rewrite (Hget name s Hs). destruct s; reflexivity. }
  destruct (header_record_ticks "Vista" H fullpath (Z.of_nat m.1)) as [Hrlu Hrlj].
  rewrite Hw1 in Hrlu. rewrite Hw2 in Hrlj.
  assert (r0 !! "last_updated" = Some (VInt lu)) as Hlu0.
  { rewrite Hkeep by (apply Hfresh; in_names). unfold record3.
    rewrite !lookup_insert_ne by discriminate. exact Hrlu. }
  assert (r0 !! "last_joined_sccm" = Some (VInt lj)) as Hlj0.
  { rewrite Hkeep by (apply Hfresh; in_names). unfold record3.
    rewrite !lookup_insert_ne by discriminate. exact Hrlj. }
  destruct (Htext "folder_path" ltac:(in_names)) as [folder Hfolder].
  destruct (Htext "explorer_filename" ltac:(in_names)) as [fname Hfname].
  unfold parse_fields.
  rewrite (filetime_field_int r0 _ lu Hlu0 Hlu).
  rewrite (filetime_field_int _ _ lj)
    by (first [rewrite lookup_insert_ne by discriminate; exact Hlj0 | exact Hlj]).
  rewrite !get_text_insert_ne, Hfolder, Hfname by discriminate.
  eexists _, _. split; [reflexivity|].
  split; [reflexivity|].
  split; [cbn [w2 w1 advance file position]; unfold B; lia|].
  split; [rewrite !lookup_insert_ne by discriminate; apply lookup_insert_eq|].
  split; [rewrite !lookup_insert_ne by discriminate; apply lookup_insert_eq|].
  split; [|split; [|split]].
  - rewrite !lookup_insert_ne by discriminate.
    rewrite Hkeep by (apply Hfresh; in_names). unfold record3.
    rewrite !lookup_insert_ne by discriminate. apply lookup_insert_eq.
  - rewrite !lookup_insert_ne by discriminate.
    rewrite Hkeep by (apply Hfresh; in_names). unfold record3.
    rewrite !lookup_insert_ne by discriminate. apply lookup_insert_eq.
  - rewrite !lookup_insert_ne by discriminate.
    rewrite Hkeep by (apply Hfresh; in_names). unfold record3.
    apply lookup_insert_eq.
  - intros name s Hin.
    assert (name ∈ items.*1) as Hname
      by (apply list_elem_of_fmap; exists (name, s); eauto).
    assert (name <> "file_extension" /\ name <> "full_path"
            /\ name <> "last_joined_sccm" /\ name <> "last_updated") as (? & ? & ? & ?).
    { repeat split; intros ->;
        (eapply Hfresh; [|exact Hname]); in_names. }
    rewrite !lookup_insert_ne by congruence. exact (Hget name s Hin).
Qed.

Lemma record_round_trip_witness :
  let items :=
    map (fun p => (p.1, match p.2 with Some s => str_of_string s | None => [] end))
      Sample.strings in
  let data :=
    encode_utf16le VISTA_HASH
    ++ encode_record 131723359061027940 131599838211786410 1024 1366528 64 1033 items in
  exists r w',
    process_hit ntpath (fun s => s) (0, 128)%nat VNone (open_file data) = (Ok r, w')
    /\ stdout w' = []
    /\ r !! "file_size" = Some (VInt 1366528)
    /\ r !! "original_filename" = Some (VStr (str_of_string "FlashUtil.exe"))
    /\ r !! "msi_version" = Some VNone
    /\ data = Sample.vista_record.
Proof.
  intros items data.
  destruct (record_round_trip ntpath (fun s => s) (0, 128)%nat VNone (open_file data)
              (encode_utf16le VISTA_HASH) []
              131723359061027940 131599838211786410 1024 1366528 64 1033 items)
    as (r & w' & Hrun & Hout & _ & _ & _ & Hsize & _ & _ & Hstr).
  - reflexivity.
  - reflexivity.
  - unfold data. cbn [open_file file content]. rewrite app_nil_r. reflexivity.
  - apply (bool_decide_eq_true_1 (items.*1 ≡ₚ (decoded_offsets []).*1)).
    vm_compute. reflexivity.
  - repeat constructor; unfold no_trailing_nul; vm_compute; discriminate.
  - lia.
  - lia.
  - unfold RUA_MAX_RECORD_SIZE. lia.
  - lia.
  - lia.
  - lia.
  - vm_compute. reflexivity.
  - exists r, w'. split; [exact Hrun|]. split; [exact Hout|]. split; [exact Hsize|].
    split.
    { apply (Hstr "original_filename" (str_of_string "FlashUtil.exe")).
      apply list_elem_of_In. vm_compute.
      repeat first [left; reflexivity | right]. }
    split.
    + apply (Hstr "msi_version" []).
      apply list_elem_of_In. vm_compute.
      repeat first [left; reflexivity | right].
    + vm_compute. reflexivity.
Defined.

(** ** What a decoded text can hold *)

Section DecodedScalars.

Lemma rstrip_Forall {A} (P : A -> Prop) (is_c : A -> bool) (s : list A) :
  Forall P s -> Forall P (rstrip is_c s).
Proof.
  induction 1 as [|x s Hx Hs IH]; [constructor|].
  cbn [rstrip]. destruct (rstrip is_c s) as [|y rest].
  - destruct (is_c x); [constructor | repeat constructor; exact Hx].
  - constructor; assumption.
Qed.

Lemma byte_to_N_range (b : byte) : (Byte.to_N b < 256)%N.
Proof. pose proof (Byte.to_N_bounded b). lia. Qed.

Lemma code_unit_range (lo hi : byte) : (code_unit lo hi < 65536)%N.
Proof.
  unfold code_unit.
  pose proof (byte_to_N_range lo). pose proof (byte_to_N_range hi). lia.
Qed.

Lemma is_scalar_small (c : N) : (c < 256)%N -> is_scalar c = true.
Proof.
  intros Hc. unfold is_scalar, is_high_surrogate, is_low_surrogate.
  destruct (N.ltb_spec c 1114112); [|lia].
  destruct (N.leb_spec 55296 c); [lia|].
  destruct (N.leb_spec 56320 c); [lia|]. reflexivity.
Qed.

Lemma decode_utf16le_replace_scalars (buf : list byte) :
  Forall (fun c => is_scalar c = true) (decode_utf16le_replace buf).
Proof.
  assert (forall n (b : list byte), (length b < n)%nat ->
            Forall (fun c => is_scalar c = true) (decode_utf16le_replace b)) as Hn.
  { induction n as [|n IH]; intros b Hlen; [lia|].
    destruct b as [|lo [|hi rest]]; [constructor | repeat constructor |].
    cbn [decode_utf16le_replace]. cbv zeta.
    pose proof (code_unit_range lo hi) as Hu.
    cbn [length] in Hlen.
    destruct (is_low_surrogate (code_unit lo hi)) eqn:Hlow.
    { constructor; [reflexivity | apply IH; lia]. }
    destruct (is_high_surrogate (code_unit lo hi)) eqn:Hhigh.
    - destruct rest as [|lo2 [|hi2 rest']]; [repeat constructor | repeat constructor |].
      pose proof (code_unit_range lo2 hi2) as Hu2.
      destruct (is_low_surrogate (code_unit lo2 hi2)) eqn:Hlow2.
      + constructor; [|apply IH; cbn [length] in *; lia].
        unfold is_high_surrogate in Hhigh. unfold is_low_surrogate in Hlow2.
        apply andb_prop in Hhigh as [H1 H2]. apply andb_prop in Hlow2 as [H3 H4].
        apply N.leb_le in H1, H2, H3, H4.
        set (u := code_unit lo hi) in *. set (u2 := code_unit lo2 hi2) in *.
        unfold is_scalar, is_high_surrogate, is_low_surrogate.
        destruct (N.ltb_spec (65536 + (u - 55296) * 1024 + (u2 - 56320)) 1114112); [|lia].
        destruct (N.leb_spec 55296 (65536 + (u - 55296) * 1024 + (u2 - 56320)));
          destruct (N.leb_spec (65536 + (u - 55296) * 1024 + (u2 - 56320)) 56319);
          destruct (N.leb_spec 56320 (65536 + (u - 55296) * 1024 + (u2 - 56320)));
          destruct (N.leb_spec (65536 + (u - 55296) * 1024 + (u2 - 56320)) 57343);
          cbn; try reflexivity; lia.
      + constructor; [reflexivity | apply IH; cbn [length] in *; lia].
    - constructor; [|apply IH; lia].
      unfold is_scalar. rewrite Hlow, Hhigh.
      destruct (N.ltb_spec (code_unit lo hi) 1114112); [reflexivity | lia]. }
  apply (Hn (S (length buf))). lia.
Qed.

End DecodedScalars.

(** X22: a text that [read_cim_encoded_string] returns is made of Unicode
    scalar values only: no surrogate and nothing above U+10FFFF, whatever
    the bytes were.  So every decoded text can be encoded again, as the
    UTF-8 of the CSV file asks. *)
Theorem read_cim_encoded_string_scalars (buf : list byte) (start end_ : Z)
  (fullpath file_offset : value) (w w' : world) (s : pystr) :
  read_cim_encoded_string buf start end_ fullpath file_offset w = (Ok (Some s), w') ->
  Forall (fun c => is_scalar c = true) s.
Proof.
  unfold read_cim_encoded_string.
  destruct (_ =? 2); [discriminate|].
  destruct (_ <? start); [discriminate|].
  destruct (negb _); [discriminate|].
  destruct (bool_decide (Py.slice buf (start + 1) (start + 2) = [])); [discriminate|].
  unfold decode_cim_encoded_string.
  destruct (bool_decide (Py.slice buf start (start + 1) = [x01])).
  - intros [= <- _]. apply rstrip_Forall. apply decode_utf16le_replace_scalars.
  - destruct (mapM _ _) as [bs|]; [|discriminate].
    intros [= <- _]. apply Forall_forall. intros c Hc.
    apply list_elem_of_fmap in Hc as (b & -> & _).
    apply is_scalar_small. apply byte_to_N_range.
Qed.

Lemma read_cim_encoded_string_scalars_witness :
  Forall (fun c => is_scalar c = true) [65533; 65]%N.
Proof.
  apply (read_cim_encoded_string_scalars [x01; x00; xd8; x41; x00; x00; x00] 0 7
           VNone VNone (open_file []) (open_file [])).
  vm_compute. reflexivity.
Defined.

(** X23: [decode_cim_encoded_string] on a compressed buffer fails, printing
    that the string could not be decoded and returning [None], exactly when
    [offset] lies more than the length of the buffer, stripped of its
    trailing zero bytes, below zero: then the first index is out of range.
    In every other case, and always on an uncompressed buffer, it returns a
    text and prints nothing. *)
Theorem decode_cim_encoded_string_failure (buf : list byte) (offset : Z)
  (uncompressed : bool) (fullpath file_offset : value) (w : world) :
  let stripped := rstrip is_nul_byte buf in
  if negb uncompressed && (offset <? - Z.of_nat (length stripped))
  then decode_cim_encoded_string buf offset uncompressed fullpath file_offset w
       = (Ok None, printed (Could_not_decode_string stripped file_offset fullpath) w)
  else exists s,
         decode_cim_encoded_string buf offset uncompressed fullpath file_offset w
         = (Ok (Some s), w).
Proof.
  cbv zeta. unfold decode_cim_encoded_string.
  destruct uncompressed; cbn [negb andb]; [eexists; reflexivity|].
  set (stripped := rstrip is_nul_byte buf).
  destruct (Z.ltb_spec offset (- Z.of_nat (length stripped))) as [Hlow|Hok].
  - assert (mapM (getitem stripped) (range offset (Z.of_nat (length stripped))) = None)
      as ->; [|reflexivity].
    unfold range.
    destruct (Z.to_nat (Z.of_nat (length stripped) - offset)) as [|n] eqn:Hn; [lia|].
    cbn [seq map mapM]. rewrite Z.add_0_r.
    assert (getitem stripped offset = None) as ->; [|reflexivity].
    unfold getitem. destruct (Z.ltb_spec offset 0); [|lia].
    destruct (Z.leb_spec 0 (offset + Z.of_nat (length stripped))); [lia|]. reflexivity.
  - destruct (mapM (getitem stripped) (range offset (Z.of_nat (length stripped))))
      as [bs|] eqn:Hmap; [eexists; reflexivity|].
    exfalso.
    assert (is_Some (mapM (getitem stripped)
                       (range offset (Z.of_nat (length stripped))))) as [? Hsome];
      [|rewrite Hsome in Hmap; discriminate].
    apply mapM_is_Some. apply Forall_forall. intros i Hi.
    unfold range in Hi. apply list_elem_of_fmap in Hi as (k & -> & Hk).
    apply list_elem_of_In, in_seq in Hk.
    unfold compose, getitem.
    destruct (Z.ltb_spec (offset + Z.of_nat k) 0).
    + destruct (Z.leb_spec 0 (offset + Z.of_nat k + Z.of_nat (length stripped))); [|lia].
      destruct (Z.ltb_spec (offset + Z.of_nat k + Z.of_nat (length stripped))
                  (Z.of_nat (length stripped))); [|lia].
      cbn [andb]. apply lookup_lt_is_Some. lia.
    + destruct (Z.leb_spec 0 (offset + Z.of_nat k)); [|lia].
      destruct (Z.ltb_spec (offset + Z.of_nat k) (Z.of_nat (length stripped))); [|lia].
      cbn [andb]. apply lookup_lt_is_Some. lia.
Qed.
